(** * 30 Days of Night: the simulation core of [scripts/game.js]

    A shallow embedding of the game's simulation step, and the properties
    of it that the design document states.

    Conventions of the embedding.

    - JavaScript numbers that the program only ever uses as integers
      (millisecond timestamps, the score, the player's health, shot delays)
      are [Z].  Numbers that take fractional values (coordinates, sizes,
      velocities, the damage multiplier and hence a zombie's health) are
      exact rationals [Q]; the rounding of IEEE doubles is not modelled.
    - [Math.sqrt], [Math.cos], [Math.sin], [Math.atan2], [Math.random] and
      [Date.now] belong to the host.  They are the fields of the class
      [Host], and every statement holds for every host.  [Date.now] and
      [Math.random] are indexed by the number of calls made so far, which
      the world records in [clockReads] and [randomDraws]; the clock may
      advance between any two reads.
    - The module-level [let] variables of the script are the fields of
      [World]; every function of the script that touches them is a function
      from [World] to [World].  The objects of an array are held by that
      array only, so an array of objects mutated in place is a list of
      records rebuilt.
    - [updateGame] is the tick.  Of the render step, [drawGame] returns
      the list of what it paints, in the order of the painting.  The sound
      effects and the registration of the input handlers write nothing
      that [updateGame] or [initGame] computes with, other than the input
      state, which is arbitrary in every statement; they are left out.
      The texts written by [updateStatsDisplay] and [gameOver] are kept in
      [Display.t].
    - The canvas size is an [unsigned long] of the DOM: what
      [resizeCanvas] assigns is read back in whole pixels.  A frame handle
      is a number, and zero is one that fails a test such as
      [if (gameLoopId)]. *)

From Stdlib Require Import ZArith QArith Qround Qminmax List String Bool Lia Lqa.
Import ListNotations.

Open Scope Q_scope.

(** ** The host *)

Class Host := {
  Math_sqrt : Q -> Q;
  Math_cos : Q -> Q;
  Math_sin : Q -> Q;
  Math_atan2 : Q -> Q -> Q;
  (** [Math_random n] is what the [n]-th call of [Math.random()] returns. *)
  Math_random : nat -> Q;
  (** [Date_now n] is what the [n]-th call of [Date.now()] returns. *)
  Date_now : nat -> Z;
  Math_random_range : forall n, 0 <= Math_random n /\ Math_random n < 1
}.

(** [a < b] on numbers, as a test. *)
Definition Qltb (a b : Q) : bool := negb (Qle_bool b a).

(** ** Game configuration *)

Definition PLAYER_SIZE : Q := 20.
Definition PLAYER_SPEED : Q := 5.
Definition BULLET_SIZE : Q := 5.
Definition BULLET_SPEED : Q := 10.
Definition ZOMBIE_SIZE : Q := 25.
Definition ZOMBIE_SPEED : Q := 1.5.
Definition ZOMBIE_SPAWN_INTERVAL : Z := 1500.
Definition MAX_HEALTH : Z := 100.
Definition ZOMBIE_DAMAGE : Z := 10.

Definition ITEM_SIZE : Q := 15.
Definition UPGRADE_DURATION : Z := 10000.
Definition UPGRADE_CHANCE : Q := 0.50.
Definition ITEM_LIFETIME : Z := 15000.
Definition WARNING_TIME : Z := 5000.
Definition DAMAGE_BOOST_MULTIPLIER : Q := 1.5.

(** ** Game objects *)

Module Player.
Record t := mk {
  x : Q;
  y : Q;
  size : Q;
  health : Z;
  color : string;
  lastShotTime : Z;
  tripleShotEndTime : Z;
  damageBoostEndTime : Z;
  currentShotDelay : Z;
  defaultShotDelay : Z;
  bulletDamageMultiplier : Q
}.

Definition set_pos (x' y' : Q) (p : t) : t :=
  mk x' y' (size p) (health p) (color p) (lastShotTime p)
     (tripleShotEndTime p) (damageBoostEndTime p) (currentShotDelay p)
     (defaultShotDelay p) (bulletDamageMultiplier p).

Definition set_health (h : Z) (p : t) : t :=
  mk (x p) (y p) (size p) h (color p) (lastShotTime p)
     (tripleShotEndTime p) (damageBoostEndTime p) (currentShotDelay p)
     (defaultShotDelay p) (bulletDamageMultiplier p).

Definition set_lastShotTime (v : Z) (p : t) : t :=
  mk (x p) (y p) (size p) (health p) (color p) v
     (tripleShotEndTime p) (damageBoostEndTime p) (currentShotDelay p)
     (defaultShotDelay p) (bulletDamageMultiplier p).

Definition set_tripleShotEndTime (v : Z) (p : t) : t :=
  mk (x p) (y p) (size p) (health p) (color p) (lastShotTime p)
     v (damageBoostEndTime p) (currentShotDelay p)
     (defaultShotDelay p) (bulletDamageMultiplier p).

Definition set_damageBoostEndTime (v : Z) (p : t) : t :=
  mk (x p) (y p) (size p) (health p) (color p) (lastShotTime p)
     (tripleShotEndTime p) v (currentShotDelay p)
     (defaultShotDelay p) (bulletDamageMultiplier p).

Definition set_currentShotDelay (v : Z) (p : t) : t :=
  mk (x p) (y p) (size p) (health p) (color p) (lastShotTime p)
     (tripleShotEndTime p) (damageBoostEndTime p) v
     (defaultShotDelay p) (bulletDamageMultiplier p).

Definition set_bulletDamageMultiplier (v : Q) (p : t) : t :=
  mk (x p) (y p) (size p) (health p) (color p) (lastShotTime p)
     (tripleShotEndTime p) (damageBoostEndTime p) (currentShotDelay p)
     (defaultShotDelay p) v.
End Player.

Module Bullet.
Record t := mk {
  x : Q;
  y : Q;
  size : Q;
  vx : Q;
  vy : Q;
  color : string
}.
End Bullet.

Module Zombie.
Record t := mk {
  x : Q;
  y : Q;
  size : Q;
  color : string;
  initialHealth : Q;
  health : Q;
  lastAttackTime : Z;
  ATTACK_DELAY : Z
}.

Definition set_pos (x' y' : Q) (z : t) : t :=
  mk x' y' (size z) (color z) (initialHealth z) (health z)
     (lastAttackTime z) (ATTACK_DELAY z).

Definition set_health (h : Q) (z : t) : t :=
  mk (x z) (y z) (size z) (color z) (initialHealth z) h
     (lastAttackTime z) (ATTACK_DELAY z).

Definition set_lastAttackTime (v : Z) (z : t) : t :=
  mk (x z) (y z) (size z) (color z) (initialHealth z) (health z)
     v (ATTACK_DELAY z).
End Zombie.

Module Item.
Record t := mk {
  x : Q;
  y : Q;
  size : Q;
  type : string;
  creationTime : Z
}.
End Item.

(** ** Input state *)

Module Keys.
Record t := mk {
  w : bool; a : bool; s : bool; d : bool;
  up : bool; down : bool; left : bool; right : bool
}.
End Keys.

Module Mouse.
Record t := mk { x : Q; y : Q; isFiring : bool }.
End Mouse.

Module Joystick.
Record t := mk {
  active : bool;
  startX : Q;
  startY : Q;
  dx : Q;
  dy : Q
}.
End Joystick.

(** ** What the page shows *)

Module Display.
Record t := mk {
  (** [scoreElement.textContent] *)
  scoreText : Z;
  (** [healthValueElement.textContent] *)
  healthValueText : Z;
  (** [healthBarElement.value] *)
  healthBarValue : Z;
  (** [healthBarElement.style.accentColor] *)
  healthBarAccent : string;
  (** [weaponStatusElement.textContent], one entry per active upgrade:
      its label and the whole seconds that remain. *)
  weaponStatus : list (string * Z);
  (** whether the message box is visible *)
  messagesVisible : bool;
  (** the final score written by [gameOver] *)
  messageScore : Z
}.
End Display.

(** ** The module-level state of the script *)

Record World := mkWorld {
  canvas_width : Q;
  canvas_height : Q;
  (** [gameLoopId], [None] while it is [undefined] *)
  gameLoopId : option nat;
  (** the animation frames requested and not yet run or cancelled *)
  pendingFrames : list nat;
  (** the handle the next [requestAnimationFrame] returns *)
  nextFrameHandle : nat;
  isGameOver : bool;
  player : Player.t;
  bullets : list Bullet.t;
  zombies : list Zombie.t;
  items : list Item.t;
  score : Z;
  lastZombieSpawnTime : Z;
  keys : Keys.t;
  mouse : Mouse.t;
  joystickState : Joystick.t;
  activeJoystickTouchId : option Z;
  display : Display.t;
  (** calls of [Date.now()] so far *)
  clockReads : nat;
  (** calls of [Math.random()] so far *)
  randomDraws : nat
}.

Definition set_scheduler (id : option nat) (pend : list nat) (next : nat)
    (w : World) : World :=
  mkWorld (canvas_width w) (canvas_height w) id pend next
    (isGameOver w) (player w) (bullets w) (zombies w) (items w) (score w)
    (lastZombieSpawnTime w) (keys w) (mouse w) (joystickState w)
    (activeJoystickTouchId w) (display w) (clockReads w) (randomDraws w).

Definition set_isGameOver (v : bool) (w : World) : World :=
  mkWorld (canvas_width w) (canvas_height w) (gameLoopId w) (pendingFrames w)
    (nextFrameHandle w) v (player w) (bullets w) (zombies w) (items w)
    (score w) (lastZombieSpawnTime w) (keys w) (mouse w) (joystickState w)
    (activeJoystickTouchId w) (display w) (clockReads w) (randomDraws w).

Definition set_player (v : Player.t) (w : World) : World :=
  mkWorld (canvas_width w) (canvas_height w) (gameLoopId w) (pendingFrames w)
    (nextFrameHandle w) (isGameOver w) v (bullets w) (zombies w) (items w)
    (score w) (lastZombieSpawnTime w) (keys w) (mouse w) (joystickState w)
    (activeJoystickTouchId w) (display w) (clockReads w) (randomDraws w).

Definition set_bullets (v : list Bullet.t) (w : World) : World :=
  mkWorld (canvas_width w) (canvas_height w) (gameLoopId w) (pendingFrames w)
    (nextFrameHandle w) (isGameOver w) (player w) v (zombies w) (items w)
    (score w) (lastZombieSpawnTime w) (keys w) (mouse w) (joystickState w)
    (activeJoystickTouchId w) (display w) (clockReads w) (randomDraws w).

Definition set_zombies (v : list Zombie.t) (w : World) : World :=
  mkWorld (canvas_width w) (canvas_height w) (gameLoopId w) (pendingFrames w)
    (nextFrameHandle w) (isGameOver w) (player w) (bullets w) v (items w)
    (score w) (lastZombieSpawnTime w) (keys w) (mouse w) (joystickState w)
    (activeJoystickTouchId w) (display w) (clockReads w) (randomDraws w).

Definition set_items (v : list Item.t) (w : World) : World :=
  mkWorld (canvas_width w) (canvas_height w) (gameLoopId w) (pendingFrames w)
    (nextFrameHandle w) (isGameOver w) (player w) (bullets w) (zombies w) v
    (score w) (lastZombieSpawnTime w) (keys w) (mouse w) (joystickState w)
    (activeJoystickTouchId w) (display w) (clockReads w) (randomDraws w).

Definition set_score (v : Z) (w : World) : World :=
  mkWorld (canvas_width w) (canvas_height w) (gameLoopId w) (pendingFrames w)
    (nextFrameHandle w) (isGameOver w) (player w) (bullets w) (zombies w)
    (items w) v (lastZombieSpawnTime w) (keys w) (mouse w) (joystickState w)
    (activeJoystickTouchId w) (display w) (clockReads w) (randomDraws w).

Definition set_lastZombieSpawnTime (v : Z) (w : World) : World :=
  mkWorld (canvas_width w) (canvas_height w) (gameLoopId w) (pendingFrames w)
    (nextFrameHandle w) (isGameOver w) (player w) (bullets w) (zombies w)
    (items w) (score w) v (keys w) (mouse w) (joystickState w)
    (activeJoystickTouchId w) (display w) (clockReads w) (randomDraws w).

Definition set_keys (v : Keys.t) (w : World) : World :=
  mkWorld (canvas_width w) (canvas_height w) (gameLoopId w) (pendingFrames w)
    (nextFrameHandle w) (isGameOver w) (player w) (bullets w) (zombies w)
    (items w) (score w) (lastZombieSpawnTime w) v (mouse w) (joystickState w)
    (activeJoystickTouchId w) (display w) (clockReads w) (randomDraws w).

Definition set_mouse (v : Mouse.t) (w : World) : World :=
  mkWorld (canvas_width w) (canvas_height w) (gameLoopId w) (pendingFrames w)
    (nextFrameHandle w) (isGameOver w) (player w) (bullets w) (zombies w)
    (items w) (score w) (lastZombieSpawnTime w) (keys w) v (joystickState w)
    (activeJoystickTouchId w) (display w) (clockReads w) (randomDraws w).

Definition set_joystick (v : Joystick.t) (touch : option Z) (w : World)
    : World :=
  mkWorld (canvas_width w) (canvas_height w) (gameLoopId w) (pendingFrames w)
    (nextFrameHandle w) (isGameOver w) (player w) (bullets w) (zombies w)
    (items w) (score w) (lastZombieSpawnTime w) (keys w) (mouse w) v
    touch (display w) (clockReads w) (randomDraws w).

Definition set_display (v : Display.t) (w : World) : World :=
  mkWorld (canvas_width w) (canvas_height w) (gameLoopId w) (pendingFrames w)
    (nextFrameHandle w) (isGameOver w) (player w) (bullets w) (zombies w)
    (items w) (score w) (lastZombieSpawnTime w) (keys w) (mouse w)
    (joystickState w) (activeJoystickTouchId w) v (clockReads w)
    (randomDraws w).

Definition set_clockReads (v : nat) (w : World) : World :=
  mkWorld (canvas_width w) (canvas_height w) (gameLoopId w) (pendingFrames w)
    (nextFrameHandle w) (isGameOver w) (player w) (bullets w) (zombies w)
    (items w) (score w) (lastZombieSpawnTime w) (keys w) (mouse w)
    (joystickState w) (activeJoystickTouchId w) (display w) v
    (randomDraws w).

Definition set_randomDraws (v : nat) (w : World) : World :=
  mkWorld (canvas_width w) (canvas_height w) (gameLoopId w) (pendingFrames w)
    (nextFrameHandle w) (isGameOver w) (player w) (bullets w) (zombies w)
    (items w) (score w) (lastZombieSpawnTime w) (keys w) (mouse w)
    (joystickState w) (activeJoystickTouchId w) (display w) (clockReads w) v.

Definition set_canvas (width height : Q) (w : World) : World :=
  mkWorld width height (gameLoopId w) (pendingFrames w)
    (nextFrameHandle w) (isGameOver w) (player w) (bullets w) (zombies w)
    (items w) (score w) (lastZombieSpawnTime w) (keys w) (mouse w)
    (joystickState w) (activeJoystickTouchId w) (display w) (clockReads w)
    (randomDraws w).

(** What [getBoundingClientRect()] returns, as far as the script reads
    it. *)
Module Rect.
Record t := mk {
  left : Q;
  top : Q;
  width : Q;
  height : Q
}.
End Rect.

(** ** The simulation *)

Section Simulation.
Context {host : Host}.

(** [Date.now()] *)
Definition readClock (w : World) : Z * World :=
  (Date_now (clockReads w), set_clockReads (S (clockReads w)) w).

(** [Math.random()] *)
Definition drawRandom (w : World) : Q * World :=
  (Math_random (randomDraws w), set_randomDraws (S (randomDraws w)) w).

(** [requestAnimationFrame(gameLoop)] *)
Definition requestAnimationFrame (w : World) : nat * World :=
  (nextFrameHandle w,
   set_scheduler (gameLoopId w) (pendingFrames w ++ [nextFrameHandle w])
     (S (nextFrameHandle w)) w).

(** [cancelAnimationFrame(id)]; an [undefined] handle cancels nothing. *)
Definition cancelAnimationFrame (id : option nat) (w : World) : World :=
  match id with
  | Some h =>
      set_scheduler (gameLoopId w) (remove Nat.eq_dec h (pendingFrames w))
        (nextFrameHandle w) w
  | None => w
  end.

(** *** Utility functions *)

Definition dist (x1 y1 x2 y2 : Q) : Q :=
  Math_sqrt (Qpower (x2 - x1) 2 + Qpower (y2 - y1) 2).

Definition updateStatsDisplay (w : World) : World :=
  let p := player w in
  let shown := Z.max 0 (Player.health p) in
  let accent :=
    if (Player.health p <=? 30)%Z then "#e94560"%string
    else "#00ffff"%string in
  let statuses : list (string * Z) := [] in
  let '(now, w) := readClock w in
  let statuses :=
    if (Player.tripleShotEndTime p >? now)%Z
    then statuses ++
         [("Triple Shot"%string,
           Z.max 0 ((Player.tripleShotEndTime p - now) / 1000)%Z)]
    else statuses in
  let statuses :=
    if (Player.damageBoostEndTime p >? now)%Z
    then statuses ++
         [("Damage Boost"%string,
           Z.max 0 ((Player.damageBoostEndTime p - now) / 1000)%Z)]
    else statuses in
  set_display
    (Display.mk (score w) shown shown accent statuses
       (Display.messagesVisible (display w))
       (Display.messageScore (display w)))
    w.

(** *** Constructors *)

Definition Player_new (x y size : Q) : Player.t :=
  Player.mk x y size MAX_HEALTH "#00ffff" 0 0 0 200 200 1.

Definition Bullet_new (x y size angle : Q) : Bullet.t :=
  Bullet.mk x y size (Math_cos angle * BULLET_SPEED)
    (Math_sin angle * BULLET_SPEED) "yellow".

Definition Zombie_new (x y size : Q) : Zombie.t :=
  Zombie.mk x y size "#e94560" 30 30 0 1000.

Definition Item_new (x y size : Q) (type : string) (w : World)
    : Item.t * World :=
  let '(now, w) := readClock w in
  (Item.mk x y size type now, w).

(** *** Session control *)

(** Whether a frame handle passes the test [if (gameLoopId)]: it is
    neither [undefined] nor zero. *)
Definition truthy (id : option nat) : bool :=
  match id with
  | Some (S _) => true
  | Some O => false
  | None => false
  end.

Definition gameOver (w : World) : World :=
  let w := set_isGameOver true w in
  let w := cancelAnimationFrame (gameLoopId w) w in
  let d := display w in
  set_display
    (Display.mk (Display.scoreText d) (Display.healthValueText d)
       (Display.healthBarValue d) (Display.healthBarAccent d)
       (Display.weaponStatus d) true (score w))
    w.

(** *** Player *)

Definition Player__createBullet (angle : Q) (w : World) : World :=
  let p := player w in
  let bullet :=
    Bullet_new
      (Player.x p + Math_cos angle * (Player.size p / 2 + 5))
      (Player.y p + Math_sin angle * (Player.size p / 2 + 5))
      BULLET_SIZE
      angle in
  set_bullets (bullets w ++ [bullet]) w.

Definition Player_shoot (w : World) : World :=
  let '(now, w) := readClock w in
  let p := player w in
  if (now - Player.lastShotTime p >? Player.currentShotDelay p)%Z then
    let angle :=
      Math_atan2 (Mouse.y (mouse w) - Player.y p)
                 (Mouse.x (mouse w) - Player.x p) in
    let tripleActive := (Player.tripleShotEndTime p >? now)%Z in
    let w :=
      if negb tripleActive then Player__createBullet angle w
      else
        let spread := 0.35 in
        let w := Player__createBullet (angle - spread) w in
        let w := Player__createBullet angle w in
        Player__createBullet (angle + spread) w in
    set_player (Player.set_lastShotTime now (player w)) w
  else w.

Definition Player_update (w : World) : World :=
  let p := player w in
  let k := keys w in
  let dx := 0 in
  let dy := 0 in
  let dy := if Keys.w k || Keys.up k then dy - PLAYER_SPEED else dy in
  let dy := if Keys.s k || Keys.down k then dy + PLAYER_SPEED else dy in
  let dx := if Keys.a k || Keys.left k then dx - PLAYER_SPEED else dx in
  let dx := if Keys.d k || Keys.right k then dx + PLAYER_SPEED else dx in
  let j := joystickState w in
  let '(dx, dy) :=
    if Joystick.active j
    then (dx + Joystick.dx j * PLAYER_SPEED, dy + Joystick.dy j * PLAYER_SPEED)
    else (dx, dy) in
  let '(dx, dy) :=
    if negb (Qeq_bool dx 0) && negb (Qeq_bool dy 0) then
      let magnitude := Math_sqrt (dx * dx + dy * dy) in
      ((dx / magnitude) * PLAYER_SPEED, (dy / magnitude) * PLAYER_SPEED)
    else (dx, dy) in
  let x := Player.x p + dx in
  let y := Player.y p + dy in
  let x := Qmax (Player.size p / 2) (Qmin (canvas_width w - Player.size p / 2) x) in
  let y := Qmax (Player.size p / 2) (Qmin (canvas_height w - Player.size p / 2) y) in
  let p := Player.set_pos x y p in
  let '(now, w) := readClock w in
  let tripleActive := (Player.tripleShotEndTime p >? now)%Z in
  let damageBoostActive := (Player.damageBoostEndTime p >? now)%Z in
  let p :=
    Player.set_currentShotDelay
      (if tripleActive then 300%Z else Player.defaultShotDelay p) p in
  let p :=
    Player.set_bulletDamageMultiplier
      (if damageBoostActive then DAMAGE_BOOST_MULTIPLIER else 1) p in
  let w := set_player p w in
  let w := if Mouse.isFiring (mouse w) then Player_shoot w else w in
  updateStatsDisplay w.

Definition Player_applyUpgrade (type : string) (w : World) : World :=
  if String.eqb type "health_pack" then
    let healthRestored := 30%Z in
    let p := player w in
    set_player
      (Player.set_health (Z.min MAX_HEALTH (Player.health p + healthRestored)) p)
      w
  else if String.eqb type "triple_shot" then
    let '(now, w) := readClock w in
    let p := Player.set_tripleShotEndTime (now + UPGRADE_DURATION)%Z (player w) in
    set_player (Player.set_currentShotDelay 300%Z p) w
  else if String.eqb type "damage_boost" then
    let '(now, w) := readClock w in
    set_player
      (Player.set_damageBoostEndTime (now + UPGRADE_DURATION)%Z (player w)) w
  else w.

(** *** Bullet *)

Definition Bullet_update (b : Bullet.t) : Bullet.t :=
  Bullet.mk (Bullet.x b + Bullet.vx b) (Bullet.y b + Bullet.vy b)
    (Bullet.size b) (Bullet.vx b) (Bullet.vy b) (Bullet.color b).

Definition Bullet_isOffScreen (b : Bullet.t) (w : World) : bool :=
  Qltb (Bullet.x b) 0 || Qltb (canvas_width w) (Bullet.x b)
  || Qltb (Bullet.y b) 0 || Qltb (canvas_height w) (Bullet.y b).

(** *** Zombie *)

Definition Zombie_attackPlayer (z : Zombie.t) (w : World)
    : Zombie.t * World :=
  let '(now, w) := readClock w in
  if (now - Zombie.lastAttackTime z >? Zombie.ATTACK_DELAY z)%Z then
    let p := player w in
    let w := set_player (Player.set_health (Player.health p - ZOMBIE_DAMAGE) p) w in
    let z := Zombie.set_lastAttackTime now z in
    if (Player.health (player w) <=? 0)%Z then (z, gameOver w) else (z, w)
  else (z, w).

Definition Zombie_update (z : Zombie.t) (w : World) : Zombie.t * World :=
  let p := player w in
  let angle :=
    Math_atan2 (Player.y p - Zombie.y z) (Player.x p - Zombie.x z) in
  let z :=
    Zombie.set_pos (Zombie.x z + Math_cos angle * ZOMBIE_SPEED)
                   (Zombie.y z + Math_sin angle * ZOMBIE_SPEED) z in
  if Qltb (dist (Zombie.x z) (Zombie.y z) (Player.x p) (Player.y p))
          (Zombie.size z / 2 + Player.size p / 2)
  then Zombie_attackPlayer z w
  else (z, w).

(** *** Game logic *)

Definition spawnZombie (w : World) : World :=
  let '(r, w) := drawRandom w in
  let side := Qfloor (r * 4) in
  let '(r', w) := drawRandom w in
  let '(x, y) :=
    if (side =? 0)%Z then (r' * canvas_width w, - ZOMBIE_SIZE)
    else if (side =? 1)%Z then (canvas_width w + ZOMBIE_SIZE, r' * canvas_height w)
    else if (side =? 2)%Z then (r' * canvas_width w, canvas_height w + ZOMBIE_SIZE)
    else (- ZOMBIE_SIZE, r' * canvas_height w) in
  set_zombies (zombies w ++ [Zombie_new x y ZOMBIE_SIZE]) w.

(** The interval between two spawns at a given score. *)
Definition currentSpawnInterval (score : Z) : Z :=
  let spawnRateReduction := Z.min (score * 8) 1000 in
  (ZOMBIE_SPAWN_INTERVAL - spawnRateReduction)%Z.

(** 1. Spawning logic. *)
Definition spawnPhase (w : World) : World :=
  let '(now, w) := readClock w in
  if (now - lastZombieSpawnTime w >? currentSpawnInterval (score w))%Z then
    let w := spawnZombie w in
    set_lastZombieSpawnTime now w
  else w.

(** [zombies.forEach(zombie => zombie.update())] *)
Fixpoint zombies_forEach (zs : list Zombie.t) (w : World)
    : list Zombie.t * World :=
  match zs with
  | [] => ([], w)
  | z :: rest =>
      let '(z', w) := Zombie_update z w in
      let '(rest', w) := zombies_forEach rest w in
      (z' :: rest', w)
  end.

(** 2. Update entities. *)
Definition updateEntities (w : World) : World :=
  let w := Player_update w in
  let w := set_bullets (map Bullet_update (bullets w)) w in
  let '(zs, w) := zombies_forEach (zombies w) w in
  set_zombies zs w.

(** Whether the player touches an item. *)
Definition playerTouches (p : Player.t) (item : Item.t) : bool :=
  Qltb (dist (Player.x p) (Player.y p) (Item.x item) (Item.y item))
       (Player.size p / 2 + Item.size item / 2).

(** The callback of [items.filter]: whether the item is kept. *)
Definition itemCallback (item : Item.t) (w : World) : bool * World :=
  let '(now, w) := readClock w in
  if (now - Item.creationTime item >? ITEM_LIFETIME)%Z then (false, w)
  else if playerTouches (player w) item then
    (false, Player_applyUpgrade (Item.type item) w)
  else (true, w).

Fixpoint items_filter (its : list Item.t) (w : World)
    : list Item.t * World :=
  match its with
  | [] => ([], w)
  | item :: rest =>
      let '(keep, w) := itemCallback item w in
      let '(rest', w) := items_filter rest w in
      (if keep then item :: rest' else rest', w)
  end.

(** 3. Item expiry and player vs item collision detection. *)
Definition itemPhase (w : World) : World :=
  let '(its, w) := items_filter (items w) w in
  set_items its w.

Definition itemTypes : list string :=
  ["triple_shot"; "health_pack"; "damage_boost"]%string.

(** Whether a bullet touches a zombie. *)
Definition bulletTouches (bullet : Bullet.t) (zombie : Zombie.t) : bool :=
  Qltb (dist (Bullet.x bullet) (Bullet.y bullet)
             (Zombie.x zombie) (Zombie.y zombie))
       (Bullet.size bullet / 2 + Zombie.size zombie / 2).

(** The item drop on a zombie's death.  [Math.random()] is below one, so
    the index into [itemTypes] is in range; the default of [nth] stands
    for [undefined] and is never taken. *)
Definition dropItem (zombie : Zombie.t) (w : World) : World :=
  let '(r, w) := drawRandom w in
  if Qltb r UPGRADE_CHANCE then
    let '(r', w) := drawRandom w in
    let randomType :=
      nth (Z.to_nat (Qfloor (r' * inject_Z (Z.of_nat (List.length itemTypes)))))
          itemTypes "undefined"%string in
    let '(newItem, w) :=
      Item_new (Zombie.x zombie) (Zombie.y zombie) ITEM_SIZE randomType w in
    set_items (items w ++ [newItem]) w
  else w.

(** The callback of the inner [zombies.filter], for one bullet: the zombie
    if it is kept, the flag [hit] and the world. *)
Definition zombieCallback (bullet : Bullet.t) (zombie : Zombie.t)
    (hit : bool) (w : World) : option Zombie.t * bool * World :=
  if bulletTouches bullet zombie then
    let damage := 10 * Player.bulletDamageMultiplier (player w) in
    let zombie := Zombie.set_health (Zombie.health zombie - damage) zombie in
    if Qle_bool (Zombie.health zombie) 0 then
      let w := set_score (score w + 10)%Z w in
      let w := dropItem zombie w in
      (None, hit, w)
    else (Some zombie, true, w)
  else (Some zombie, hit, w).

Fixpoint zombies_filter (bullet : Bullet.t) (zs : list Zombie.t)
    (hit : bool) (w : World) : list Zombie.t * bool * World :=
  match zs with
  | [] => ([], hit, w)
  | zombie :: rest =>
      let '(kept, hit, w) := zombieCallback bullet zombie hit w in
      let '(rest', hit, w) := zombies_filter bullet rest hit w in
      (match kept with Some z => z :: rest' | None => rest' end, hit, w)
  end.

(** The callback of [bullets.filter]: whether the bullet is kept. *)
Definition bulletCallback (bullet : Bullet.t) (w : World) : bool * World :=
  let hit := false in
  let '(zs, hit, w) := zombies_filter bullet (zombies w) hit w in
  let w := set_zombies zs w in
  (negb hit && negb (Bullet_isOffScreen bullet w), w).

Fixpoint bullets_filter (bs : list Bullet.t) (w : World)
    : list Bullet.t * World :=
  match bs with
  | [] => ([], w)
  | bullet :: rest =>
      let '(keep, w) := bulletCallback bullet w in
      let '(rest', w) := bullets_filter rest w in
      (if keep then bullet :: rest' else rest', w)
  end.

(** 4. Collision detection (bullet vs zombie). *)
Definition collisionPhase (w : World) : World :=
  let '(bs, w) := bullets_filter (bullets w) w in
  set_bullets bs w.

(** 5. Check game over. *)
Definition checkGameOver (w : World) : World :=
  if (Player.health (player w) <=? 0)%Z then gameOver w else w.

Definition updateGame (w : World) : World :=
  if isGameOver w then w
  else
    checkGameOver (collisionPhase (itemPhase (updateEntities (spawnPhase w)))).

Definition resetJoystick (w : World) : World :=
  let j := joystickState w in
  set_joystick
    (Joystick.mk false (Joystick.startX j) (Joystick.startY j) 0 0) None w.

Definition initGame (w : World) : World :=
  let w := set_keys (Keys.mk false false false false false false false false) w in
  let w := set_mouse (Mouse.mk 0 0 false) w in
  let w := resetJoystick w in
  let w := set_isGameOver false w in
  let w :=
    set_player
      (Player_new (canvas_width w / 2) (canvas_height w / 2) PLAYER_SIZE) w in
  let w := set_bullets [] w in
  let w := set_zombies [] w in
  let w := set_items [] w in
  let w := set_score 0%Z w in
  let w := set_lastZombieSpawnTime 0%Z w in
  let d := display w in
  let w :=
    set_display
      (Display.mk (Display.scoreText d) (Display.healthValueText d)
         (Display.healthBarValue d) (Display.healthBarAccent d)
         (Display.weaponStatus d) false (Display.messageScore d))
      w in
  let w := updateStatsDisplay w in
  let w :=
    if truthy (gameLoopId w) then cancelAnimationFrame (gameLoopId w) w
    else w in
  let '(id, w) := requestAnimationFrame w in
  set_scheduler (Some id) (pendingFrames w) (nextFrameHandle w) w.

(** *** The frame loop *)

(** [Item.draw], as far as the state decides it: whether the item is
    painted in this frame.  Within [WARNING_TIME] of its expiry an item
    flickers, hidden while the tenth of a second is even. *)
Definition Item_draw (item : Item.t) (w : World) : bool * World :=
  let '(now, w) := readClock w in
  let elapsedTime := (now - Item.creationTime item)%Z in
  let remainingTime := (ITEM_LIFETIME - elapsedTime)%Z in
  let showItem := true in
  let showItem :=
    if (remainingTime <? WARNING_TIME)%Z then
      if (Z.rem (now / 100) 2 =? 0)%Z then false else true
    else showItem in
  (showItem, w).

(** [Zombie.draw], as far as the state decides it: the widths of the
    background and of the foreground of the health bar. *)
Definition Zombie_healthBar (zombie : Zombie.t) : Q * Q :=
  let healthBarWidth := Zombie.size zombie in
  let currentHealthRatio :=
    Zombie.health zombie / Zombie.initialHealth zombie in
  (healthBarWidth, healthBarWidth * currentHealthRatio).

(** [items.forEach(item => item.draw())]: the items painted. *)
Fixpoint items_draw (its : list Item.t) (w : World) : list Item.t * World :=
  match its with
  | [] => ([], w)
  | item :: rest =>
      let '(shown, w) := Item_draw item w in
      let '(rest', w) := items_draw rest w in
      (if shown then item :: rest' else rest', w)
  end.

(** What one drawing call puts on the canvas. *)
Inductive Paint :=
| PaintBackground (width height : Q)
| PaintPlayer (p : Player.t) (aimX aimY : Q)
| PaintBullet (b : Bullet.t)
| PaintZombie (z : Zombie.t) (healthBar : Q * Q)
| PaintItem (item : Item.t).

(** [Player.draw]: the body, and the aiming line from the centre to
    [(aimX, aimY)]. *)
Definition Player_draw (w : World) : Paint :=
  let p := player w in
  let angle :=
    Math_atan2 (Mouse.y (mouse w) - Player.y p) (Mouse.x (mouse w) - Player.x p) in
  PaintPlayer p
    (Player.x p + Math_cos angle * (Player.size p / 2 + 10))
    (Player.y p + Math_sin angle * (Player.size p / 2 + 10)).

(** [Zombie.draw]: the body and the health bar. *)
Definition Zombie_draw (zombie : Zombie.t) : Paint :=
  PaintZombie zombie (Zombie_healthBar zombie).

(** [drawGame]: what is painted, in the order of the painting, the last
    on top. *)
Definition drawGame (w : World) : list Paint * World :=
  let frame := [PaintBackground (canvas_width w) (canvas_height w)] in
  let frame := frame ++ [Player_draw w] in
  let frame := frame ++ map PaintBullet (bullets w) in
  let frame := frame ++ map Zombie_draw (zombies w) in
  let '(shown, w) := items_draw (items w) w in
  let frame := frame ++ map PaintItem shown in
  let frame := frame ++ [Player_draw w] in
  (frame, w).

Definition gameLoop (w : World) : World :=
  let w := updateGame w in
  let '(_, w) := drawGame w in
  if negb (isGameOver w) then
    let '(id, w) := requestAnimationFrame w in
    set_scheduler (Some id) (pendingFrames w) (nextFrameHandle w) w
  else w.

(** *** Pointer and canvas *)

(** [getMousePos(e)], for the rectangle the canvas occupies on the page
    and the client coordinates of the event.  For a rectangle of width or
    height zero the script divides by zero and stores an infinity or a
    [NaN]; the rationals have neither, and the result is [None]. *)
Definition getMousePos (rect : Rect.t) (clientX clientY : Q) (w : World)
    : option World :=
  if Qeq_bool (Rect.width rect) 0 || Qeq_bool (Rect.height rect) 0 then None
  else
    let scaleX := canvas_width w / Rect.width rect in
    let scaleY := canvas_height w / Rect.height rect in
    Some
      (set_mouse
         (Mouse.mk ((clientX - Rect.left rect) * scaleX)
                   ((clientY - Rect.top rect) * scaleY)
                   (Mouse.isFiring (mouse w)))
         w).

(** Conversion of a number to an [unsigned long] of the DOM: truncated
    towards zero and taken modulo 2^32. *)
Definition toUnsignedLong (v : Q) : Z :=
  (Z.quot (Qnum v) (Z.pos (Qden v)) mod 2 ^ 32)%Z.

(** What is read back from [canvas.width] or [canvas.height] after the
    assignment of a number: the attributes are [unsigned long], and a
    value above 2^31 - 1 gives way to the default of the attribute. *)
Definition canvasDimension (default : Z) (v : Q) : Q :=
  let n := toUnsignedLong v in
  inject_Z (if (n <=? 2147483647)%Z then n else default).

(** [resizeCanvas()], for the inner width of the window, which is an
    integer, and the rectangle the canvas occupies after the resize.  The
    player exists: the branch [if (player)] is the one taken once
    [initGame] has run. *)
Definition resizeCanvas (innerWidth : Z) (rect : Rect.t) (w : World)
    : option World :=
  let size := Qmin (inject_Z innerWidth * 0.9) 800 in
  let w := set_canvas (canvasDimension 300 size) (canvas_height w) w in
  let w := set_canvas (canvas_width w) (canvasDimension 150 size) w in
  let w :=
    set_player
      (Player.set_pos (canvas_width w / 2) (canvas_height w / 2) (player w))
      w in
  getMousePos rect (canvas_width w / 2) (canvas_height w / 2) w.

Definition joystickRadius : Q := 50.

Definition updateJoystick (currentX currentY : Q) (w : World) : World :=
  let j := joystickState w in
  let dxRaw := currentX - Joystick.startX j in
  let dyRaw := currentY - Joystick.startY j in
  let distance := Qmin (dist 0 0 dxRaw dyRaw) joystickRadius in
  let angle := Math_atan2 dyRaw dxRaw in
  set_joystick
    (Joystick.mk (Joystick.active j) (Joystick.startX j) (Joystick.startY j)
       (distance / joystickRadius * Math_cos angle)
       (distance / joystickRadius * Math_sin angle))
    (activeJoystickTouchId w) w.

(** *** Vocabulary of the statements *)

(** A zombie's update touches the player's health only, and only
    downwards; what the page shows of the health is not rewritten, and the
    items are left alone. *)
Definition zombie_step (w w' : World) : Prop :=
  player w' = Player.set_health (Player.health (player w')) (player w)
  /\ (Player.health (player w') <= Player.health (player w))%Z
  /\ Display.healthValueText (display w')
     = Display.healthValueText (display w)
  /\ items w' = items w
  /\ (clockReads w <= clockReads w')%nat.

(** The item phase: the player stays where it is, keeps its damage
    multiplier, and its health stays at or below the maximum; the page is
    not rewritten. *)
Definition item_step (w w' : World) : Prop :=
  Player.x (player w') = Player.x (player w)
  /\ Player.y (player w') = Player.y (player w)
  /\ Player.size (player w') = Player.size (player w)
  /\ Player.bulletDamageMultiplier (player w')
     = Player.bulletDamageMultiplier (player w)
  /\ ((Player.health (player w) <= MAX_HEALTH)%Z ->
      (Player.health (player w') <= MAX_HEALTH)%Z)
  /\ display w' = display w
  /\ (clockReads w <= clockReads w')%nat.

(** A zombie after one bullet hit at damage multiplier [m]. *)
Definition damaged (m : Q) (zombie : Zombie.t) : Zombie.t :=
  Zombie.set_health (Zombie.health zombie - 10 * m) zombie.

(** The bullet touches the zombie and the hit kills it. *)
Definition killedBy (m : Q) (bullet : Bullet.t) (zombie : Zombie.t) : bool :=
  bulletTouches bullet zombie
  && Qle_bool (Zombie.health (damaged m zombie)) 0.

(** The bullet touches the zombie and the zombie survives the hit. *)
Definition woundedBy (m : Q) (bullet : Bullet.t) (zombie : Zombie.t) : bool :=
  bulletTouches bullet zombie
  && negb (Qle_bool (Zombie.health (damaged m zombie)) 0).

(** The zombie collection after one bullet has been tested against all of
    it: every zombie the bullet touches is damaged, and removed when its
    health is then at most zero. *)
Definition afterBullet (m : Q) (bullet : Bullet.t) (zs : list Zombie.t)
    : list Zombie.t :=
  flat_map
    (fun zombie =>
       if bulletTouches bullet zombie then
         if Qle_bool (Zombie.health (damaged m zombie)) 0 then []
         else [damaged m zombie]
       else [zombie])
    zs.

(** The zombie collection after the bullets [bs] have been tested against
    it one after the other. *)
Definition afterBullets (m : Q) (bs : list Bullet.t) (zs : list Zombie.t)
    : list Zombie.t :=
  fold_left (fun zs bullet => afterBullet m bullet zs) bs zs.

(** The bullets left of [bs] by the collision phase, for the zombies [zs]
    they meet: a bullet goes when it wounds a zombie of the collection as
    the bullets before it have left it, or when it is off-screen. *)
Fixpoint keptBullets (m : Q) (off : Bullet.t -> bool) (bs : list Bullet.t)
    (zs : list Zombie.t) : list Bullet.t :=
  match bs with
  | [] => []
  | bullet :: rest =>
      (if negb (existsb (woundedBy m bullet) zs) && negb (off bullet)
       then [bullet] else [])
      ++ keptBullets m off rest (afterBullet m bullet zs)
  end.

(** The zombie collection after one bullet under the reading "the bullet
    damages the first zombie it touches and no further one".  This follows
    the words of the design document, not the code; it is here to be
    compared with [afterBullet]. *)
Fixpoint afterBullet_firstHitOnly (m : Q) (bullet : Bullet.t)
    (zs : list Zombie.t) : list Zombie.t :=
  match zs with
  | [] => []
  | zombie :: rest =>
      if bulletTouches bullet zombie then
        if Qle_bool (Zombie.health (damaged m zombie)) 0 then rest
        else damaged m zombie :: rest
      else zombie :: afterBullet_firstHitOnly m bullet rest
  end.

(** An item outlives the item phase of a tick that runs at time [now]: it
    has not expired and the player does not touch it. *)
Definition itemSurvives (now : Z) (p : Player.t) (item : Item.t) : bool :=
  negb (now - Item.creationTime item >? ITEM_LIFETIME)%Z
  && negb (playerTouches p item).

(** The bullet [Player._createBullet] makes for a heading. *)
Definition bulletAlong (p : Player.t) (angle : Q) : Bullet.t :=
  Bullet_new (Player.x p + Math_cos angle * (Player.size p / 2 + 5))
             (Player.y p + Math_sin angle * (Player.size p / 2 + 5))
             BULLET_SIZE angle.

(** The bullet touches no zombie of the collection. *)
Definition touchesNone (bullet : Bullet.t) (zs : list Zombie.t) : Prop :=
  Forall (fun zombie => bulletTouches bullet zombie = false) zs.

(** The second world has the items of the first followed by newly dropped
    ones, each stamped with a clock read made in between. *)
Definition drops_step (w w' : World) : Prop :=
  (clockReads w <= clockReads w')%nat
  /\ exists drops,
       items w' = items w ++ drops
       /\ Forall
            (fun item =>
               exists n, (clockReads w <= n)%nat
                         /\ Item.creationTime item = Date_now n)
            drops.

(** Two worlds that differ at most in the items, the score and the
    counters of host calls. *)
Definition collision_frame (w w' : World) : Prop :=
  set_items [] (set_score 0%Z (set_clockReads 0 (set_randomDraws 0 w')))
  = set_items [] (set_score 0%Z (set_clockReads 0 (set_randomDraws 0 w))).

(** A world with everything a zombie's attack may write set to a fixed
    value: the player's health, the game-over flag, the pending frames,
    the game-over message and the count of clock reads. *)
Definition erase_attack (w : World) : World :=
  let d := display w in
  set_player (Player.set_health 0 (player w))
    (set_clockReads 0
       (set_isGameOver false
          (set_scheduler (gameLoopId w) [] (nextFrameHandle w)
             (set_display
                (Display.mk (Display.scoreText d) (Display.healthValueText d)
                   (Display.healthBarValue d) (Display.healthBarAccent d)
                   (Display.weaponStatus d) false 0)
                w)))).

(** Two worlds that differ at most in what a zombie's attack may write. *)
Definition attack_frame (w w' : World) : Prop :=
  erase_attack w' = erase_attack w.

(** A world with everything a collected item may write set to a fixed
    value: the player's health, both end-timestamps and the shot delay,
    and the count of clock reads. *)
Definition erase_pickup (w : World) : World :=
  let p := player w in
  set_player
    (Player.mk (Player.x p) (Player.y p) (Player.size p) 0 (Player.color p)
       (Player.lastShotTime p) 0 0 0 (Player.defaultShotDelay p)
       (Player.bulletDamageMultiplier p))
    (set_clockReads 0 w).

(** Two worlds that differ at most in what a collected item may write. *)
Definition pickup_frame (w w' : World) : Prop :=
  erase_pickup w' = erase_pickup w.

(** A world with everything [Player.update] may write set to a fixed
    value: the player but for its health and end-timestamps, the bullets,
    the page but for the game-over message, and the count of clock
    reads. *)
Definition erase_move (w : World) : World :=
  let p := player w in
  let d := display w in
  set_player
    (Player.mk 0 0 (Player.size p) (Player.health p) (Player.color p) 0
       (Player.tripleShotEndTime p) (Player.damageBoostEndTime p) 0
       (Player.defaultShotDelay p) 0)
    (set_bullets []
       (set_clockReads 0
          (set_display
             (Display.mk 0 0 0 "" [] (Display.messagesVisible d)
                (Display.messageScore d))
             w))).

(** Two worlds that differ at most in what [Player.update] may write. *)
Definition move_frame (w w' : World) : Prop :=
  erase_move w' = erase_move w.

(** The player lies within the canvas, half its size away from every
    edge. *)
Definition inArena (w : World) (p : Player.t) : Prop :=
  Player.size p / 2 <= Player.x p
  /\ Player.x p <= canvas_width w - Player.size p / 2
  /\ Player.size p / 2 <= Player.y p
  /\ Player.y p <= canvas_height w - Player.size p / 2.


(** What no tick writes: the canvas size, the handle of the frame
    requested last and of the one to come, and the input state. *)
Definition fixtures (w : World) :=
  (canvas_width w, canvas_height w, gameLoopId w, nextFrameHandle w,
   keys w, mouse w, joystickState w, activeJoystickTouchId w).


(** A zombie as the collection holds it: alive, with no more health than
    it was created with, which is 30, and of positive size. *)
Definition zombieSound (zombie : Zombie.t) : Prop :=
  0 < Zombie.health zombie
  /\ Zombie.health zombie <= Zombie.initialHealth zombie
  /\ Zombie.initialHealth zombie = 30
  /\ 0 < Zombie.size zombie.

(** The game is over exactly when the health is spent. *)
Definition overIffDead (w : World) : Prop :=
  isGameOver w = true <-> (Player.health (player w) <= 0)%Z.


(** An item as a dying zombie drops it: of one of the three types and of
    the size of items. *)
Definition knownItem (item : Item.t) : Prop :=
  In (Item.type item) itemTypes /\ Item.size item = ITEM_SIZE.

(** The second world has the items of the first followed by newly dropped
    ones, each of a known type. *)
Definition known_drops (w w' : World) : Prop :=
  exists drops, items w' = items w ++ drops /\ Forall knownItem drops.


(** At most one frame is pending, and it is the one [gameLoopId]
    records. *)
Definition oneLoop (w : World) : Prop :=
  pendingFrames w = []
  \/ exists h, pendingFrames w = [h] /\ gameLoopId w = Some h.

(** The handles the host gives out are positive, as those of
    [requestAnimationFrame] are: none that is pending is zero, and the
    next one is not. *)
Definition positiveHandles (w : World) : Prop :=
  ~ In 0%nat (pendingFrames w) /\ (0 < nextFrameHandle w)%nat.


(** The movement that [Player.update] reads off the keys and the joystick,
    before it is normalised. *)
Definition Player_input (w : World) : Q * Q :=
  let k := keys w in
  let dx := 0 in
  let dy := 0 in
  let dy := if Keys.w k || Keys.up k then dy - PLAYER_SPEED else dy in
  let dy := if Keys.s k || Keys.down k then dy + PLAYER_SPEED else dy in
  let dx := if Keys.a k || Keys.left k then dx - PLAYER_SPEED else dx in
  let dx := if Keys.d k || Keys.right k then dx + PLAYER_SPEED else dx in
  let j := joystickState w in
  if Joystick.active j
  then (dx + Joystick.dx j * PLAYER_SPEED, dy + Joystick.dy j * PLAYER_SPEED)
  else (dx, dy).

(** The step [Player.update] makes of a movement: rescaled to the length
    [PLAYER_SPEED] when both components are non-zero, taken as it is
    otherwise. *)
Definition Player_step (input : Q * Q) : Q * Q :=
  let '(dx, dy) := input in
  if negb (Qeq_bool dx 0) && negb (Qeq_bool dy 0) then
    let magnitude := Math_sqrt (dx * dx + dy * dy) in
    ((dx / magnitude) * PLAYER_SPEED, (dy / magnitude) * PLAYER_SPEED)
  else (dx, dy).

(** A coordinate kept between two bounds, as [Player.update] does it. *)
Definition clamp (lo hi v : Q) : Q := Qmax lo (Qmin hi v).

(** Whether [Item.draw] paints an item when the clock reads [now]. *)
Definition paintedAt (now : Z) (item : Item.t) : bool :=
  if (ITEM_LIFETIME - (now - Item.creationTime item) <? WARNING_TIME)%Z
  then negb (Z.rem (now / 100) 2 =? 0)%Z
  else true.

End Simulation.

(** ** A sample host and sample worlds

    The examples below run the simulation on a host whose [Math] functions
    are exact at some points: the square root of a perfect square, [atan2]
    at the origin and on the positive x axis, and the cosine and sine of
    zero.  Elsewhere they are coarse rational approximations, which is
    what a whole tick runs on when a zombie walks at another angle; every
    theorem holds for every host.  The clock of the host is a parameter,
    and [Math.random()] always returns [0.75], so that a dying zombie
    drops nothing. *)

Definition sample_sqrt (q : Q) : Q :=
  let r := Qred q in
  Z.sqrt (Qnum r) # Pos.sqrt (Qden r).

Definition sample_cos (q : Q) : Q :=
  if Qeq_bool q 0 then 1 else 1 - q * q / 2.

Definition sample_sin (q : Q) : Q :=
  if Qeq_bool q 0 then 0 else q - q * q * q / 6.

Definition sample_atan2 (dy dx : Q) : Q :=
  if Qeq_bool dy 0 then (if Qle_bool 0 dx then 0 else 355 # 113)
  else if Qle_bool 0 dy then 355 # 226 else - (355 # 226).

Lemma sample_random_range : forall n : nat, 0 <= 0.75 /\ 0.75 < 1.
Proof. intros _. split; reflexivity || discriminate. Qed.

Definition sampleHost (clock : nat -> Z) : Host :=
  {| Math_sqrt := sample_sqrt;
     Math_cos := sample_cos;
     Math_sin := sample_sin;
     Math_atan2 := sample_atan2;
     Math_random := fun _ => 0.75;
     Date_now := clock;
     Math_random_range := sample_random_range |}.

(** A moment of November 2023, in milliseconds since the epoch. *)
Definition t0 : Z := 1700000000000.

(** A running session on an 800 by 800 canvas with the given player and
    collections, whose last zombie was spawned at time [last]. *)
Definition sampleWorld (last : Z) (p : Player.t) (bs : list Bullet.t)
    (zs : list Zombie.t) (its : list Item.t) : World :=
  mkWorld 800 800 (Some 1%nat) [1%nat] 2%nat false p bs zs its 0 last
    (Keys.mk false false false false false false false false)
    (Mouse.mk 400 400 false)
    (Joystick.mk false 0 0 0 0) None
    (Display.mk 0 100 100 "#00ffff" [] false 0)
    0 0.

(** The player as [initGame] creates it on that canvas, with a given
    health. *)
Definition samplePlayer (health : Z) : Player.t :=
  Player.mk 400 400 20 health "#00ffff" 0 0 0 200 200 1.

(** A bullet at rest at a given place (the collision phase does not move
    bullets). *)
Definition sampleBullet (x y : Q) : Bullet.t :=
  Bullet.mk x y 5 0 0 "yellow".

(** A zombie as [spawnZombie] creates it, at a given place. *)
Definition sampleZombie (x y : Q) : Zombie.t :=
  Zombie.mk x y 25 "#e94560" 30 30 0 1000.

(** A host whose clock stands at [now] for the whole tick. *)
Definition hostAt (now : Z) : Host := sampleHost (fun _ => now).

(** A host whose clock advances by a millisecond at every read, from
    [now] on. *)
Definition hostFrom (now : Z) : Host :=
  sampleHost (fun n => (now + Z.of_nat n)%Z).

(** The host of most examples: 1200 ms after the last spawn, so that no
    zombie is due. *)
Definition quietHost : Host := hostAt (t0 + 1200).

(** One bullet within reach of two zombies, at distances 5 and 10. *)
Definition crossfireWorld : World :=
  sampleWorld t0 (samplePlayer 100) [sampleBullet 100 100]
    [sampleZombie 103 104; sampleZombie 100 110] [].

(** One bullet within reach of a zombie that has 10 health left. *)
Definition lastHitWorld : World :=
  sampleWorld t0 (samplePlayer 100) [sampleBullet 100 100]
    [Zombie.set_health 10 (sampleZombie 103 104)] [].

(** One bullet at distance 200 from the only zombie. *)
Definition missWorld : World :=
  sampleWorld t0 (samplePlayer 100) [sampleBullet 100 100]
    [sampleZombie 100 300] [].

(** Three bullets within reach of one fresh zombie, at distances 5, 4
    and 3. *)
Definition volleyWorld : World :=
  sampleWorld t0 (samplePlayer 100)
    [sampleBullet 100 100; sampleBullet 103 100; sampleBullet 100 104]
    [sampleZombie 103 104] [].

(** A player with 10 health left and two zombies that have not attacked
    yet, on its left on the line through its centre, that reach it in the
    same tick. *)
Definition corneredWorld : World :=
  sampleWorld t0 (samplePlayer 10) []
    [sampleZombie 390 400; sampleZombie 395 400] [].

(** An item created at [t0], at distance 300 from the player. *)
Definition relic : Item.t := Item.mk 100 400 15 "health_pack" t0.

(** The world around it, 14 seconds later: the last zombie was spawned at
    [t0 + 14000] and has been shot since. *)
Definition relicWorld : World :=
  sampleWorld (t0 + 14000) (samplePlayer 100) [] [] [relic].

(** A damage boost lying under the player. *)
Definition boost : Item.t := Item.mk 400 400 15 "damage_boost" t0.

(** The boost under the player, a zombie on the player's left that walks
    towards it, and two bullets at rest on its way: the first within reach
    of the zombie at once, the second only a tick later. *)
Definition boostWorld : World :=
  sampleWorld t0 (samplePlayer 100)
    [sampleBullet 300 400; sampleBullet 317.9 400]
    [sampleZombie 300 400] [boost].

(** A player whose triple shot lasts until [t0 + 20000], aiming at its own
    centre, which [Math.atan2] takes for the angle 0. *)
Definition tripleWorld : World :=
  sampleWorld t0 (Player.set_tripleShotEndTime (t0 + 20000) (samplePlayer 100))
    [] [] [].

(** A health pack lying under the player. *)
Definition medkit : Item.t := Item.mk 400 400 15 "health_pack" t0.

(** A player with half its health left, standing on the health pack. *)
Definition woundedWorld : World :=
  sampleWorld t0 (samplePlayer 50) [] [] [medkit].

(** The joystick held down and to the right, six tenths and eight tenths
    of the way: a movement of (3, 4), of length 5. *)
Definition joystickWorld : World :=
  set_joystick (Joystick.mk true 100 700 0.6 0.8) (Some 0%Z)
    (sampleWorld t0 (samplePlayer 100) [] [] []).

(** A canvas of 800 by 800 shown at half its size, 40 pixels from the
    left and 60 from the top of the page. *)
Definition pageRect : Rect.t := Rect.mk 40 60 400 400.

(** Three bullets and one zombie: the first and the third bullet are at
    distance 500 from it, the second at distance 5. *)
Definition salvoWorld : World :=
  sampleWorld t0 (samplePlayer 100)
    [sampleBullet 403 504; sampleBullet 100 100; sampleBullet 103 604]
    [sampleZombie 103 104] [].

Lemma lucky_random_range : forall n : nat, 0 <= 0.25 /\ 0.25 < 1.
Proof. intros _. split; reflexivity || discriminate. Qed.

(** A host like [quietHost] whose [Math.random()] always returns [0.25],
    so that a dying zombie drops an item, of the first type. *)
Definition luckyHost : Host :=
  {| Math_sqrt := sample_sqrt;
     Math_cos := sample_cos;
     Math_sin := sample_sin;
     Math_atan2 := sample_atan2;
     Math_random := fun _ => 0.25;
     Date_now := fun _ => (t0 + 1200)%Z;
     Math_random_range := lucky_random_range |}.

(** One bullet within reach of a zombie that has 10 health left, and an
    item out of the player's reach. *)
Definition dropWorld : World :=
  sampleWorld t0 (samplePlayer 100) [sampleBullet 100 100]
    [Zombie.set_health 10 (sampleZombie 103 104)] [relic].


(** A bullet flying to the right. *)
Definition tracer : Bullet.t := Bullet.mk 100 100 5 10 0 "yellow".

(** The part of the world that makes up the session: everything but the
    canvas, the frame scheduler, the page and the counters of host calls. *)
Definition session (w : World) :=
  (isGameOver w, player w, bullets w, zombies w, items w, score w,
   lastZombieSpawnTime w, keys w, mouse w, joystickState w,
   activeJoystickTouchId w).

(** ** Properties *)

Section Properties.
Context {host : Host}.

(** Case analysis on every test met in the goal. *)
Ltac split_ifs :=
  repeat match goal with
    | |- context [if ?c then _ else _] => destruct c eqn:?
    end.

(** Projections of updated records, and nothing else. *)
Ltac wsimpl :=
  cbn [fst snd
       canvas_width canvas_height gameLoopId pendingFrames nextFrameHandle
       isGameOver player bullets zombies items score lastZombieSpawnTime
       keys mouse joystickState activeJoystickTouchId display clockReads
       randomDraws
       set_scheduler set_isGameOver set_player set_bullets set_zombies
       set_items set_score set_lastZombieSpawnTime set_keys set_mouse
       set_joystick set_display set_clockReads set_randomDraws
       Player.x Player.y Player.size Player.health Player.color
       Player.lastShotTime Player.tripleShotEndTime Player.damageBoostEndTime
       Player.currentShotDelay Player.defaultShotDelay
       Player.bulletDamageMultiplier
       Player.set_pos Player.set_health Player.set_lastShotTime
       Player.set_tripleShotEndTime Player.set_damageBoostEndTime
       Player.set_currentShotDelay Player.set_bulletDamageMultiplier
       Zombie.x Zombie.y Zombie.size Zombie.color Zombie.initialHealth
       Zombie.health Zombie.lastAttackTime Zombie.ATTACK_DELAY
       Zombie.set_pos Zombie.set_health Zombie.set_lastAttackTime
       Bullet.x Bullet.y Bullet.size Bullet.vx Bullet.vy Bullet.color
       Item.x Item.y Item.size Item.type Item.creationTime
       Mouse.x Mouse.y Mouse.isFiring
       Display.scoreText Display.healthValueText Display.healthBarValue
       Display.healthBarAccent Display.weaponStatus Display.messagesVisible
       Display.messageScore
       readClock drawRandom] in *.

(** *** Player.applyUpgrade *)

(** C10.  An upgrade type other than [health_pack], [triple_shot] and
    [damage_boost] is a no-op: [applyUpgrade] returns the world it was
    given, so no field of the player (health, both end-timestamps, shot
    delay, damage multiplier) nor anything else changes, and no clock is
    read.  The function is total, so there is no fault to raise. *)
Theorem applyUpgrade_unknown_type_is_noop :
  forall (type : string) (w : World),
    type <> "health_pack"%string ->
    type <> "triple_shot"%string ->
    type <> "damage_boost"%string ->
    Player_applyUpgrade type w = w.
Proof.
  intros type w Hh Ht Hd. unfold Player_applyUpgrade.
  destruct (String.eqb_spec type "health_pack"); [contradiction|].
  destruct (String.eqb_spec type "triple_shot"); [contradiction|].
  destruct (String.eqb_spec type "damage_boost"); [contradiction|].
  reflexivity.
Qed.

Lemma applyUpgrade_position :
  forall type w,
    Player.x (player (Player_applyUpgrade type w)) = Player.x (player w)
    /\ Player.y (player (Player_applyUpgrade type w)) = Player.y (player w)
    /\ Player.size (player (Player_applyUpgrade type w)) = Player.size (player w).
Proof.
  intros type w. unfold Player_applyUpgrade. split_ifs; auto.
Qed.

Lemma applyUpgrade_multiplier :
  forall type w,
    Player.bulletDamageMultiplier (player (Player_applyUpgrade type w))
    = Player.bulletDamageMultiplier (player w).
Proof.
  intros type w. unfold Player_applyUpgrade. split_ifs; reflexivity.
Qed.

Lemma applyUpgrade_health_le :
  forall type w,
    (Player.health (player w) <= MAX_HEALTH)%Z ->
    (Player.health (player (Player_applyUpgrade type w)) <= MAX_HEALTH)%Z.
Proof.
  intros type w Hle. unfold Player_applyUpgrade.
  split_ifs; wsimpl; try assumption.
  apply Z.le_min_l.
Qed.

Lemma applyUpgrade_clock_mono :
  forall type w,
    (clockReads w <= clockReads (Player_applyUpgrade type w))%nat.
Proof.
  intros type w. unfold Player_applyUpgrade. split_ifs; wsimpl; lia.
Qed.

(** *** The spawn policy *)

Lemma spawnPhase_due :
  forall w,
    (Date_now (clockReads w) - lastZombieSpawnTime w
       > currentSpawnInterval (score w))%Z ->
    spawnPhase w
    = set_lastZombieSpawnTime (Date_now (clockReads w))
        (spawnZombie (snd (readClock w))).
Proof.
  intros w Hgt. unfold spawnPhase. wsimpl.
  destruct (Z.gtb_spec (Date_now (clockReads w) - lastZombieSpawnTime w)
              (currentSpawnInterval (score w))) as [_|Hno]; [reflexivity|lia].
Qed.

Lemma spawnPhase_not_due :
  forall w,
    ~ (Date_now (clockReads w) - lastZombieSpawnTime w
         > currentSpawnInterval (score w))%Z ->
    spawnPhase w = snd (readClock w).
Proof.
  intros w Hngt. unfold spawnPhase. wsimpl.
  destruct (Z.gtb_spec (Date_now (clockReads w) - lastZombieSpawnTime w)
              (currentSpawnInterval (score w))) as [Hyes|_]; [lia|reflexivity].
Qed.

Lemma spawnZombie_zombies :
  forall w, exists z, zombies (spawnZombie w) = zombies w ++ [z].
Proof.
  intros w. unfold spawnZombie. wsimpl.
  split_ifs; eexists; reflexivity.
Qed.

(** C8.  The spawn interval at score [s >= 0] is [1500 - min (8 s) 1000]
    milliseconds.  It decreases linearly, by 8 ms per point, up to score
    125, where the reduction reaches its cap of 1000 ms and the interval its
    floor of 500 ms; it never increases with the score.  The spawn phase
    adds a zombie (exactly one, and records the time) when and only when
    the time since the last spawn exceeds the interval. *)
Theorem spawn_interval_and_policy :
  forall (w : World),
    (0 <= score w)%Z ->
    let s := score w in
    let now := Date_now (clockReads w) in
    currentSpawnInterval s = (1500 - Z.min (8 * s) 1000)%Z
    /\ (500 <= currentSpawnInterval s <= 1500)%Z
    /\ ((s <= 125)%Z -> currentSpawnInterval s = (1500 - 8 * s)%Z)
    /\ ((125 <= s)%Z -> currentSpawnInterval s = 500%Z)
    /\ (forall s', (s <= s')%Z ->
          (currentSpawnInterval s' <= currentSpawnInterval s)%Z)
    /\ ((now - lastZombieSpawnTime w > currentSpawnInterval s)%Z ->
          List.length (zombies (spawnPhase w)) = S (List.length (zombies w))
          /\ lastZombieSpawnTime (spawnPhase w) = now)
    /\ (~ (now - lastZombieSpawnTime w > currentSpawnInterval s)%Z ->
          zombies (spawnPhase w) = zombies w
          /\ lastZombieSpawnTime (spawnPhase w) = lastZombieSpawnTime w).
Proof.
  intros w Hs s now.
  assert (Hdef : forall t, currentSpawnInterval t = (1500 - Z.min (8 * t) 1000)%Z).
  { intros t. unfold currentSpawnInterval, ZOMBIE_SPAWN_INTERVAL.
    rewrite (Z.mul_comm t 8). reflexivity. }
  split; [apply Hdef|].
  split; [rewrite Hdef; lia|].
  split; [intros Hle; rewrite Hdef; lia|].
  split; [intros Hle; rewrite Hdef; lia|].
  split; [intros s' Hle; rewrite !Hdef; lia|].
  split.
  - intros Hgt. rewrite (spawnPhase_due w Hgt).
    destruct (spawnZombie_zombies (snd (readClock w))) as [z Hz].
    wsimpl. rewrite Hz. wsimpl. rewrite length_app.
    split; [cbn [List.length]; lia|].
    unfold spawnZombie. wsimpl. split_ifs; reflexivity.
  - intros Hngt. rewrite (spawnPhase_not_due w Hngt). wsimpl.
    split; reflexivity.
Qed.

(** *** What each step leaves alone *)

Lemma gameOver_player : forall w, player (gameOver w) = player w.
Proof.
  intros w. unfold gameOver, cancelAnimationFrame. wsimpl.
  destruct (gameLoopId w); reflexivity.
Qed.

Lemma gameOver_isGameOver : forall w, isGameOver (gameOver w) = true.
Proof.
  intros w. unfold gameOver, cancelAnimationFrame. wsimpl.
  destruct (gameLoopId w); reflexivity.
Qed.

Lemma gameOver_healthValueText :
  forall w,
    Display.healthValueText (display (gameOver w))
    = Display.healthValueText (display w).
Proof.
  intros w. unfold gameOver, cancelAnimationFrame. wsimpl.
  destruct (gameLoopId w); reflexivity.
Qed.

Lemma gameOver_items : forall w, items (gameOver w) = items w.
Proof.
  intros w. unfold gameOver, cancelAnimationFrame. wsimpl.
  destruct (gameLoopId w); reflexivity.
Qed.

Lemma gameOver_clockReads : forall w, clockReads (gameOver w) = clockReads w.
Proof.
  intros w. unfold gameOver, cancelAnimationFrame. wsimpl.
  destruct (gameLoopId w); reflexivity.
Qed.

Lemma updateStatsDisplay_player :
  forall w, player (updateStatsDisplay w) = player w.
Proof. intros w. unfold updateStatsDisplay. wsimpl. reflexivity. Qed.

Lemma updateStatsDisplay_healthValueText :
  forall w,
    Display.healthValueText (display (updateStatsDisplay w))
    = Z.max 0 (Player.health (player w)).
Proof. intros w. unfold updateStatsDisplay. wsimpl. reflexivity. Qed.

Lemma spawnPhase_player : forall w, player (spawnPhase w) = player w.
Proof.
  intros w. unfold spawnPhase, spawnZombie. wsimpl. split_ifs; reflexivity.
Qed.

Lemma spawnPhase_clockReads :
  forall w, clockReads (spawnPhase w) = S (clockReads w).
Proof.
  intros w. unfold spawnPhase, spawnZombie. wsimpl. split_ifs; reflexivity.
Qed.

Lemma Player_shoot_player :
  forall w,
    player (Player_shoot w)
    = Player.set_lastShotTime (Player.lastShotTime (player (Player_shoot w)))
        (player w).
Proof.
  intros w. unfold Player_shoot, Player__createBullet. wsimpl.
  split_ifs; wsimpl; destruct (player w); reflexivity.
Qed.

(** [Player.update] recomputes the damage multiplier from the end-timestamp
    it finds and the clock it reads, and leaves health and both
    end-timestamps alone. *)
Lemma Player_update_player :
  forall w,
    let p := player w in
    let p' := player (Player_update w) in
    Player.health p' = Player.health p
    /\ Player.tripleShotEndTime p' = Player.tripleShotEndTime p
    /\ Player.damageBoostEndTime p' = Player.damageBoostEndTime p
    /\ Player.bulletDamageMultiplier p'
       = (if (Player.damageBoostEndTime p >? Date_now (clockReads w))%Z
          then DAMAGE_BOOST_MULTIPLIER else 1).
Proof.
  intros w p p'. subst p p'. unfold Player_update. wsimpl.
  repeat match goal with
    | |- context [let '(_, _) := ?e in _] => destruct e
    end.
  rewrite updateStatsDisplay_player.
  destruct (Mouse.isFiring (mouse w)).
  - rewrite Player_shoot_player. wsimpl. auto.
  - wsimpl. auto.
Qed.

Lemma updateStatsDisplay_items :
  forall w,
    items (updateStatsDisplay w) = items w
    /\ clockReads (updateStatsDisplay w) = S (clockReads w).
Proof. intros w. unfold updateStatsDisplay. wsimpl. split; reflexivity. Qed.

Lemma Player_shoot_items :
  forall w,
    items (Player_shoot w) = items w
    /\ clockReads (Player_shoot w) = S (clockReads w).
Proof.
  intros w. unfold Player_shoot, Player__createBullet. wsimpl.
  split_ifs; wsimpl; split; reflexivity.
Qed.

(** [Player.update] moves the player, reads the clock, sets the two
    derived fields, fires if the button is held, and refreshes the page. *)
Lemma Player_update_shape :
  forall w,
    exists p',
      Player_update w
      = updateStatsDisplay
          (if Mouse.isFiring (mouse w)
           then Player_shoot (set_player p' (set_clockReads (S (clockReads w)) w))
           else set_player p' (set_clockReads (S (clockReads w)) w)).
Proof.
  intros w. unfold Player_update. wsimpl.
  repeat match goal with
    | |- context [let '(_, _) := ?e in _] => destruct e
    end.
  eexists. reflexivity.
Qed.

Lemma Player_update_items :
  forall w,
    items (Player_update w) = items w
    /\ (clockReads w <= clockReads (Player_update w))%nat.
Proof.
  intros w. destruct (Player_update_shape w) as [p' ->].
  destruct (updateStatsDisplay_items
              (if Mouse.isFiring (mouse w)
               then Player_shoot
                      (set_player p' (set_clockReads (S (clockReads w)) w))
               else set_player p' (set_clockReads (S (clockReads w)) w)))
    as [-> ->].
  destruct (Mouse.isFiring (mouse w)).
  - destruct (Player_shoot_items
                (set_player p' (set_clockReads (S (clockReads w)) w)))
      as [-> ->].
    wsimpl. split; [reflexivity|lia].
  - wsimpl. split; [reflexivity|lia].
Qed.

Lemma Player_update_healthValueText :
  forall w,
    Display.healthValueText (display (Player_update w))
    = Z.max 0 (Player.health (player w)).
Proof.
  intros w. unfold Player_update. wsimpl.
  repeat match goal with
    | |- context [let '(_, _) := ?e in _] => destruct e
    end.
  rewrite updateStatsDisplay_healthValueText.
  destruct (Mouse.isFiring (mouse w)).
  - rewrite Player_shoot_player. wsimpl. reflexivity.
  - wsimpl. reflexivity.
Qed.


Lemma zombie_step_refl : forall w, zombie_step w w.
Proof.
  intros w. unfold zombie_step. split; [|split; [|split; [|split]]].
  - destruct (player w); reflexivity.
  - lia.
  - reflexivity.
  - reflexivity.
  - lia.
Qed.

Lemma zombie_step_trans :
  forall w1 w2 w3, zombie_step w1 w2 -> zombie_step w2 w3 -> zombie_step w1 w3.
Proof.
  unfold zombie_step.
  intros w1 w2 w3 (Hp12 & Hh12 & Hd12 & Hi12 & Hc12)
    (Hp23 & Hh23 & Hd23 & Hi23 & Hc23).
  split; [|split; [|split; [|split]]].
  - rewrite Hp23, Hp12. reflexivity.
  - lia.
  - congruence.
  - congruence.
  - lia.
Qed.

Lemma Zombie_attackPlayer_step :
  forall z w, zombie_step w (snd (Zombie_attackPlayer z w)).
Proof.
  intros z w. unfold Zombie_attackPlayer. wsimpl.
  destruct (_ >? _)%Z; wsimpl.
  - destruct (_ <=? _)%Z; wsimpl; unfold zombie_step;
      rewrite ?gameOver_player, ?gameOver_healthValueText, ?gameOver_items,
        ?gameOver_clockReads; wsimpl;
      (split; [destruct (player w); reflexivity
              |split; [unfold ZOMBIE_DAMAGE; lia
                      |split; [reflexivity|split; [reflexivity|lia]]]]).
  - unfold zombie_step. wsimpl.
    split; [destruct (player w); reflexivity
           |split; [lia|split; [reflexivity|split; [reflexivity|lia]]]].
Qed.

Lemma Zombie_update_step :
  forall z w, zombie_step w (snd (Zombie_update z w)).
Proof.
  intros z w. unfold Zombie_update.
  destruct (Qltb _ _).
  - apply Zombie_attackPlayer_step.
  - apply zombie_step_refl.
Qed.

Lemma zombies_forEach_step :
  forall zs w, zombie_step w (snd (zombies_forEach zs w)).
Proof.
  induction zs as [|z rest IH]; intros w; cbn [zombies_forEach].
  - apply zombie_step_refl.
  - pose proof (Zombie_update_step z w) as Hz.
    destruct (Zombie_update z w) as [z' w1]. cbn [snd] in Hz.
    specialize (IH w1).
    destruct (zombies_forEach rest w1) as [rest' w2]. cbn [snd] in IH |- *.
    eapply zombie_step_trans; eassumption.
Qed.


Lemma item_step_refl : forall w, item_step w w.
Proof. intros w. unfold item_step. repeat split; auto. Qed.

Lemma item_step_trans :
  forall w1 w2 w3, item_step w1 w2 -> item_step w2 w3 -> item_step w1 w3.
Proof.
  unfold item_step.
  intros w1 w2 w3 (Hx & Hy & Hs & Hm & Hh & Hd & Hc)
    (Hx' & Hy' & Hs' & Hm' & Hh' & Hd' & Hc').
  repeat split; try congruence; try lia; auto.
Qed.

Lemma Player_applyUpgrade_step :
  forall type w, item_step w (Player_applyUpgrade type w).
Proof.
  intros type w. unfold item_step.
  destruct (applyUpgrade_position type w) as (Hx & Hy & Hs).
  repeat split; auto.
  - apply applyUpgrade_multiplier.
  - apply applyUpgrade_health_le.
  - unfold Player_applyUpgrade. split_ifs; reflexivity.
  - apply applyUpgrade_clock_mono.
Qed.

Lemma readClock_item_step :
  forall w, item_step w (set_clockReads (S (clockReads w)) w).
Proof. intros w. unfold item_step. wsimpl. repeat split; auto. Qed.

Lemma itemCallback_step :
  forall item w, item_step w (snd (itemCallback item w)).
Proof.
  intros item w. unfold itemCallback. wsimpl.
  destruct (_ >? _)%Z; [apply readClock_item_step|].
  destruct (playerTouches _ _); cbn [snd]; [|apply readClock_item_step].
  eapply item_step_trans;
    [apply readClock_item_step|apply Player_applyUpgrade_step].
Qed.

Lemma items_filter_step :
  forall its w, item_step w (snd (items_filter its w)).
Proof.
  induction its as [|item rest IH]; intros w; cbn [items_filter].
  - apply item_step_refl.
  - pose proof (itemCallback_step item w) as Hi.
    destruct (itemCallback item w) as [keep w1]. cbn [snd] in Hi.
    specialize (IH w1).
    destruct (items_filter rest w1) as [rest' w2]. cbn [snd] in IH |- *.
    eapply item_step_trans; eassumption.
Qed.

(** *** The bullet vs zombie collision phase *)

Lemma collision_frame_refl : forall w, collision_frame w w.
Proof. intros w. reflexivity. Qed.

Lemma collision_frame_trans :
  forall w1 w2 w3,
    collision_frame w1 w2 -> collision_frame w2 w3 -> collision_frame w1 w3.
Proof. unfold collision_frame. intros w1 w2 w3 H12 H23. congruence. Qed.

Lemma collision_frame_player :
  forall w w', collision_frame w w' -> player w' = player w.
Proof.
  unfold collision_frame. intros w w' Hf.
  apply (f_equal player) in Hf. exact Hf.
Qed.

Lemma collision_frame_canvas :
  forall w w',
    collision_frame w w' ->
    canvas_width w' = canvas_width w /\ canvas_height w' = canvas_height w.
Proof.
  unfold collision_frame. intros w w' Hf. split.
  - apply (f_equal canvas_width) in Hf. exact Hf.
  - apply (f_equal canvas_height) in Hf. exact Hf.
Qed.

Lemma collision_frame_zombies :
  forall w w', collision_frame w w' -> zombies w' = zombies w.
Proof.
  unfold collision_frame. intros w w' Hf.
  apply (f_equal zombies) in Hf. exact Hf.
Qed.

Lemma collision_frame_set_zombies :
  forall w w' zs,
    collision_frame w w' ->
    collision_frame (set_zombies zs w) (set_zombies zs w').
Proof.
  unfold collision_frame. intros w w' zs Hf.
  apply (f_equal (set_zombies zs)) in Hf. exact Hf.
Qed.

Lemma dropItem_frame : forall zombie w, collision_frame w (dropItem zombie w).
Proof.
  intros zombie w. unfold dropItem, Item_new. wsimpl.
  destruct (Qltb _ _); reflexivity.
Qed.

Lemma dropItem_score : forall zombie w, score (dropItem zombie w) = score w.
Proof.
  intros zombie w. unfold dropItem, Item_new. wsimpl.
  destruct (Qltb _ _); reflexivity.
Qed.

(** One zombie against one bullet: the zombie is damaged exactly when the
    bullet touches it, the flag [hit] is raised exactly when it survives
    that, and a kill is worth 10 points. *)
Lemma zombieCallback_spec :
  forall bullet zombie hit w,
    let m := Player.bulletDamageMultiplier (player w) in
    let '(kept, hit', w') := zombieCallback bullet zombie hit w in
    (match kept with Some z => [z] | None => [] end)
      = afterBullet m bullet [zombie]
    /\ hit' = hit || woundedBy m bullet zombie
    /\ score w'
       = (score w + (if killedBy m bullet zombie then 10 else 0))%Z
    /\ collision_frame w w'.
Proof.
  intros bullet zombie hit w m. subst m.
  unfold zombieCallback, afterBullet, woundedBy, killedBy, damaged.
  cbn [flat_map]. destruct (bulletTouches bullet zombie); cbn [andb].
  - destruct (Qle_bool _ _); cbn [negb app].
    + rewrite dropItem_score. wsimpl.
      repeat split; [rewrite orb_false_r; reflexivity|].
      eapply collision_frame_trans; [|apply dropItem_frame]. reflexivity.
    + repeat split; [rewrite orb_true_r; reflexivity|lia].
  - repeat split; [rewrite orb_false_r; reflexivity|lia].
Qed.

Lemma afterBullet_cons :
  forall m bullet zombie zs,
    afterBullet m bullet (zombie :: zs)
    = afterBullet m bullet [zombie] ++ afterBullet m bullet zs.
Proof.
  intros. unfold afterBullet. cbn [flat_map]. rewrite app_nil_r. reflexivity.
Qed.

(** One bullet against the whole collection. *)
Lemma zombies_filter_spec :
  forall bullet zs hit w,
    let m := Player.bulletDamageMultiplier (player w) in
    let '(zs', hit', w') := zombies_filter bullet zs hit w in
    zs' = afterBullet m bullet zs
    /\ hit' = hit || existsb (woundedBy m bullet) zs
    /\ score w'
       = (score w
          + 10 * Z.of_nat (List.length (filter (killedBy m bullet) zs)))%Z
    /\ collision_frame w w'.
Proof.
  intros bullet zs. induction zs as [|zombie rest IH]; intros hit w m.
  - cbn [zombies_filter existsb filter List.length].
    repeat split; [rewrite orb_false_r; reflexivity|lia].
  - cbn [zombies_filter].
    pose proof (zombieCallback_spec bullet zombie hit w) as Hz.
    destruct (zombieCallback bullet zombie hit w) as [[kept hit1] w1].
    cbv zeta in Hz. destruct Hz as (Hk & Hh & Hs & Hf).
    specialize (IH hit1 w1). cbv zeta in IH.
    rewrite (collision_frame_player _ _ Hf) in IH. fold m in IH, Hk, Hh, Hs.
    destruct (zombies_filter bullet rest hit1 w1) as [[rest' hit2] w2].
    destruct IH as (Hr & Hh2 & Hs2 & Hf2).
    split; [|split; [|split]].
    + rewrite afterBullet_cons, <- Hk, <- Hr. destruct kept; reflexivity.
    + rewrite Hh2, Hh. cbn [existsb]. rewrite orb_assoc. reflexivity.
    + rewrite Hs2, Hs. cbn [filter].
      destruct (killedBy m bullet zombie); cbn [List.length]; lia.
    + eapply collision_frame_trans; eassumption.
Qed.

(** The callback of [bullets.filter]. *)
Lemma bulletCallback_spec :
  forall bullet w,
    let m := Player.bulletDamageMultiplier (player w) in
    let '(keep, w') := bulletCallback bullet w in
    zombies w' = afterBullet m bullet (zombies w)
    /\ keep = negb (existsb (woundedBy m bullet) (zombies w))
              && negb (Bullet_isOffScreen bullet w)
    /\ score w'
       = (score w
          + 10 * Z.of_nat
                   (List.length (filter (killedBy m bullet) (zombies w))))%Z
    /\ collision_frame (set_zombies (zombies w') w) w'.
Proof.
  intros bullet w m. unfold bulletCallback.
  pose proof (zombies_filter_spec bullet (zombies w) false w) as Hz.
  destruct (zombies_filter bullet (zombies w) false w) as [[zs hit] w1].
  cbv zeta in Hz. fold m in Hz. destruct Hz as (Hzs & Hh & Hs & Hf).
  wsimpl. split; [exact Hzs|]. split; [|split; [exact Hs|]].
  - rewrite Hh. cbn [orb]. f_equal. f_equal.
    unfold Bullet_isOffScreen. wsimpl.
    destruct (collision_frame_canvas _ _ Hf) as [-> ->]. reflexivity.
  - apply collision_frame_set_zombies. exact Hf.
Qed.

Lemma afterBullet_length :
  forall m bullet zs,
    (List.length (afterBullet m bullet zs)
     + List.length (filter (killedBy m bullet) zs))%nat
    = List.length zs.
Proof.
  intros m bullet zs. induction zs as [|zombie rest IH]; [reflexivity|].
  rewrite afterBullet_cons, length_app. cbn [filter].
  unfold killedBy at 1. unfold afterBullet at 1. cbn [flat_map].
  destruct (bulletTouches bullet zombie); cbn [andb].
  - destruct (Qle_bool _ _); cbn [List.length app]; lia.
  - cbn [List.length app]; lia.
Qed.

Lemma bulletTouches_damaged :
  forall m bullet zombie,
    bulletTouches bullet (damaged m zombie) = bulletTouches bullet zombie.
Proof. intros. reflexivity. Qed.

Lemma afterBullet_touchesNone :
  forall m bullet' bullet zs,
    touchesNone bullet zs -> touchesNone bullet (afterBullet m bullet' zs).
Proof.
  unfold touchesNone. intros m bullet' bullet zs Hnone.
  induction Hnone as [|zombie rest Hz Hrest IH]; [constructor|].
  rewrite afterBullet_cons. apply Forall_app. split; [|exact IH].
  unfold afterBullet. cbn [flat_map].
  destruct (bulletTouches bullet' zombie).
  - destruct (Qle_bool _ _); cbn [app]; repeat constructor.
    rewrite bulletTouches_damaged. exact Hz.
  - cbn [app]. repeat constructor. exact Hz.
Qed.

Lemma touchesNone_not_wounded :
  forall m bullet zs,
    touchesNone bullet zs -> existsb (woundedBy m bullet) zs = false.
Proof.
  unfold touchesNone. intros m bullet zs Hnone.
  induction Hnone as [|zombie rest Hz Hrest IH]; [reflexivity|].
  cbn [existsb]. unfold woundedBy at 1. rewrite Hz, IH. reflexivity.
Qed.

Lemma touchesNone_afterBullet :
  forall m bullet zs, touchesNone bullet zs -> afterBullet m bullet zs = zs.
Proof.
  unfold touchesNone. intros m bullet zs Hnone.
  induction Hnone as [|zombie rest Hz Hrest IH]; [reflexivity|].
  rewrite afterBullet_cons, IH. unfold afterBullet. cbn [flat_map].
  rewrite Hz. reflexivity.
Qed.

(** The whole phase: what is left of the zombies, what it is worth, and
    what else may have changed. *)
Lemma bullets_filter_spec :
  forall bs w,
    let m := Player.bulletDamageMultiplier (player w) in
    let '(bs', w') := bullets_filter bs w in
    zombies w' = afterBullets m bs (zombies w)
    /\ (score w'
        = score w + 10 * (Z.of_nat (List.length (zombies w))
                          - Z.of_nat (List.length (zombies w'))))%Z
    /\ collision_frame (set_zombies (zombies w') w) w'.
Proof.
  induction bs as [|bullet rest IH]; intros w m.
  - cbn [bullets_filter afterBullets fold_left].
    split; [reflexivity|split; [lia|destruct w; reflexivity]].
  - cbn [bullets_filter afterBullets fold_left].
    pose proof (bulletCallback_spec bullet w) as Hb.
    pose proof (afterBullet_length m bullet (zombies w)) as Hlen.
    destruct (bulletCallback bullet w) as [keep w1].
    cbv zeta in Hb. fold m in Hb. destruct Hb as (Hzs & _ & Hs & Hf).
    specialize (IH w1). cbv zeta in IH.
    assert (Hp : player w1 = player w).
    { exact (collision_frame_player _ _ Hf). }
    rewrite Hp in IH. fold m in IH.
    destruct (bullets_filter rest w1) as [rest' w2].
    destruct IH as (Hzs2 & Hs2 & Hf2).
    split; [|split].
    + rewrite Hzs2, Hzs. reflexivity.
    + rewrite Hs2, Hs. rewrite <- Hzs in Hlen. lia.
    + eapply collision_frame_trans; [|exact Hf2].
      apply (collision_frame_set_zombies _ _ (zombies w2)) in Hf.
      exact Hf.
Qed.

Lemma bullets_filter_kept :
  forall bs w bullet,
    touchesNone bullet (zombies w) ->
    In bullet (fst (bullets_filter bs w))
    <-> In bullet bs /\ Bullet_isOffScreen bullet w = false.
Proof.
  induction bs as [|b rest IH]; intros w bullet Hnone.
  - cbn [bullets_filter fst In]. tauto.
  - cbn [bullets_filter].
    pose proof (bulletCallback_spec b w) as Hb.
    destruct (bulletCallback b w) as [keep w1].
    cbv zeta in Hb. destruct Hb as (Hzs & Hkeep & _ & Hf).
    assert (Hnone1 : touchesNone bullet (zombies w1)).
    { rewrite Hzs. apply afterBullet_touchesNone. exact Hnone. }
    assert (Hoff : forall b0, Bullet_isOffScreen b0 w1 = Bullet_isOffScreen b0 w).
    { intros b0. unfold Bullet_isOffScreen.
      destruct (collision_frame_canvas _ _ Hf) as [-> ->]. reflexivity. }
    specialize (IH w1 bullet Hnone1). rewrite Hoff in IH.
    destruct (bullets_filter rest w1) as [rest' w2]. cbn [fst] in IH |- *.
    split.
    + intros Hin. destruct keep.
      * destruct Hin as [<-|Hin].
        -- split; [left; reflexivity|].
           symmetry in Hkeep. apply andb_true_iff in Hkeep.
           destruct Hkeep as [_ Hon]. apply negb_true_iff in Hon. exact Hon.
        -- apply IH in Hin. destruct Hin. split; [right|]; assumption.
      * apply IH in Hin. destruct Hin. split; [right|]; assumption.
    + intros [[<-|Hin] Hon].
      * rewrite (touchesNone_not_wounded _ _ _ Hnone), Hon in Hkeep.
        subst keep. left. reflexivity.
      * assert (In bullet rest') by (apply IH; split; assumption).
        destruct keep; [right|]; assumption.
Qed.

Lemma keptBullets_incl :
  forall m off bs zs bullet,
    In bullet (keptBullets m off bs zs) -> In bullet bs.
Proof.
  induction bs as [|b rest IH]; intros zs bullet Hin.
  - exact Hin.
  - cbn [keptBullets] in Hin. apply in_app_or in Hin.
    destruct Hin as [Hin|Hin].
    + destruct (negb _ && negb _); [|destruct Hin].
      destruct Hin as [<-|[]]. left. reflexivity.
    + right. exact (IH _ _ Hin).
Qed.

Lemma keptBullets_length :
  forall m off bs zs,
    (List.length (keptBullets m off bs zs) <= List.length bs)%nat.
Proof.
  induction bs as [|b rest IH]; intros zs.
  - cbn [keptBullets List.length]. lia.
  - cbn [keptBullets]. rewrite length_app. specialize (IH (afterBullet m b zs)).
    destruct (negb _ && negb _); cbn [List.length]; lia.
Qed.

Lemma keptBullets_app :
  forall m off before after zs,
    keptBullets m off (before ++ after) zs
    = keptBullets m off before zs
      ++ keptBullets m off after (afterBullets m before zs).
Proof.
  induction before as [|b rest IH]; intros after zs.
  - reflexivity.
  - cbn [app keptBullets afterBullets fold_left].
    rewrite IH, app_assoc. reflexivity.
Qed.

Lemma bullets_filter_keptBullets :
  forall bs w off,
    (forall bullet, Bullet_isOffScreen bullet w = off bullet) ->
    fst (bullets_filter bs w)
    = keptBullets (Player.bulletDamageMultiplier (player w)) off bs
        (zombies w).
Proof.
  induction bs as [|b rest IH]; intros w off Hoff.
  - reflexivity.
  - cbn [bullets_filter keptBullets].
    pose proof (bulletCallback_spec b w) as Hb.
    destruct (bulletCallback b w) as [keep w1].
    cbv zeta in Hb. destruct Hb as (Hzs & Hkeep & _ & Hf).
    assert (Hoff1 : forall bullet, Bullet_isOffScreen bullet w1 = off bullet).
    { intros bullet. rewrite <- Hoff. unfold Bullet_isOffScreen.
      destruct (collision_frame_canvas _ _ Hf) as [-> ->]. reflexivity. }
    specialize (IH w1 off Hoff1).
    assert (Hp : player w1 = player w)
      by exact (collision_frame_player _ _ Hf).
    rewrite Hp, Hzs in IH.
    destruct (bullets_filter rest w1) as [rest' w2]. cbn [fst] in IH |- *.
    rewrite <- IH, <- Hoff, <- Hkeep. destruct keep; reflexivity.
Qed.

Lemma collisionPhase_bullets :
  forall w, bullets (collisionPhase w) = fst (bullets_filter (bullets w) w).
Proof.
  intros w. unfold collisionPhase.
  destruct (bullets_filter (bullets w) w) as [bs w']. reflexivity.
Qed.

Lemma collisionPhase_spec :
  forall w,
    let m := Player.bulletDamageMultiplier (player w) in
    let w' := collisionPhase w in
    zombies w' = afterBullets m (bullets w) (zombies w)
    /\ (score w'
        = score w + 10 * (Z.of_nat (List.length (zombies w))
                          - Z.of_nat (List.length (zombies w'))))%Z
    /\ player w' = player w
    /\ display w' = display w
    /\ isGameOver w' = isGameOver w.
Proof.
  intros w m w'. subst w'. unfold collisionPhase.
  pose proof (bullets_filter_spec (bullets w) w) as Hb.
  destruct (bullets_filter (bullets w) w) as [bs w1].
  cbv zeta in Hb. fold m in Hb. destruct Hb as (Hzs & Hs & Hf).
  wsimpl. split; [exact Hzs|]. split; [exact Hs|].
  unfold collision_frame in Hf.
  split; [|split].
  - apply (f_equal player) in Hf. exact Hf.
  - apply (f_equal display) in Hf. exact Hf.
  - apply (f_equal isGameOver) in Hf. exact Hf.
Qed.

Lemma drops_step_refl : forall w, drops_step w w.
Proof.
  intros w. split; [lia|]. exists []. rewrite app_nil_r.
  split; [reflexivity|constructor].
Qed.

Lemma drops_step_same :
  forall w w',
    items w' = items w -> clockReads w' = clockReads w -> drops_step w w'.
Proof.
  intros w w' Hi Hc. split; [lia|]. exists []. rewrite app_nil_r.
  split; [exact Hi|constructor].
Qed.

Lemma drops_step_trans :
  forall w1 w2 w3, drops_step w1 w2 -> drops_step w2 w3 -> drops_step w1 w3.
Proof.
  intros w1 w2 w3 (Hc12 & d12 & Hi12 & Hf12) (Hc23 & d23 & Hi23 & Hf23).
  split; [lia|]. exists (d12 ++ d23). split.
  - rewrite Hi23, Hi12, app_assoc. reflexivity.
  - apply Forall_app. split; [exact Hf12|].
    eapply Forall_impl; [|exact Hf23].
    intros item (n & Hn & Ht). exists n. split; [lia|exact Ht].
Qed.

(** The index drawn for the type of a dropped item is within
    [itemTypes]. *)
Lemma random_index_in_range :
  forall n,
    (Z.to_nat (Qfloor (Math_random n
                       * inject_Z (Z.of_nat (List.length itemTypes))))
     < List.length itemTypes)%nat.
Proof.
  intros n. destruct (Math_random_range n) as [Hlo Hhi].
  change (inject_Z (Z.of_nat (List.length itemTypes))) with 3.
  change (List.length itemTypes) with 3%nat.
  assert (Hge : (0 <= Qfloor (Math_random n * 3))%Z).
  { change 0%Z with (Qfloor 0). apply Qfloor_resp_le. lra. }
  assert (Hlt : (Qfloor (Math_random n * 3) < 3)%Z).
  { apply Z.lt_nge. intros Hle.
    pose proof (Qfloor_le (Math_random n * 3)) as Hfl.
    assert (H3 : 3 <= inject_Z (Qfloor (Math_random n * 3))).
    { change 3 with (inject_Z 3). rewrite <- Zle_Qle. exact Hle. }
    lra. }
  lia.
Qed.

(** A dying zombie drops nothing, or one item of a known type at its own
    place, stamped with the current time. *)
Lemma dropItem_items :
  forall zombie w,
    items (dropItem zombie w) = items w
    \/ exists type,
         In type itemTypes
         /\ items (dropItem zombie w)
            = items w
              ++ [Item.mk (Zombie.x zombie) (Zombie.y zombie) ITEM_SIZE type
                    (Date_now (clockReads w))].
Proof.
  intros zombie w. unfold dropItem, Item_new. wsimpl.
  destruct (Qltb _ _); [right|left; reflexivity].
  eexists. split; [|reflexivity].
  apply nth_In. apply random_index_in_range.
Qed.

Lemma dropItem_drops : forall zombie w, drops_step w (dropItem zombie w).
Proof.
  intros zombie w. unfold dropItem, Item_new. wsimpl.
  destruct (Qltb _ _); [|apply drops_step_same; reflexivity].
  split; [wsimpl; lia|]. eexists. wsimpl. split; [reflexivity|].
  repeat constructor. exists (clockReads w). wsimpl. split; [lia|reflexivity].
Qed.

Lemma zombieCallback_drops :
  forall bullet zombie hit w,
    drops_step w (snd (zombieCallback bullet zombie hit w)).
Proof.
  intros bullet zombie hit w. unfold zombieCallback.
  destruct (bulletTouches bullet zombie); [|apply drops_step_refl].
  destruct (Qle_bool _ _); [|apply drops_step_refl]. cbn [snd].
  eapply drops_step_trans; [|apply dropItem_drops].
  apply drops_step_same; reflexivity.
Qed.

Lemma zombies_filter_drops :
  forall bullet zs hit w,
    drops_step w (snd (zombies_filter bullet zs hit w)).
Proof.
  intros bullet zs. induction zs as [|zombie rest IH]; intros hit w.
  - apply drops_step_refl.
  - cbn [zombies_filter].
    pose proof (zombieCallback_drops bullet zombie hit w) as Hz.
    destruct (zombieCallback bullet zombie hit w) as [[kept hit1] w1].
    specialize (IH hit1 w1).
    destruct (zombies_filter bullet rest hit1 w1) as [[rest' hit2] w2].
    cbn [snd] in *. eapply drops_step_trans; eassumption.
Qed.

Lemma bulletCallback_drops :
  forall bullet w, drops_step w (snd (bulletCallback bullet w)).
Proof.
  intros bullet w. unfold bulletCallback.
  pose proof (zombies_filter_drops bullet (zombies w) false w) as Hz.
  destruct (zombies_filter bullet (zombies w) false w) as [[zs hit] w1].
  cbn [snd] in *. eapply drops_step_trans; [exact Hz|].
  apply drops_step_same; reflexivity.
Qed.

Lemma bullets_filter_drops :
  forall bs w, drops_step w (snd (bullets_filter bs w)).
Proof.
  induction bs as [|bullet rest IH]; intros w.
  - apply drops_step_refl.
  - cbn [bullets_filter].
    pose proof (bulletCallback_drops bullet w) as Hb.
    destruct (bulletCallback bullet w) as [keep w1].
    specialize (IH w1).
    destruct (bullets_filter rest w1) as [rest' w2].
    cbn [snd] in *. eapply drops_step_trans; eassumption.
Qed.

Lemma collisionPhase_drops : forall w, drops_step w (collisionPhase w).
Proof.
  intros w. unfold collisionPhase.
  pose proof (bullets_filter_drops (bullets w) w) as Hb.
  destruct (bullets_filter (bullets w) w) as [bs w1].
  cbn [snd] in Hb. eapply drops_step_trans; [exact Hb|].
  apply drops_step_same; reflexivity.
Qed.

(** C1 (amended).  In the collision phase the bullets are taken in order,
    and each is tested against every zombie then in the collection: it
    deals [10 * player.bulletDamageMultiplier] to every zombie it touches,
    not to the first one only, and a zombie whose health is then at most
    zero is removed.  A bullet that, when its turn comes, touches a zombie
    which survives the damage is removed from the bullet collection: the
    collection after the phase is what the bullets before it and the
    bullets after it leave, and the bullet is not in it unless it was there
    more than once.  A bullet that touches no zombie is retained exactly
    when it is not off-screen.  The bullets left are exactly those that,
    at their turn, wound no zombie and are on screen. *)
Theorem bullet_zombie_collision :
  forall (w : World) (bullet : Bullet.t),
    In bullet (bullets w) ->
    let m := Player.bulletDamageMultiplier (player w) in
    let off := fun b => Bullet_isOffScreen b w in
    let w' := collisionPhase w in
    zombies w' = afterBullets m (bullets w) (zombies w)
    /\ (touchesNone bullet (zombies w) ->
        (In bullet (bullets w') <-> Bullet_isOffScreen bullet w = false))
    /\ (forall w0 : World,
          let m0 := Player.bulletDamageMultiplier (player w0) in
          zombies (snd (bulletCallback bullet w0))
          = afterBullet m0 bullet (zombies w0)
          /\ (existsb (woundedBy m0 bullet) (zombies w0) = true ->
              fst (bulletCallback bullet w0) = false))
    /\ bullets w' = keptBullets m off (bullets w) (zombies w)
    /\ (forall before after : list Bullet.t,
          bullets w = before ++ bullet :: after ->
          existsb (woundedBy m bullet) (afterBullets m before (zombies w))
          = true ->
          bullets w'
          = keptBullets m off before (zombies w)
            ++ keptBullets m off after
                 (afterBullets m (before ++ [bullet]) (zombies w))
          /\ (List.length (bullets w') < List.length (bullets w))%nat
          /\ (~ In bullet before -> ~ In bullet after ->
              ~ In bullet (bullets w'))).
Proof.
  intros w bullet Hin m off w'. subst w'.
  assert (Hkept : bullets (collisionPhase w)
                  = keptBullets m off (bullets w) (zombies w)).
  { rewrite collisionPhase_bullets.
    apply bullets_filter_keptBullets. reflexivity. }
  split; [apply collisionPhase_spec|]. split; [|split; [|split]].
  - intros Hnone. rewrite collisionPhase_bullets.
    rewrite (bullets_filter_kept (bullets w) w bullet Hnone). tauto.
  - intros w0 m0. pose proof (bulletCallback_spec bullet w0) as Hb.
    destruct (bulletCallback bullet w0) as [keep w1].
    cbv zeta in Hb. fold m0 in Hb. destruct Hb as (Hzs & Hkeep & _ & _).
    cbn [fst snd]. split; [exact Hzs|].
    intros Hw. rewrite Hkeep, Hw. reflexivity.
  - exact Hkept.
  - intros before after Hsplit Hwound.
    assert (Heq : bullets (collisionPhase w)
                  = keptBullets m off before (zombies w)
                    ++ keptBullets m off after
                         (afterBullets m (before ++ [bullet]) (zombies w))).
    { rewrite Hkept, Hsplit, keptBullets_app. cbn [keptBullets].
      rewrite Hwound. cbn [negb andb app].
      unfold afterBullets. rewrite fold_left_app. reflexivity. }
    split; [exact Heq|]. split.
    + rewrite Heq, Hsplit, !length_app. cbn [List.length].
      pose proof (keptBullets_length m off before (zombies w)).
      pose proof (keptBullets_length m off after
                    (afterBullets m (before ++ [bullet]) (zombies w))).
      lia.
    + intros Hnb Hna Hin'. rewrite Heq in Hin'. apply in_app_or in Hin'.
      destruct Hin' as [Hin'|Hin'].
      * apply Hnb. exact (keptBullets_incl _ _ _ _ _ Hin').
      * apply Hna. exact (keptBullets_incl _ _ _ _ _ Hin').
Qed.

(** *** Scenarios B and C: hits needed to kill a zombie *)

Lemma zombieCallback_wound :
  forall bullet zombie hit w,
    bulletTouches bullet zombie = true ->
    Qle_bool
      (Zombie.health zombie - 10 * Player.bulletDamageMultiplier (player w)) 0
    = false ->
    zombieCallback bullet zombie hit w
    = (Some (damaged (Player.bulletDamageMultiplier (player w)) zombie),
       true, w).
Proof.
  intros bullet zombie hit w Ht Hs. unfold zombieCallback, damaged.
  rewrite Ht. wsimpl. rewrite Hs. reflexivity.
Qed.

Lemma zombieCallback_kill :
  forall bullet zombie hit w,
    bulletTouches bullet zombie = true ->
    Qle_bool
      (Zombie.health zombie - 10 * Player.bulletDamageMultiplier (player w)) 0
    = true ->
    fst (fst (zombieCallback bullet zombie hit w)) = None
    /\ score (snd (zombieCallback bullet zombie hit w)) = (score w + 10)%Z.
Proof.
  intros bullet zombie hit w Ht Hs. unfold zombieCallback.
  rewrite Ht. wsimpl. rewrite Hs. cbn [fst snd].
  rewrite dropItem_score. split; reflexivity.
Qed.

Lemma Zombie_update_health :
  forall zombie w,
    Zombie.health (fst (Zombie_update zombie w)) = Zombie.health zombie.
Proof.
  intros zombie w. unfold Zombie_update, Zombie_attackPlayer. wsimpl.
  split_ifs; reflexivity.
Qed.

(** C5.  A zombie is created with health 30 and keeps it while it moves.
    With base damage 10 and no damage boost (multiplier 1), a hit takes a
    zombie from 30 to 20 and from 20 to 10 and leaves it in the collection
    with the score unchanged; the hit at health 10, the third, removes it
    and adds exactly 10 to the score.  In one collision phase: against
    one touching bullet the zombie is left at 20, against two at 10, and
    against three it is gone and the score is 10 higher. *)
Theorem three_hits_kill_a_zombie :
  forall (w : World) (bullet : Bullet.t) (zombie : Zombie.t) (hit : bool),
    Player.bulletDamageMultiplier (player w) = 1 ->
    bulletTouches bullet zombie = true ->
    (forall x y size w0,
        Zombie.health (Zombie_new x y size) = 30
        /\ Zombie.health (fst (Zombie_update (Zombie_new x y size) w0)) = 30)
    /\ (Zombie.health zombie = 30 ->
        zombieCallback bullet zombie hit w
        = (Some (Zombie.set_health 20 zombie), true, w))
    /\ (Zombie.health zombie = 20 ->
        zombieCallback bullet zombie hit w
        = (Some (Zombie.set_health 10 zombie), true, w))
    /\ (Zombie.health zombie = 10 ->
        fst (fst (zombieCallback bullet zombie hit w)) = None
        /\ score (snd (zombieCallback bullet zombie hit w)) = (score w + 10)%Z)
    /\ (forall b2 b3 : Bullet.t,
          bulletTouches b2 zombie = true ->
          bulletTouches b3 zombie = true ->
          Zombie.health zombie = 30 ->
          zombies w = [zombie] ->
          let w' := collisionPhase w in
          (bullets w = [bullet] ->
           zombies w' = [Zombie.set_health 20 zombie] /\ score w' = score w)
          /\ (bullets w = [bullet; b2] ->
              zombies w' = [Zombie.set_health 10 zombie] /\ score w' = score w)
          /\ (bullets w = [bullet; b2; b3] ->
              zombies w' = [] /\ score w' = (score w + 10)%Z)).
Proof.
  intros w bullet zombie hit Hm Ht.
  split; [intros x y size w0; rewrite Zombie_update_health; split; reflexivity|].
  split; [|split; [|split]].
  - intros Hh. rewrite zombieCallback_wound; rewrite ?Hm, ?Hh; auto.
    unfold damaged. rewrite Hh. reflexivity.
  - intros Hh. rewrite zombieCallback_wound; rewrite ?Hm, ?Hh; auto.
    unfold damaged. rewrite Hh. reflexivity.
  - intros Hh. apply zombieCallback_kill; rewrite ?Hm, ?Hh; auto.
  - intros b2 b3 Ht2 Ht3 Hh Hzs w'. subst w'.
    destruct (collisionPhase_spec w) as (Hz & Hs & _).
    rewrite Hm, Hzs in Hz. rewrite Hs, Hz, Hzs. clear Hs.
    assert (H1 : afterBullet 1 bullet [zombie] = [Zombie.set_health 20 zombie]).
    { unfold afterBullet, damaged. cbn [flat_map]. rewrite Ht, Hh. reflexivity. }
    assert (H2 : afterBullet 1 b2 [Zombie.set_health 20 zombie]
                 = [Zombie.set_health 10 zombie]).
    { unfold afterBullet, damaged. cbn [flat_map].
      change (bulletTouches b2 (Zombie.set_health 20 zombie))
        with (bulletTouches b2 zombie).
      rewrite Ht2. reflexivity. }
    assert (H3 : afterBullet 1 b3 [Zombie.set_health 10 zombie] = []).
    { unfold afterBullet, damaged. cbn [flat_map].
      change (bulletTouches b3 (Zombie.set_health 10 zombie))
        with (bulletTouches b3 zombie).
      rewrite Ht3. reflexivity. }
    split; [|split]; intros ->; cbn [afterBullets fold_left];
      rewrite ?H1, ?H2, ?H3; split; try reflexivity; cbn [List.length]; lia.
Qed.

(** *** The whole tick and the player's health *)

Lemma updateEntities_player :
  forall w,
    let w' := updateEntities w in
    (Player.health (player w') <= Player.health (player w))%Z
    /\ Player.bulletDamageMultiplier (player w')
       = (if (Player.damageBoostEndTime (player w) >? Date_now (clockReads w))%Z
          then DAMAGE_BOOST_MULTIPLIER else 1)
    /\ Player.damageBoostEndTime (player w')
       = Player.damageBoostEndTime (player w)
    /\ Display.healthValueText (display w')
       = Z.max 0 (Player.health (player w)).
Proof.
  intros w w'. subst w'. unfold updateEntities.
  destruct (Player_update_player w) as (Hh & _ & Hd & Hm).
  pose proof (Player_update_healthValueText w) as Hshown.
  set (w1 := Player_update w) in *.
  set (w2 := set_bullets (map Bullet_update (bullets w1)) w1).
  pose proof (zombies_forEach_step (zombies w2) w2)
    as (Hp & Hle & Hdisp & _ & _).
  destruct (zombies_forEach (zombies w2) w2) as [zs w3].
  cbn [snd] in Hp, Hle, Hdisp. wsimpl.
  change (player w2) with (player w1) in *.
  change (display w2) with (display w1) in *.
  rewrite Hp. wsimpl.
  split; [lia|]. split; [exact Hm|]. split; [exact Hd|]. congruence.
Qed.

Lemma itemPhase_step : forall w, item_step w (itemPhase w).
Proof.
  intros w. unfold itemPhase.
  pose proof (items_filter_step (items w) w) as Hs.
  destruct (items_filter (items w) w) as [its w1]. cbn [snd] in Hs.
  unfold item_step in *. wsimpl. exact Hs.
Qed.

Lemma checkGameOver_player : forall w, player (checkGameOver w) = player w.
Proof.
  intros w. unfold checkGameOver.
  destruct (_ <=? _)%Z; [apply gameOver_player|reflexivity].
Qed.

Lemma checkGameOver_healthValueText :
  forall w,
    Display.healthValueText (display (checkGameOver w))
    = Display.healthValueText (display w).
Proof.
  intros w. unfold checkGameOver.
  destruct (_ <=? _)%Z; [apply gameOver_healthValueText|reflexivity].
Qed.

Lemma checkGameOver_dead :
  forall w,
    (Player.health (player w) <= 0)%Z -> isGameOver (checkGameOver w) = true.
Proof.
  intros w Hdead. unfold checkGameOver.
  destruct (Z.leb_spec (Player.health (player w)) 0); [|lia].
  apply gameOver_isGameOver.
Qed.

(** C2 (amended).  A tick that starts with the player's health at or below
    the maximum of 100 ends with it at or below 100.  The page shows
    [max 0 health] of the health that [Player.update] found, a value
    between 0 and 100.  The stored health has no lower clamp; what holds
    instead is that a stored health of zero or less after the update means
    the game is over. *)
Theorem player_health_after_tick :
  forall (w : World),
    (Player.health (player w) <= MAX_HEALTH)%Z ->
    let w' := updateGame w in
    (Player.health (player w') <= MAX_HEALTH)%Z
    /\ (isGameOver w = false ->
        Display.healthValueText (display w')
        = Z.max 0 (Player.health (player w))
        /\ (0 <= Display.healthValueText (display w') <= MAX_HEALTH)%Z)
    /\ ((Player.health (player w') <= 0)%Z -> isGameOver w' = true).
Proof.
  intros w Hmax w'. subst w'. unfold updateGame.
  destruct (isGameOver w) eqn:Hover.
  { split; [exact Hmax|]. split; [discriminate|]. intros _. exact Hover. }
  set (w1 := spawnPhase w).
  set (w2 := updateEntities w1).
  set (w3 := itemPhase w2).
  set (w4 := collisionPhase w3).
  assert (H1 : player w1 = player w) by apply spawnPhase_player.
  destruct (updateEntities_player w1) as (H2 & _ & _ & H2d). fold w2 in H2, H2d.
  destruct (itemPhase_step w2) as (_ & _ & _ & _ & H3 & H3d & _).
  fold w3 in H3, H3d.
  destruct (collisionPhase_spec w3) as (_ & _ & H4 & H4d & _).
  fold w4 in H4, H4d.
  rewrite checkGameOver_player, checkGameOver_healthValueText.
  rewrite H4, H4d, H3d, H2d, H1.
  split; [apply H3; rewrite H1 in H2; lia|].
  split; [intros _; split; [reflexivity|unfold MAX_HEALTH in *; lia]|].
  intros Hdead. apply checkGameOver_dead. rewrite H4. exact Hdead.
Qed.

(** *** Item expiry and collection *)

Lemma playerTouches_ext :
  forall p p' item,
    Player.x p' = Player.x p ->
    Player.y p' = Player.y p ->
    Player.size p' = Player.size p ->
    playerTouches p' item = playerTouches p item.
Proof.
  intros p p' item Hx Hy Hs. unfold playerTouches. rewrite Hx, Hy, Hs.
  reflexivity.
Qed.

Lemma itemCallback_expired :
  forall item w,
    (Date_now (clockReads w) - Item.creationTime item > ITEM_LIFETIME)%Z ->
    itemCallback item w = (false, snd (readClock w)).
Proof.
  intros item w Hexp. unfold itemCallback. wsimpl.
  destruct (Z.gtb_spec (Date_now (clockReads w) - Item.creationTime item)
              ITEM_LIFETIME); [reflexivity|lia].
Qed.

Lemma itemCallback_collected :
  forall item w,
    (Date_now (clockReads w) - Item.creationTime item <= ITEM_LIFETIME)%Z ->
    playerTouches (player w) item = true ->
    itemCallback item w
    = (false, Player_applyUpgrade (Item.type item) (snd (readClock w))).
Proof.
  intros item w Hexp Ht. unfold itemCallback. wsimpl.
  destruct (Z.gtb_spec (Date_now (clockReads w) - Item.creationTime item)
              ITEM_LIFETIME); [lia|].
  rewrite Ht. reflexivity.
Qed.

Lemma itemCallback_keep :
  forall item w,
    fst (itemCallback item w)
    = itemSurvives (Date_now (clockReads w)) (player w) item.
Proof.
  intros item w. unfold itemCallback, itemSurvives. wsimpl.
  destruct (_ >? _)%Z; [reflexivity|].
  destruct (playerTouches (player w) item); reflexivity.
Qed.

Lemma items_filter_at :
  forall its w now,
    (forall n, (clockReads w <= n)%nat -> Date_now n = now) ->
    fst (items_filter its w) = filter (itemSurvives now (player w)) its.
Proof.
  induction its as [|item rest IH]; intros w now Hclock; [reflexivity|].
  cbn [items_filter filter].
  pose proof (itemCallback_keep item w) as Hkeep.
  pose proof (itemCallback_step item w) as Hstep.
  destruct (itemCallback item w) as [keep w1]. cbn [fst snd] in Hkeep, Hstep.
  destruct Hstep as (Hx & Hy & Hs & _ & _ & _ & Hc).
  rewrite (Hclock (clockReads w) (le_n _)) in Hkeep.
  assert (Hrest : fst (items_filter rest w1)
                  = filter (itemSurvives now (player w)) rest).
  { rewrite (IH w1 now) by (intros n Hn; apply Hclock; lia).
    apply filter_ext. intros it. unfold itemSurvives.
    rewrite (playerTouches_ext (player w) (player w1) it Hx Hy Hs).
    reflexivity. }
  destruct (items_filter rest w1) as [rest' w2]. cbn [fst] in Hrest |- *.
  rewrite <- Hkeep, Hrest. reflexivity.
Qed.

Lemma itemPhase_items :
  forall w, items (itemPhase w) = fst (items_filter (items w) w).
Proof.
  intros w. unfold itemPhase.
  destruct (items_filter (items w) w) as [its w1]. reflexivity.
Qed.

Lemma spawnPhase_items : forall w, items (spawnPhase w) = items w.
Proof.
  intros w. unfold spawnPhase, spawnZombie. wsimpl. split_ifs; reflexivity.
Qed.

Lemma updateEntities_items :
  forall w,
    items (updateEntities w) = items w
    /\ (clockReads w <= clockReads (updateEntities w))%nat.
Proof.
  intros w. unfold updateEntities.
  destruct (Player_update_items w) as [Hi Hc].
  set (w1 := Player_update w) in *.
  set (w2 := set_bullets (map Bullet_update (bullets w1)) w1).
  pose proof (zombies_forEach_step (zombies w2) w2) as (_ & _ & _ & Hi2 & Hc2).
  destruct (zombies_forEach (zombies w2) w2) as [zs w3].
  cbn [snd] in Hi2, Hc2. wsimpl.
  change (items w2) with (items w1) in Hi2.
  change (clockReads w2) with (clockReads w1) in Hc2.
  split; [congruence|lia].
Qed.

Lemma checkGameOver_items : forall w, items (checkGameOver w) = items w.
Proof.
  intros w. unfold checkGameOver.
  destruct (_ <=? _)%Z; [apply gameOver_items|reflexivity].
Qed.

(** The items after a whole tick: those the item phase left, followed by
    what the zombies killed in the tick dropped. *)
Lemma updateGame_items :
  forall w,
    isGameOver w = false ->
    let w2 := updateEntities (spawnPhase w) in
    items w2 = items w
    /\ (clockReads w <= clockReads w2)%nat
    /\ exists drops,
         items (updateGame w) = items (itemPhase w2) ++ drops
         /\ Forall
              (fun item =>
                 exists n, (clockReads w <= n)%nat
                           /\ Item.creationTime item = Date_now n)
              drops.
Proof.
  intros w Hrun w2. unfold updateGame. rewrite Hrun. fold w2.
  destruct (updateEntities_items (spawnPhase w)) as [Hi Hc].
  fold w2 in Hi, Hc. rewrite spawnPhase_items in Hi.
  rewrite spawnPhase_clockReads in Hc.
  destruct (itemPhase_step w2) as (_ & _ & _ & _ & _ & _ & Hc3).
  destruct (collisionPhase_drops (itemPhase w2)) as (_ & drops & Hd & Hf).
  split; [exact Hi|]. split; [lia|].
  exists drops. rewrite checkGameOver_items. split; [exact Hd|].
  eapply Forall_impl; [|exact Hf].
  intros item (n & Hn & Ht). exists n. split; [lia|exact Ht].
Qed.

(** C3 (amended).  In a tick that runs at time [now], the items left by the
    item phase are those that have not expired and that the player does not
    touch.  An item expires once its remaining lifetime
    [ITEM_LIFETIME - (now - creationTime)] is below zero; the test comes
    first in the callback, so an expired item is removed without being
    collected.  At a remaining lifetime of exactly zero the item is still
    there.  Scenario D: an item created at [t0] is present at [t0 + 14999]
    if the player does not touch it and collected if it does, and it is
    absent at [t0 + 15001]; the same holds of the collection after the
    whole tick, where "touch" is judged where the player stands after its
    move in that tick. *)
Theorem item_expiry :
  forall (w : World) (now : Z),
    (forall n, (clockReads w <= n)%nat -> Date_now n = now) ->
    let w' := itemPhase w in
    items w' = filter (itemSurvives now (player w)) (items w)
    /\ (forall item,
          (ITEM_LIFETIME - (now - Item.creationTime item) < 0)%Z ->
          ~ In item (items w')
          /\ itemCallback item w = (false, snd (readClock w)))
    /\ (forall item t0,
          In item (items w) ->
          Item.creationTime item = t0 ->
          ((now = t0 + 14999 \/ now = t0 + 15000)%Z ->
           (playerTouches (player w) item = false -> In item (items w'))
           /\ (playerTouches (player w) item = true ->
               itemCallback item w
               = (false,
                  Player_applyUpgrade (Item.type item) (snd (readClock w)))))
          /\ ((now = t0 + 15001)%Z -> ~ In item (items w')))
    /\ (isGameOver w = false ->
        forall item t0,
          In item (items w) ->
          Item.creationTime item = t0 ->
          ((now = t0 + 14999 \/ now = t0 + 15000)%Z ->
           playerTouches (player (updateEntities (spawnPhase w))) item = false ->
           In item (items (updateGame w)))
          /\ ((now = t0 + 15001)%Z -> ~ In item (items (updateGame w)))).
Proof.
  intros w now Hclock w'. subst w'.
  assert (Htick :
            isGameOver w = false ->
            forall item t0,
              In item (items w) ->
              Item.creationTime item = t0 ->
              ((now = t0 + 14999 \/ now = t0 + 15000)%Z ->
               playerTouches (player (updateEntities (spawnPhase w))) item
               = false ->
               In item (items (updateGame w)))
              /\ ((now = t0 + 15001)%Z -> ~ In item (items (updateGame w)))).
  { intros Hrun item t0 Hin Ht0.
    destruct (updateGame_items w Hrun) as (Hi2 & Hc2 & drops & Hd & Hf).
    set (w2 := updateEntities (spawnPhase w)) in *.
    assert (Hitems2 : items (itemPhase w2)
                      = filter (itemSurvives now (player w2)) (items w)).
    { rewrite itemPhase_items, <- Hi2. apply items_filter_at.
      intros n Hn. apply Hclock. lia. }
    rewrite Hd, Hitems2. split.
    - intros Hat Hfar. apply in_or_app. left. apply filter_In.
      split; [exact Hin|]. unfold itemSurvives. rewrite Hfar.
      cbn [negb andb].
      destruct (Z.gtb_spec (now - Item.creationTime item) ITEM_LIFETIME);
        [unfold ITEM_LIFETIME in *; lia|reflexivity].
    - intros Hat Hin'. apply in_app_or in Hin'. destruct Hin' as [Hin'|Hin'].
      + apply filter_In in Hin'. destruct Hin' as [_ Hs].
        unfold itemSurvives in Hs.
        destruct (Z.gtb_spec (now - Item.creationTime item) ITEM_LIFETIME);
          [discriminate|unfold ITEM_LIFETIME in *; lia].
      + rewrite Forall_forall in Hf. destruct (Hf item Hin') as (n & Hn & Ht).
        rewrite (Hclock n Hn) in Ht. lia. }
  match goal with
  | |- ?A /\ ?B /\ ?C /\ ?D =>
      cut (A /\ B /\ C); [intros (Ha & Hb & Hc); auto|]
  end.
  assert (Hitems : items (itemPhase w)
                   = filter (itemSurvives now (player w)) (items w)).
  { rewrite itemPhase_items. apply items_filter_at. exact Hclock. }
  assert (Hnow : Date_now (clockReads w) = now) by (apply Hclock; lia).
  assert (Hgone : forall item,
             (now - Item.creationTime item > ITEM_LIFETIME)%Z ->
             ~ In item (items (itemPhase w))).
  { intros item Hexp Hin. rewrite Hitems in Hin.
    apply filter_In in Hin. destruct Hin as [_ Hs].
    unfold itemSurvives in Hs.
    destruct (Z.gtb_spec (now - Item.creationTime item) ITEM_LIFETIME);
      [discriminate|lia]. }
  split; [exact Hitems|]. split.
  - intros item Hrem. split; [apply Hgone; lia|].
    apply itemCallback_expired. rewrite Hnow. lia.
  - intros item t0 Hin Ht0. split.
    + intros Hat. split.
      * intros Hfar. rewrite Hitems. apply filter_In. split; [exact Hin|].
        unfold itemSurvives. rewrite Hfar. cbn [negb andb].
        destruct (Z.gtb_spec (now - Item.creationTime item) ITEM_LIFETIME);
          [unfold ITEM_LIFETIME in *; lia|reflexivity].
      * intros Hnear. apply itemCallback_collected; [|exact Hnear].
        rewrite Hnow. unfold ITEM_LIFETIME. lia.
    + intros Hat. apply Hgone. unfold ITEM_LIFETIME. lia.
Qed.

(** *** Restart *)

(** C9.  [initGame] run twice in a row leaves the same session as run once:
    the second run changes nothing of the session that the first produced.
    That session has the game running, score 0, no bullets, zombies or
    items, the spawn timer at 0, released keys and mouse button, an idle
    joystick, and a new player of size 20 with full health (100), no
    upgrade and the default shot delay, whose coordinates are half the
    width and half the height of the canvas: it stands at the centre. *)
Theorem initGame_idempotent :
  forall (w : World),
    session (initGame (initGame w)) = session (initGame w)
    /\ score (initGame w) = 0%Z
    /\ bullets (initGame w) = []
    /\ zombies (initGame w) = []
    /\ items (initGame w) = []
    /\ lastZombieSpawnTime (initGame w) = 0%Z
    /\ isGameOver (initGame w) = false
    /\ player (initGame w)
       = Player_new (canvas_width w / 2) (canvas_height w / 2) PLAYER_SIZE
    /\ Player.health (player (initGame w)) = 100%Z
    /\ canvas_width (initGame w) = canvas_width w
    /\ canvas_height (initGame w) = canvas_height w
    /\ Player.x (player (initGame w)) = canvas_width w / 2
    /\ Player.y (player (initGame w)) = canvas_height w / 2
    /\ Player.size (player (initGame w)) = 20
    /\ player (initGame w)
       = Player.mk (canvas_width w / 2) (canvas_height w / 2) 20 100
           "#00ffff" 0 0 0 200 200 1
    /\ keys (initGame w)
       = Keys.mk false false false false false false false false
    /\ mouse (initGame w) = Mouse.mk 0 0 false
    /\ Joystick.active (joystickState (initGame w)) = false
    /\ Joystick.dx (joystickState (initGame w)) = 0
    /\ Joystick.dy (joystickState (initGame w)) = 0.
Proof.
  intros w. destruct w as [cw ch id pend next over p bs zs its sc last
                            ks ms js touch d reads draws].
  destruct id as [[|h]|], next as [|next];
    cbv -[Qdiv Date_now Z.gtb Z.sub Z.div Z.max];
    repeat split; reflexivity.
Qed.

(** *** Firing *)

(** C7.  When the shot cooldown has elapsed, one call of [shoot] with
    triple-shot active appends exactly three bullets, headed
    [angle - 0.35], [angle] and [angle + 0.35] for the aim angle [angle],
    that is -0.35, 0 and 0.35 when the aim angle is 0; with triple-shot
    not active it appends exactly one bullet, headed along the aim angle.
    The velocity of a bullet made for a heading [a] is
    [(cos a * BULLET_SPEED, sin a * BULLET_SPEED)]. *)
Theorem shoot_bullets :
  forall (w : World),
    let p := player w in
    let now := Date_now (clockReads w) in
    let angle :=
      Math_atan2 (Mouse.y (mouse w) - Player.y p)
                 (Mouse.x (mouse w) - Player.x p) in
    (now - Player.lastShotTime p > Player.currentShotDelay p)%Z ->
    ((Player.tripleShotEndTime p > now)%Z ->
     bullets (Player_shoot w)
     = bullets w ++ [bulletAlong p (angle - 0.35); bulletAlong p angle;
                     bulletAlong p (angle + 0.35)])
    /\ ((Player.tripleShotEndTime p > now)%Z -> angle = 0 ->
        bullets (Player_shoot w)
        = bullets w ++ [bulletAlong p (-0.35); bulletAlong p 0;
                        bulletAlong p 0.35])
    /\ (~ (Player.tripleShotEndTime p > now)%Z ->
        bullets (Player_shoot w) = bullets w ++ [bulletAlong p angle])
    /\ (forall a,
          Bullet.vx (bulletAlong p a) = Math_cos a * BULLET_SPEED
          /\ Bullet.vy (bulletAlong p a) = Math_sin a * BULLET_SPEED).
Proof.
  intros w p now angle Hcool.
  assert (Htriple :
            (Player.tripleShotEndTime p > now)%Z ->
            bullets (Player_shoot w)
            = bullets w ++ [bulletAlong p (angle - 0.35); bulletAlong p angle;
                            bulletAlong p (angle + 0.35)]).
  { intros Hact. unfold Player_shoot, Player__createBullet. wsimpl.
    fold p. fold now.
    destruct (Z.gtb_spec (now - Player.lastShotTime p)
                (Player.currentShotDelay p)); [|lia].
    destruct (Z.gtb_spec (Player.tripleShotEndTime p) now); [|lia].
    cbn [negb]. wsimpl. rewrite <- !app_assoc. reflexivity. }
  split; [exact Htriple|]. split; [|split].
  - intros Hact Hzero. rewrite (Htriple Hact), Hzero. reflexivity.
  - intros Hoff. unfold Player_shoot, Player__createBullet. wsimpl.
    fold p. fold now.
    destruct (Z.gtb_spec (now - Player.lastShotTime p)
                (Player.currentShotDelay p)); [|lia].
    destruct (Z.gtb_spec (Player.tripleShotEndTime p) now); [lia|].
    cbn [negb]. wsimpl. reflexivity.
  - intros a. split; reflexivity.
Qed.

(** *** The damage boost *)

Lemma applyUpgrade_damage_boost :
  forall w,
    let w' := Player_applyUpgrade "damage_boost" w in
    Player.damageBoostEndTime (player w')
    = (Date_now (clockReads w) + UPGRADE_DURATION)%Z
    /\ Player.bulletDamageMultiplier (player w')
       = Player.bulletDamageMultiplier (player w).
Proof.
  intros w w'. subst w'. unfold Player_applyUpgrade.
  change (String.eqb "damage_boost" "health_pack") with false.
  change (String.eqb "damage_boost" "triple_shot") with false.
  change (String.eqb "damage_boost" "damage_boost") with true.
  wsimpl. split; reflexivity.
Qed.

Lemma boosted_damage :
  forall zombie,
    Zombie.health (damaged DAMAGE_BOOST_MULTIPLIER zombie)
    == Zombie.health zombie - 15.
Proof.
  intros zombie. unfold damaged, DAMAGE_BOOST_MULTIPLIER. wsimpl. lra.
Qed.

(** C6.  Collecting a [damage_boost] item sets [damageBoostEndTime] to the
    time of collection (the clock [applyUpgrade] reads) plus
    [UPGRADE_DURATION], which is 10000 ms.  [Player.update] run at an
    instant strictly before that timestamp sets the multiplier to 1.5, and
    run at or after it sets the multiplier to 1.  At multiplier 1.5 a hit
    deals 15: a zombie at health 30 survives the first hit with health 15
    and is removed, for 10 points, by the second. *)
Theorem damage_boost_round_trip :
  forall (w : World) (item : Item.t),
    Item.type item = "damage_boost"%string ->
    (Date_now (clockReads w) - Item.creationTime item <= ITEM_LIFETIME)%Z ->
    playerTouches (player w) item = true ->
    let collectionTime := Date_now (S (clockReads w)) in
    let w' := snd (itemCallback item w) in
    fst (itemCallback item w) = false
    /\ Player.damageBoostEndTime (player w')
       = (collectionTime + UPGRADE_DURATION)%Z
    /\ UPGRADE_DURATION = 10000%Z
    /\ (forall w1 : World,
          Player.damageBoostEndTime (player w1)
          = Player.damageBoostEndTime (player w') ->
          let now := Date_now (clockReads w1) in
          ((now < collectionTime + UPGRADE_DURATION)%Z ->
           Player.bulletDamageMultiplier (player (Player_update w1)) = 1.5)
          /\ ((collectionTime + UPGRADE_DURATION <= now)%Z ->
              Player.bulletDamageMultiplier (player (Player_update w1)) = 1))
    /\ (forall (w2 : World) (bullet : Bullet.t) (zombie : Zombie.t)
               (hit : bool),
          Player.bulletDamageMultiplier (player w2) = 1.5 ->
          bulletTouches bullet zombie = true ->
          Zombie.health (damaged 1.5 zombie) == Zombie.health zombie - 15
          /\ (Zombie.health zombie == 30 ->
              zombieCallback bullet zombie hit w2
              = (Some (damaged 1.5 zombie), true, w2)
              /\ Zombie.health (damaged 1.5 zombie) == 15)
          /\ (Zombie.health zombie == 15 ->
              fst (fst (zombieCallback bullet zombie hit w2)) = None
              /\ score (snd (zombieCallback bullet zombie hit w2))
                 = (score w2 + 10)%Z)).
Proof.
  intros w item Hty Hfresh Hnear collectionTime w'. subst w'.
  rewrite (itemCallback_collected item w Hfresh Hnear), Hty. cbn [fst snd].
  assert (Hend :
            Player.damageBoostEndTime
              (player (Player_applyUpgrade "damage_boost" (snd (readClock w))))
            = (collectionTime + UPGRADE_DURATION)%Z)
    by apply applyUpgrade_damage_boost.
  split; [reflexivity|]. split; [exact Hend|]. split; [reflexivity|]. split.
  - intros w1 Hsame. rewrite Hend in Hsame.
    set (now := Date_now (clockReads w1)).
    destruct (Player_update_player w1) as (_ & _ & _ & Hm).
    rewrite Hm, Hsame. fold now. split; intros Hnow.
    + destruct (Z.gtb_spec (collectionTime + UPGRADE_DURATION) now);
        [reflexivity|lia].
    + destruct (Z.gtb_spec (collectionTime + UPGRADE_DURATION) now);
        [lia|reflexivity].
  - intros w2 bullet zombie hit Hm Ht.
    pose proof (boosted_damage zombie) as Hdmg.
    change DAMAGE_BOOST_MULTIPLIER with 1.5 in Hdmg.
    split; [exact Hdmg|]. split.
    + intros Hh. split; [|lra].
      rewrite zombieCallback_wound; rewrite ?Hm; auto.
      apply not_true_is_false. intros Hle. apply Qle_bool_iff in Hle. lra.
    + intros Hh. apply zombieCallback_kill; rewrite ?Hm; auto.
      apply Qle_bool_iff. lra.
Qed.

Lemma checkGameOver_zombies :
  forall w, zombies (checkGameOver w) = zombies w.
Proof.
  intros w. unfold checkGameOver, gameOver, cancelAnimationFrame. wsimpl.
  destruct (_ <=? _)%Z; [|reflexivity].
  destruct (gameLoopId w); reflexivity.
Qed.

(** The multiplier that a tick applies is fixed by the end-timestamp the
    tick starts with and the clock that [Player.update] reads. *)
Lemma updateGame_multiplier :
  forall w,
    isGameOver w = false ->
    let m :=
      if (Player.damageBoostEndTime (player w) >? Date_now (S (clockReads w)))%Z
      then DAMAGE_BOOST_MULTIPLIER else 1 in
    let w2 := updateEntities (spawnPhase w) in
    let w3 := itemPhase w2 in
    Player.bulletDamageMultiplier (player w2) = m
    /\ Player.bulletDamageMultiplier (player w3) = m
    /\ zombies (updateGame w) = afterBullets m (bullets w3) (zombies w3)
    /\ player (updateGame w) = player w3.
Proof.
  intros w Hrun m w2 w3. unfold updateGame. rewrite Hrun.
  fold w2. fold w3.
  destruct (updateEntities_player (spawnPhase w)) as (_ & Hm2 & _ & _).
  rewrite spawnPhase_player, spawnPhase_clockReads in Hm2.
  fold w2 in Hm2. fold m in Hm2.
  destruct (itemPhase_step w2) as (_ & _ & _ & Hm3 & _).
  fold w3 in Hm3. rewrite Hm2 in Hm3.
  destruct (collisionPhase_spec w3) as (Hz & _ & Hp & _).
  rewrite Hm3 in Hz.
  rewrite checkGameOver_zombies, checkGameOver_player.
  repeat split; assumption.
Qed.

Lemma itemPhase_collects_boost :
  forall w item,
    items w = [item] ->
    Item.type item = "damage_boost"%string ->
    (Date_now (clockReads w) - Item.creationTime item <= ITEM_LIFETIME)%Z ->
    playerTouches (player w) item = true ->
    Player.damageBoostEndTime (player (itemPhase w))
    = (Date_now (S (clockReads w)) + UPGRADE_DURATION)%Z.
Proof.
  intros w item Hitems Hty Hfresh Hnear.
  unfold itemPhase. rewrite Hitems. cbn [items_filter].
  rewrite (itemCallback_collected item w Hfresh Hnear), Hty.
  wsimpl.
  destruct (applyUpgrade_damage_boost (set_clockReads (S (clockReads w)) w))
    as [Hend _].
  exact Hend.
Qed.

(** C4.  The multiplier applied to every bullet hit of a tick is the one
    [Player.update] computed in that tick, from the end-timestamp the tick
    started with.  The item phase, which runs between [Player.update] and
    the collision phase, leaves the multiplier as it is whatever is
    collected: [applyUpgrade('damage_boost')] writes the end-timestamp
    only.  So a boost collected in tick t does not change the damage dealt
    in tick t; any tick that starts with the end-timestamp ahead of the
    clock [Player.update] reads, as the tick after the collection does,
    applies 1.5. *)
Theorem damage_boost_applies_from_next_tick :
  forall (w : World),
    isGameOver w = false ->
    let m :=
      if (Player.damageBoostEndTime (player w) >? Date_now (S (clockReads w)))%Z
      then DAMAGE_BOOST_MULTIPLIER else 1 in
    let w2 := updateEntities (spawnPhase w) in
    let w3 := itemPhase w2 in
    let w' := updateGame w in
    Player.bulletDamageMultiplier (player w2) = m
    /\ Player.bulletDamageMultiplier (player w3) = m
    /\ zombies w' = afterBullets m (bullets w3) (zombies w3)
    /\ Player.bulletDamageMultiplier (player w') = m
    /\ (forall w0 : World,
          let w1 := Player_applyUpgrade "damage_boost" w0 in
          Player.damageBoostEndTime (player w1)
          = (Date_now (clockReads w0) + UPGRADE_DURATION)%Z
          /\ Player.bulletDamageMultiplier (player w1)
             = Player.bulletDamageMultiplier (player w0))
    /\ (forall item : Item.t,
          items w2 = [item] ->
          Item.type item = "damage_boost"%string ->
          (Date_now (clockReads w2) - Item.creationTime item
           <= ITEM_LIFETIME)%Z ->
          playerTouches (player w2) item = true ->
          Player.damageBoostEndTime (player w')
          = (Date_now (S (clockReads w2)) + UPGRADE_DURATION)%Z)
    /\ (forall v : World,
          isGameOver v = false ->
          (Player.damageBoostEndTime (player v)
           > Date_now (S (clockReads v)))%Z ->
          let v3 := itemPhase (updateEntities (spawnPhase v)) in
          Player.bulletDamageMultiplier (player v3) = DAMAGE_BOOST_MULTIPLIER
          /\ zombies (updateGame v)
             = afterBullets DAMAGE_BOOST_MULTIPLIER (bullets v3) (zombies v3)).
Proof.
  intros w Hrun m w2 w3 w'.
  destruct (updateGame_multiplier w Hrun) as (Hm2 & Hm3 & Hz & Hp).
  fold m in Hm2, Hm3, Hz. fold w2 in Hm2, Hm3, Hz, Hp.
  fold w3 in Hm3, Hz, Hp. fold w' in Hz, Hp.
  split; [exact Hm2|]. split; [exact Hm3|]. split; [exact Hz|].
  split; [rewrite Hp; exact Hm3|].
  split; [intros w0; apply applyUpgrade_damage_boost|]. split.
  - intros item Hitems Hty Hfresh Hnear. rewrite Hp.
    exact (itemPhase_collects_boost w2 item Hitems Hty Hfresh Hnear).
  - intros v Hrun' Hact v3.
    destruct (updateGame_multiplier v Hrun') as (_ & Hm' & Hz' & _).
    fold v3 in Hm', Hz'. rewrite Hm', Hz'.
    destruct (Z.gtb_spec (Player.damageBoostEndTime (player v))
                (Date_now (S (clockReads v)))); [split; reflexivity|lia].
Qed.


(** *** What each step leaves alone, in full *)

(** Every setter and projection of the world, unfolded at once; for goals
    about a world given by its fields. *)
Ltac wcbv :=
  cbv [erase_attack erase_pickup erase_move
       attack_frame pickup_frame move_frame
       fst snd
       canvas_width canvas_height gameLoopId pendingFrames nextFrameHandle
       isGameOver player bullets zombies items score lastZombieSpawnTime
       keys mouse joystickState activeJoystickTouchId display clockReads
       randomDraws
       set_canvas set_scheduler set_isGameOver set_player set_bullets
       set_zombies set_items set_score set_lastZombieSpawnTime set_keys
       set_mouse set_joystick set_display set_clockReads set_randomDraws
       Player.x Player.y Player.size Player.health Player.color
       Player.lastShotTime Player.tripleShotEndTime Player.damageBoostEndTime
       Player.currentShotDelay Player.defaultShotDelay
       Player.bulletDamageMultiplier
       Player.set_pos Player.set_health Player.set_lastShotTime
       Player.set_tripleShotEndTime Player.set_damageBoostEndTime
       Player.set_currentShotDelay Player.set_bulletDamageMultiplier
       Display.scoreText Display.healthValueText Display.healthBarValue
       Display.healthBarAccent Display.weaponStatus Display.messagesVisible
       Display.messageScore
       Mouse.x Mouse.y Mouse.isFiring
       readClock drawRandom requestAnimationFrame cancelAnimationFrame].

Lemma gameOver_attack_frame : forall w, attack_frame w (gameOver w).
Proof.
  intros w. destruct w as [cw ch id pend next over p bs zs its sc last
                            ks ms js touch d reads draws].
  unfold gameOver. wcbv. destruct id; reflexivity.
Qed.

Lemma Zombie_attackPlayer_frame :
  forall z w, attack_frame w (snd (Zombie_attackPlayer z w)).
Proof.
  intros z w. unfold Zombie_attackPlayer.
  destruct w as [cw ch id pend next over p bs zs its sc last
                   ks ms js touch d reads draws].
  unfold gameOver. wcbv.
  destruct (_ >? _)%Z; [|reflexivity].
  destruct (_ <=? _)%Z; [|reflexivity].
  destruct id; reflexivity.
Qed.

Lemma zombies_forEach_frame :
  forall zs w, attack_frame w (snd (zombies_forEach zs w)).
Proof.
  induction zs as [|z rest IH]; intros w; cbn [zombies_forEach].
  - reflexivity.
  - assert (Hz : attack_frame w (snd (Zombie_update z w))).
    { unfold Zombie_update. destruct (Qltb _ _);
        [apply Zombie_attackPlayer_frame|reflexivity]. }
    destruct (Zombie_update z w) as [z' w1]. cbn [snd] in Hz.
    specialize (IH w1).
    destruct (zombies_forEach rest w1) as [rest' w2]. cbn [snd] in IH |- *.
    unfold attack_frame in *. congruence.
Qed.

Lemma Player_applyUpgrade_frame :
  forall type w, pickup_frame w (Player_applyUpgrade type w).
Proof.
  intros type w. unfold Player_applyUpgrade.
  destruct w as [cw ch id pend next over p bs zs its sc last
                   ks ms js touch d reads draws].
  wcbv. split_ifs; reflexivity.
Qed.

Lemma itemCallback_frame :
  forall item w, pickup_frame w (snd (itemCallback item w)).
Proof.
  intros item w. unfold itemCallback. wsimpl.
  assert (Hread : pickup_frame w (set_clockReads (S (clockReads w)) w))
    by reflexivity.
  destruct (_ >? _)%Z; [exact Hread|].
  destruct (playerTouches _ _); cbn [snd]; [|exact Hread].
  pose proof (Player_applyUpgrade_frame (Item.type item)
                (set_clockReads (S (clockReads w)) w)) as Hup.
  unfold pickup_frame in *. congruence.
Qed.

Lemma items_filter_frame :
  forall its w, pickup_frame w (snd (items_filter its w)).
Proof.
  induction its as [|item rest IH]; intros w; cbn [items_filter].
  - reflexivity.
  - pose proof (itemCallback_frame item w) as Hi.
    destruct (itemCallback item w) as [keep w1]. cbn [snd] in Hi.
    specialize (IH w1).
    destruct (items_filter rest w1) as [rest' w2]. cbn [snd] in IH |- *.
    unfold pickup_frame in *. congruence.
Qed.

Lemma Player_update_frame : forall w, move_frame w (Player_update w).
Proof.
  intros w. destruct (Player_update_shape w) as [p' Hshape].
  assert (Hp : forall f : Player.t -> Z,
             (f = Player.health \/ f = Player.tripleShotEndTime
              \/ f = Player.damageBoostEndTime) ->
             f (player (Player_update w)) = f (player w)).
  { intros f Hf. destruct (Player_update_player w) as (Hh & Ht & Hd & _).
    destruct Hf as [->|[->| ->]]; assumption. }
  assert (Hsz : Player.size (player (Player_update w)) = Player.size (player w)
                /\ Player.color (player (Player_update w))
                   = Player.color (player w)
                /\ Player.defaultShotDelay (player (Player_update w))
                   = Player.defaultShotDelay (player w)).
  { unfold Player_update. wsimpl.
    repeat match goal with
      | |- context [let '(_, _) := ?e in _] => destruct e
      end.
    rewrite updateStatsDisplay_player.
    destruct (Mouse.isFiring (mouse w)).
    - rewrite Player_shoot_player. wsimpl. auto.
    - wsimpl. auto. }
  destruct Hsz as (Hsize & Hcolor & Hdef).
  pose proof (Hp Player.health (or_introl eq_refl)) as Hh.
  pose proof (Hp Player.tripleShotEndTime (or_intror (or_introl eq_refl)))
    as Ht.
  pose proof (Hp Player.damageBoostEndTime (or_intror (or_intror eq_refl)))
    as Hd.
  unfold move_frame, erase_move.
  rewrite Hh, Ht, Hd, Hsize, Hcolor, Hdef. clear Hp Hh Ht Hd Hsize Hcolor Hdef.
  rewrite Hshape. clear Hshape.
  destruct w as [cw ch id pend next over p bs zs its sc last
                   ks ms js touch d reads draws].
  unfold updateStatsDisplay, Player_shoot, Player__createBullet. wcbv.
  destruct (let (_, _, isFiring) := ms in isFiring); [|reflexivity].
  split_ifs; reflexivity.
Qed.


(** A relation that every zombie's update respects is respected by
    [zombies.forEach]. *)
Lemma zombies_forEach_rel :
  forall R : World -> World -> Prop,
    (forall w, R w w) ->
    (forall w1 w2 w3, R w1 w2 -> R w2 w3 -> R w1 w3) ->
    (forall z w, R w (snd (Zombie_update z w))) ->
    forall zs w, R w (snd (zombies_forEach zs w)).
Proof.
  intros R Hrefl Htrans Hstep.
  induction zs as [|z rest IH]; intros w; cbn [zombies_forEach].
  - apply Hrefl.
  - pose proof (Hstep z w) as Hz.
    destruct (Zombie_update z w) as [z' w1]. cbn [snd] in Hz.
    specialize (IH w1).
    destruct (zombies_forEach rest w1) as [rest' w2]. cbn [snd] in IH |- *.
    eapply Htrans; eassumption.
Qed.

Lemma gameOver_pendingFrames :
  forall w, incl (pendingFrames (gameOver w)) (pendingFrames w).
Proof.
  intros w. unfold gameOver, cancelAnimationFrame. wsimpl.
  destruct (gameLoopId w) as [h|]; wsimpl; [|apply incl_refl].
  intros x Hx. apply in_remove in Hx. tauto.
Qed.

Lemma zombies_forEach_pendingFrames :
  forall zs w,
    incl (pendingFrames (snd (zombies_forEach zs w))) (pendingFrames w).
Proof.
  apply (zombies_forEach_rel
           (fun w w' => incl (pendingFrames w') (pendingFrames w))).
  - intros w. apply incl_refl.
  - intros w1 w2 w3 H12 H23. eapply incl_tran; eassumption.
  - intros z w. unfold Zombie_update, Zombie_attackPlayer. wsimpl.
    destruct (Qltb _ _); [|apply incl_refl].
    destruct (_ >? _)%Z; [|apply incl_refl].
    destruct (_ <=? _)%Z; [|apply incl_refl]. cbn [snd].
    eapply incl_tran; [apply gameOver_pendingFrames|apply incl_refl].
Qed.

Lemma spawnPhase_fixtures :
  forall w,
    fixtures (spawnPhase w) = fixtures w
    /\ pendingFrames (spawnPhase w) = pendingFrames w
    /\ isGameOver (spawnPhase w) = isGameOver w
    /\ score (spawnPhase w) = score w
    /\ bullets (spawnPhase w) = bullets w
    /\ display (spawnPhase w) = display w.
Proof.
  intros w. unfold spawnPhase, spawnZombie, fixtures. wsimpl.
  split_ifs; repeat split; reflexivity.
Qed.

Lemma updateEntities_frame :
  forall w,
    let w' := updateEntities w in
    fixtures w' = fixtures w
    /\ incl (pendingFrames w') (pendingFrames w)
    /\ score w' = score w
    /\ items w' = items w
    /\ Player.x (player w') = Player.x (player (Player_update w))
    /\ Player.y (player w') = Player.y (player (Player_update w))
    /\ Player.size (player w') = Player.size (player w).
Proof.
  intros w w'. subst w'. unfold updateEntities.
  pose proof (Player_update_frame w) as Hm.
  set (w1 := Player_update w) in *.
  set (w2 := set_bullets (map Bullet_update (bullets w1)) w1).
  pose proof (zombies_forEach_frame (zombies w2) w2) as Ha.
  pose proof (zombies_forEach_pendingFrames (zombies w2) w2) as Hpend.
  destruct (zombies_forEach (zombies w2) w2) as [zs w3].
  cbn [snd] in Ha, Hpend. wsimpl.
  unfold attack_frame in Ha. unfold move_frame in Hm.
  split; [|split; [|split; [|split; [|split; [|split]]]]].
  - apply (f_equal fixtures) in Ha. apply (f_equal fixtures) in Hm.
    exact (eq_trans Ha Hm).
  - apply (f_equal pendingFrames) in Hm.
    change (pendingFrames w1 = pendingFrames w) in Hm.
    rewrite <- Hm. exact Hpend.
  - apply (f_equal score) in Ha. apply (f_equal score) in Hm.
    exact (eq_trans Ha Hm).
  - apply (f_equal items) in Ha. apply (f_equal items) in Hm.
    exact (eq_trans Ha Hm).
  - apply (f_equal (fun v => Player.x (player v))) in Ha. exact Ha.
  - apply (f_equal (fun v => Player.y (player v))) in Ha. exact Ha.
  - apply (f_equal (fun v => Player.size (player v))) in Ha.
    apply (f_equal (fun v => Player.size (player v))) in Hm.
    exact (eq_trans Ha Hm).
Qed.

Lemma itemPhase_frame :
  forall w,
    let w' := itemPhase w in
    fixtures w' = fixtures w
    /\ pendingFrames w' = pendingFrames w
    /\ isGameOver w' = isGameOver w
    /\ score w' = score w
    /\ bullets w' = bullets w
    /\ zombies w' = zombies w
    /\ display w' = display w.
Proof.
  intros w w'. subst w'. unfold itemPhase.
  pose proof (items_filter_frame (items w) w) as Hp.
  destruct (items_filter (items w) w) as [its w1]. cbn [snd] in Hp.
  unfold pickup_frame in Hp. wsimpl.
  split; [|split; [|split; [|split; [|split; [|split]]]]].
  - apply (f_equal fixtures) in Hp. exact Hp.
  - apply (f_equal pendingFrames) in Hp. exact Hp.
  - apply (f_equal isGameOver) in Hp. exact Hp.
  - apply (f_equal score) in Hp. exact Hp.
  - apply (f_equal bullets) in Hp. exact Hp.
  - apply (f_equal zombies) in Hp. exact Hp.
  - apply (f_equal display) in Hp. exact Hp.
Qed.

Lemma collisionPhase_frame :
  forall w,
    let w' := collisionPhase w in
    fixtures w' = fixtures w
    /\ pendingFrames w' = pendingFrames w.
Proof.
  intros w w'. subst w'. unfold collisionPhase.
  pose proof (bullets_filter_spec (bullets w) w) as Hb.
  destruct (bullets_filter (bullets w) w) as [bs w1].
  cbv zeta in Hb. destruct Hb as (_ & _ & Hf).
  unfold collision_frame in Hf. wsimpl. split.
  - apply (f_equal fixtures) in Hf. exact Hf.
  - apply (f_equal pendingFrames) in Hf. exact Hf.
Qed.

Lemma checkGameOver_frame :
  forall w,
    let w' := checkGameOver w in
    fixtures w' = fixtures w
    /\ incl (pendingFrames w') (pendingFrames w)
    /\ score w' = score w
    /\ bullets w' = bullets w.
Proof.
  intros w w'. subst w'. unfold checkGameOver.
  destruct (_ <=? _)%Z.
  - pose proof (gameOver_attack_frame w) as Ha. unfold attack_frame in Ha.
    split; [|split; [|split]].
    + apply (f_equal fixtures) in Ha. exact Ha.
    + apply gameOver_pendingFrames.
    + apply (f_equal score) in Ha. exact Ha.
    + apply (f_equal bullets) in Ha. exact Ha.
  - repeat split. apply incl_refl.
Qed.

Lemma updateGame_fixtures :
  forall w,
    fixtures (updateGame w) = fixtures w
    /\ incl (pendingFrames (updateGame w)) (pendingFrames w).
Proof.
  intros w. unfold updateGame.
  destruct (isGameOver w); [split; [reflexivity|apply incl_refl]|].
  destruct (spawnPhase_fixtures w) as (H1 & P1 & _).
  destruct (updateEntities_frame (spawnPhase w)) as (H2 & P2 & _).
  destruct (itemPhase_frame (updateEntities (spawnPhase w))) as (H3 & P3 & _).
  destruct (collisionPhase_frame
              (itemPhase (updateEntities (spawnPhase w)))) as (H4 & P4).
  destruct (checkGameOver_frame
              (collisionPhase (itemPhase (updateEntities (spawnPhase w)))))
    as (H5 & P5 & _).
  split; [congruence|].
  eapply incl_tran; [exact P5|]. rewrite P4, P3, <- P1. exact P2.
Qed.

(** X1.  A tick writes neither the canvas size nor the input state (keys,
    mouse, joystick) nor the handle of the frame requested last, and it
    requests no frame: the frames pending after it were pending before. *)
Theorem updateGame_leaves_inputs_alone :
  forall (w : World),
    let w' := updateGame w in
    canvas_width w' = canvas_width w
    /\ canvas_height w' = canvas_height w
    /\ keys w' = keys w
    /\ mouse w' = mouse w
    /\ joystickState w' = joystickState w
    /\ activeJoystickTouchId w' = activeJoystickTouchId w
    /\ gameLoopId w' = gameLoopId w
    /\ nextFrameHandle w' = nextFrameHandle w
    /\ incl (pendingFrames w') (pendingFrames w).
Proof.
  intros w w'. subst w'.
  destruct (updateGame_fixtures w) as [Hfix Hpend]. unfold fixtures in Hfix.
  injection Hfix as Hcw Hch Hid Hnext Hk Hm Hj Ht.
  repeat split; assumption.
Qed.


(** *** The player and the arena *)

Lemma Player_update_moved :
  forall w,
    let p := player w in
    exists dx dy,
      Player.x (player (Player_update w))
      = Qmax (Player.size p / 2)
             (Qmin (canvas_width w - Player.size p / 2) (Player.x p + dx))
      /\ Player.y (player (Player_update w))
         = Qmax (Player.size p / 2)
                (Qmin (canvas_height w - Player.size p / 2) (Player.y p + dy)).
Proof.
  intros w p. subst p. unfold Player_update. wsimpl.
  repeat match goal with
    | |- context [let '(_, _) := ?e in _] => destruct e
    end.
  rewrite updateStatsDisplay_player.
  destruct (Mouse.isFiring (mouse w)).
  - rewrite Player_shoot_player. wsimpl. eexists. eexists. split; reflexivity.
  - wsimpl. eexists. eexists. split; reflexivity.
Qed.

Lemma clamp_within :
  forall lo hi v, lo <= hi -> lo <= Qmax lo (Qmin hi v) /\ Qmax lo (Qmin hi v) <= hi.
Proof.
  intros lo hi v Hle. split.
  - apply Q.le_max_l.
  - apply Q.max_lub; [exact Hle|apply Q.le_min_l].
Qed.

Lemma half_fits :
  forall size side, size <= side -> size / 2 <= side - size / 2.
Proof.
  intros size side Hle. unfold Qdiv. change (/ 2) with (1 # 2). lra.
Qed.

(** X2.  While the game runs, a tick leaves the player within the canvas,
    half its size away from every edge, wherever it was and whatever the
    input, provided the player is no larger than the canvas. *)
Theorem player_stays_in_arena :
  forall (w : World),
    isGameOver w = false ->
    Player.size (player w) <= canvas_width w ->
    Player.size (player w) <= canvas_height w ->
    inArena (updateGame w) (player (updateGame w))
    /\ Player.size (player (updateGame w)) = Player.size (player w).
Proof.
  intros w Hrun Hcw Hch. unfold updateGame. rewrite Hrun.
  set (w1 := spawnPhase w).
  set (w2 := updateEntities w1).
  set (w3 := itemPhase w2).
  set (w4 := collisionPhase w3).
  destruct (spawnPhase_fixtures w) as (F1 & _). fold w1 in F1.
  pose proof (spawnPhase_player w) as P1. fold w1 in P1.
  destruct (updateEntities_frame w1) as (F2 & _ & _ & _ & X2 & Y2 & S2).
  fold w2 in F2, X2, Y2, S2.
  destruct (itemPhase_step w2) as (X3 & Y3 & S3 & _). fold w3 in X3, Y3, S3.
  destruct (itemPhase_frame w2) as (F3 & _). fold w3 in F3.
  destruct (collisionPhase_spec w3) as (_ & _ & P4 & _). fold w4 in P4.
  destruct (collisionPhase_frame w3) as (F4 & _). fold w4 in F4.
  destruct (checkGameOver_frame w4) as (F5 & _).
  pose proof (checkGameOver_player w4) as P5.
  assert (Hfix : fixtures (checkGameOver w4) = fixtures w) by congruence.
  unfold fixtures in Hfix. injection Hfix as Hw Hh _ _ _ _ _ _.
  assert (Hsize : Player.size (player (checkGameOver w4))
                  = Player.size (player w)) by congruence.
  destruct (Player_update_moved w1) as (dx & dy & Hx & Hy).
  cbv zeta in Hx, Hy.
  assert (Hx' : Player.x (player (checkGameOver w4))
                = Player.x (player (Player_update w1))) by congruence.
  assert (Hy' : Player.y (player (checkGameOver w4))
                = Player.y (player (Player_update w1))) by congruence.
  assert (C1 : canvas_width w1 = canvas_width w).
  { unfold fixtures in F1. injection F1 as -> _ _ _ _ _ _ _. reflexivity. }
  assert (C2 : canvas_height w1 = canvas_height w).
  { unfold fixtures in F1. injection F1 as _ -> _ _ _ _ _ _. reflexivity. }
  split; [|exact Hsize].
  unfold inArena. rewrite Hx', Hy', Hsize, Hw, Hh, Hx, Hy, P1, C1, C2.
  destruct (clamp_within (Player.size (player w) / 2)
              (canvas_width w - Player.size (player w) / 2)
              (Player.x (player w) + dx)) as [Hx1 Hx2];
    [apply half_fits; exact Hcw|].
  destruct (clamp_within (Player.size (player w) / 2)
              (canvas_height w - Player.size (player w) / 2)
              (Player.y (player w) + dy)) as [Hy1 Hy2];
    [apply half_fits; exact Hch|].
  repeat split; assumption.
Qed.


(** *** The zombies *)

Lemma Zombie_update_keeps :
  forall zombie w,
    let z' := fst (Zombie_update zombie w) in
    Zombie.health z' = Zombie.health zombie
    /\ Zombie.initialHealth z' = Zombie.initialHealth zombie
    /\ Zombie.size z' = Zombie.size zombie.
Proof.
  intros zombie w. unfold Zombie_update, Zombie_attackPlayer. wsimpl.
  split_ifs; repeat split; reflexivity.
Qed.

Lemma zombies_forEach_sound :
  forall zs w,
    Forall zombieSound zs ->
    Forall zombieSound (fst (zombies_forEach zs w))
    /\ List.length (fst (zombies_forEach zs w)) = List.length zs.
Proof.
  induction zs as [|z rest IH]; intros w Hall; cbn [zombies_forEach].
  - split; [constructor|reflexivity].
  - inversion Hall as [|? ? Hz Hrest]; subst.
    destruct (Zombie_update_keeps z w) as (Hh & Hi & Hs).
    destruct (Zombie_update z w) as [z' w1]. cbn [fst] in Hh, Hi, Hs.
    destruct (IH w1 Hrest) as [IH1 IH2].
    destruct (zombies_forEach rest w1) as [rest' w2]. cbn [fst] in *.
    split; [|cbn [List.length]; congruence].
    constructor; [|exact IH1].
    unfold zombieSound in *. rewrite Hh, Hi, Hs. exact Hz.
Qed.

Lemma spawnZombie_new :
  forall w,
    exists x y, zombies (spawnZombie w) = zombies w ++ [Zombie_new x y ZOMBIE_SIZE].
Proof.
  intros w. unfold spawnZombie. wsimpl.
  split_ifs; eexists; eexists; reflexivity.
Qed.

Lemma spawnPhase_zombies :
  forall w,
    zombies (spawnPhase w) = zombies w
    \/ exists x y, zombies (spawnPhase w) = zombies w ++ [Zombie_new x y ZOMBIE_SIZE].
Proof.
  intros w. unfold spawnPhase. wsimpl.
  destruct (_ >? _)%Z; [right|left; reflexivity].
  destruct (spawnZombie_new (set_clockReads (S (clockReads w)) w))
    as (x & y & Hz).
  exists x, y. wsimpl. exact Hz.
Qed.

Lemma Zombie_new_sound : forall x y, zombieSound (Zombie_new x y ZOMBIE_SIZE).
Proof.
  intros x y. unfold zombieSound, Zombie_new, ZOMBIE_SIZE. wsimpl.
  repeat split; lra.
Qed.

Lemma afterBullet_sound :
  forall m bullet zs,
    0 <= m ->
    Forall zombieSound zs -> Forall zombieSound (afterBullet m bullet zs).
Proof.
  intros m bullet zs Hm Hall.
  induction Hall as [|zombie rest Hz Hrest IH]; [constructor|].
  rewrite afterBullet_cons. apply Forall_app. split; [|exact IH].
  unfold afterBullet. cbn [flat_map].
  destruct (bulletTouches bullet zombie);
    [|cbn [app]; constructor; [exact Hz|constructor]].
  destruct (Qle_bool (Zombie.health (damaged m zombie)) 0) eqn:Hdead;
    cbn [app]; [constructor|]. constructor; [|constructor].
  destruct Hz as (Hpos & Hle & Hinit & Hsize).
  unfold zombieSound, damaged in *. wsimpl. repeat split; try assumption.
  - apply Qnot_le_lt. intros Hle0. apply Qle_bool_iff in Hle0. congruence.
  - nra.
Qed.

Lemma afterBullets_sound :
  forall m bs zs,
    0 <= m ->
    Forall zombieSound zs -> Forall zombieSound (afterBullets m bs zs).
Proof.
  intros m bs. induction bs as [|bullet rest IH]; intros zs Hm Hall.
  - exact Hall.
  - cbn [afterBullets fold_left]. apply IH; [exact Hm|].
    apply afterBullet_sound; assumption.
Qed.

Lemma afterBullets_shrinks :
  forall m bs zs,
    (List.length (afterBullets m bs zs) <= List.length zs)%nat.
Proof.
  intros m bs. induction bs as [|bullet rest IH]; intros zs.
  - cbn [afterBullets fold_left]. lia.
  - cbn [afterBullets fold_left].
    pose proof (afterBullet_length m bullet zs) as Hlen.
    specialize (IH (afterBullet m bullet zs)). unfold afterBullets in IH. lia.
Qed.

Lemma updateEntities_zombies :
  forall w,
    Forall zombieSound (zombies w) ->
    Forall zombieSound (zombies (updateEntities w))
    /\ List.length (zombies (updateEntities w)) = List.length (zombies w).
Proof.
  intros w Hall. unfold updateEntities.
  pose proof (Player_update_frame w) as Hm. unfold move_frame in Hm.
  apply (f_equal zombies) in Hm.
  change (zombies (Player_update w) = zombies w) in Hm.
  set (w1 := Player_update w) in *.
  set (w2 := set_bullets (map Bullet_update (bullets w1)) w1).
  change (zombies w2) with (zombies w1). rewrite Hm.
  destruct (zombies_forEach_sound (zombies w) w2 Hall) as [Hs Hl].
  destruct (zombies_forEach (zombies w) w2) as [zs w3].
  cbn [fst] in Hs, Hl. wsimpl. split; assumption.
Qed.

(** X3.  While the game runs, a tick keeps every zombie of the collection
    alive and within the health it was created with: if every zombie has
    a health in (0, 30] before, so has every zombie after, a newly spawned
    one included.  The foreground of a zombie's health bar is then never
    empty and never wider than its background. *)
Theorem zombies_stay_sound :
  forall (w : World),
    isGameOver w = false ->
    Forall zombieSound (zombies w) ->
    Forall zombieSound (zombies (updateGame w))
    /\ (forall zombie,
          In zombie (zombies (updateGame w)) ->
          0 < snd (Zombie_healthBar zombie)
          /\ snd (Zombie_healthBar zombie) <= fst (Zombie_healthBar zombie)).
Proof.
  intros w Hrun Hall.
  assert (Hsound : Forall zombieSound (zombies (updateGame w))).
  { destruct (updateGame_multiplier w Hrun) as (_ & _ & Hz & _).
    rewrite Hz. apply afterBullets_sound.
    - unfold DAMAGE_BOOST_MULTIPLIER. destruct (_ >? _)%Z; lra.
    - destruct (itemPhase_frame (updateEntities (spawnPhase w)))
        as (_ & _ & _ & _ & _ & -> & _).
      apply updateEntities_zombies.
      destruct (spawnPhase_zombies w) as [->|(x & y & ->)]; [exact Hall|].
      apply Forall_app. split; [exact Hall|].
      repeat constructor. apply Zombie_new_sound. }
  split; [exact Hsound|].
  intros zombie Hin. rewrite Forall_forall in Hsound.
  destruct (Hsound zombie Hin) as (Hpos & Hle & Hinit & Hsize).
  unfold Zombie_healthBar. cbn [fst snd]. rewrite Hinit in *.
  unfold Qdiv. change (/ 30) with (1 # 30). split; nra.
Qed.

(** X4.  The score never goes down in a tick, and what it gains is 10 for
    each zombie that left the collection: the zombies after the tick and
    the zombies killed in it add up to the zombies after the spawn
    phase. *)
Theorem score_counts_kills :
  forall (w : World),
    isGameOver w = false ->
    exists kills : nat,
      score (updateGame w) = (score w + 10 * Z.of_nat kills)%Z
      /\ (List.length (zombies (updateGame w)) + kills
          = List.length (zombies (spawnPhase w)))%nat
      /\ (List.length (zombies (spawnPhase w))
          <= List.length (zombies w) + 1)%nat.
Proof.
  intros w Hrun. unfold updateGame. rewrite Hrun.
  set (w1 := spawnPhase w).
  set (w2 := updateEntities w1).
  set (w3 := itemPhase w2).
  set (w4 := collisionPhase w3).
  destruct (spawnPhase_fixtures w) as (_ & _ & _ & S1 & _). fold w1 in S1.
  destruct (updateEntities_frame w1) as (_ & _ & S2 & _). fold w2 in S2.
  destruct (itemPhase_frame w2) as (_ & _ & _ & S3 & _ & Z3 & _).
  fold w3 in S3, Z3.
  destruct (collisionPhase_spec w3) as (Z4 & S4 & _). fold w4 in Z4, S4.
  destruct (checkGameOver_frame w4) as (_ & _ & S5 & _).
  rewrite checkGameOver_zombies, S5.
  pose proof (afterBullets_shrinks
                (Player.bulletDamageMultiplier (player w3)) (bullets w3)
                (zombies w3)) as Hshrink.
  rewrite <- Z4 in Hshrink.
  assert (Hlen : List.length (zombies w2) = List.length (zombies w1)).
  { unfold w2, updateEntities.
    pose proof (Player_update_frame w1) as Hm. unfold move_frame in Hm.
    apply (f_equal zombies) in Hm.
    change (zombies (Player_update w1) = zombies w1) in Hm.
    set (v1 := Player_update w1) in *.
    set (v2 := set_bullets (map Bullet_update (bullets v1)) v1).
    change (zombies v2) with (zombies v1). rewrite Hm.
    assert (Hl : forall zs v,
               List.length (fst (zombies_forEach zs v)) = List.length zs).
    { induction zs as [|z rest IH]; intros v; cbn [zombies_forEach];
        [reflexivity|].
      destruct (Zombie_update z v) as [z' v']. specialize (IH v').
      destruct (zombies_forEach rest v') as [rest' v'']. cbn [fst] in *.
      cbn [List.length]. congruence. }
    specialize (Hl (zombies w1) v2).
    destruct (zombies_forEach (zombies w1) v2) as [zs v3].
    cbn [fst] in Hl. wsimpl. exact Hl. }
  exists (List.length (zombies w3) - List.length (zombies w4))%nat.
  split; [|split].
  - rewrite S4, S3, S2, S1. lia.
  - rewrite Z3 in *. lia.
  - destruct (spawnPhase_zombies w) as [Hz|(x & y & Hz)]; fold w1 in Hz;
      rewrite Hz; [lia|]. rewrite length_app. cbn [List.length]. lia.
Qed.


(** *** Attacks, health and the end of the game *)

Lemma gameOver_frame_facts :
  forall w,
    player (gameOver w) = player w
    /\ isGameOver (gameOver w) = true
    /\ clockReads (gameOver w) = clockReads w.
Proof.
  intros w. split; [apply gameOver_player|].
  split; [apply gameOver_isGameOver|apply gameOver_clockReads].
Qed.

Lemma Zombie_attackPlayer_idle :
  forall z w,
    (Date_now (clockReads w) - Zombie.lastAttackTime z
     <= Zombie.ATTACK_DELAY z)%Z ->
    Zombie_attackPlayer z w = (z, snd (readClock w)).
Proof.
  intros z w Hwait. unfold Zombie_attackPlayer. wsimpl.
  destruct (Z.gtb_spec (Date_now (clockReads w) - Zombie.lastAttackTime z)
              (Zombie.ATTACK_DELAY z)); [lia|reflexivity].
Qed.

Lemma Zombie_attackPlayer_hit :
  forall z w,
    (Date_now (clockReads w) - Zombie.lastAttackTime z
     > Zombie.ATTACK_DELAY z)%Z ->
    let z' := fst (Zombie_attackPlayer z w) in
    let w' := snd (Zombie_attackPlayer z w) in
    z' = Zombie.set_lastAttackTime (Date_now (clockReads w)) z
    /\ Player.health (player w') = (Player.health (player w) - 10)%Z
    /\ clockReads w' = S (clockReads w)
    /\ isGameOver w'
       = (if (Player.health (player w) - 10 <=? 0)%Z then true
          else isGameOver w).
Proof.
  intros z w Hdue. unfold Zombie_attackPlayer. wsimpl.
  destruct (Z.gtb_spec (Date_now (clockReads w) - Zombie.lastAttackTime z)
              (Zombie.ATTACK_DELAY z)); [|lia].
  unfold ZOMBIE_DAMAGE.
  destruct (Player.health (player w) - 10 <=? 0)%Z; cbn [fst snd].
  - rewrite gameOver_player, gameOver_isGameOver, gameOver_clockReads.
    wsimpl. repeat split; reflexivity.
  - wsimpl. repeat split; reflexivity.
Qed.

(** X5.  A zombie in contact, whose last attack is more than
    [ATTACK_DELAY] ms old, takes exactly 10 from the player's health and
    notes the time; called again within [ATTACK_DELAY] ms of that, it only
    reads the clock. *)
Theorem zombie_attack_cooldown :
  forall (zombie : Zombie.t) (w : World),
    (Date_now (clockReads w) - Zombie.lastAttackTime zombie
     > Zombie.ATTACK_DELAY zombie)%Z ->
    let z' := fst (Zombie_attackPlayer zombie w) in
    let w' := snd (Zombie_attackPlayer zombie w) in
    Player.health (player w') = (Player.health (player w) - 10)%Z
    /\ Zombie.lastAttackTime z' = Date_now (clockReads w)
    /\ ((Date_now (S (clockReads w)) - Date_now (clockReads w)
         <= Zombie.ATTACK_DELAY zombie)%Z ->
        Zombie_attackPlayer z' w' = (z', snd (readClock w'))).
Proof.
  intros zombie w Hdue z' w'.
  destruct (Zombie_attackPlayer_hit zombie w Hdue) as (Hz & Hh & Hc & _).
  fold z' in Hz. fold w' in Hh, Hc.
  split; [exact Hh|]. split; [rewrite Hz; reflexivity|].
  intros Hsoon. apply Zombie_attackPlayer_idle.
  rewrite Hc, Hz. wsimpl. exact Hsoon.
Qed.

Lemma Zombie_update_health_drop :
  forall z w,
    (Player.health (player w) - 10
     <= Player.health (player (snd (Zombie_update z w))))%Z.
Proof.
  intros z w. unfold Zombie_update.
  destruct (Qltb _ _); [|cbn [snd]; lia].
  match goal with
  | |- context [Zombie_attackPlayer ?z0 w] =>
      destruct (Z.gtb_spec (Date_now (clockReads w) - Zombie.lastAttackTime z0)
                  (Zombie.ATTACK_DELAY z0)) as [Hdue|Hwait];
      [destruct (Zombie_attackPlayer_hit z0 w) as (_ & Hh & _); [lia|];
       rewrite Hh; lia
      |rewrite (Zombie_attackPlayer_idle z0 w) by lia; wsimpl; lia]
  end.
Qed.

Lemma zombies_forEach_health_drop :
  forall zs w,
    (Player.health (player w) - 10 * Z.of_nat (List.length zs)
     <= Player.health (player (snd (zombies_forEach zs w))))%Z.
Proof.
  induction zs as [|z rest IH]; intros w; cbn [zombies_forEach].
  - cbn [snd List.length]. lia.
  - pose proof (Zombie_update_health_drop z w) as Hz.
    destruct (Zombie_update z w) as [z' w1]. cbn [snd] in Hz.
    specialize (IH w1).
    destruct (zombies_forEach rest w1) as [rest' w2]. cbn [snd] in IH |- *.
    cbn [List.length]. lia.
Qed.

Lemma Zombie_update_overIffDead :
  forall z w, overIffDead w -> overIffDead (snd (Zombie_update z w)).
Proof.
  intros z w Hinv. unfold Zombie_update.
  destruct (Qltb _ _); [|exact Hinv].
  match goal with
  | |- context [Zombie_attackPlayer ?z0 w] =>
      destruct (Z.gtb_spec (Date_now (clockReads w) - Zombie.lastAttackTime z0)
                  (Zombie.ATTACK_DELAY z0)) as [Hdue|Hwait];
      [destruct (Zombie_attackPlayer_hit z0 w) as (_ & Hh & _ & Ho); [lia|]
      |rewrite (Zombie_attackPlayer_idle z0 w) by lia; exact Hinv]
  end.
  unfold overIffDead in *. rewrite Hh, Ho.
  destruct (Z.leb_spec (Player.health (player w) - 10) 0).
  - split; [intros _; assumption|reflexivity].
  - split; [intros Hover; apply Hinv in Hover; lia|lia].
Qed.

Lemma zombies_forEach_overIffDead :
  forall zs w, overIffDead w -> overIffDead (snd (zombies_forEach zs w)).
Proof.
  apply (zombies_forEach_rel (fun w w' => overIffDead w -> overIffDead w')).
  - auto.
  - auto.
  - apply Zombie_update_overIffDead.
Qed.

(** A relation that the callback of [items.filter] respects is respected
    by the filter. *)
Lemma items_filter_rel :
  forall R : World -> World -> Prop,
    (forall w, R w w) ->
    (forall w1 w2 w3, R w1 w2 -> R w2 w3 -> R w1 w3) ->
    (forall item w, R w (snd (itemCallback item w))) ->
    forall its w, R w (snd (items_filter its w)).
Proof.
  intros R Hrefl Htrans Hstep.
  induction its as [|item rest IH]; intros w; cbn [items_filter].
  - apply Hrefl.
  - pose proof (Hstep item w) as Hi.
    destruct (itemCallback item w) as [keep w1]. cbn [snd] in Hi.
    specialize (IH w1).
    destruct (items_filter rest w1) as [rest' w2]. cbn [snd] in IH |- *.
    eapply Htrans; eassumption.
Qed.

Lemma itemPhase_health_rises :
  forall w,
    (Player.health (player w) <= MAX_HEALTH)%Z ->
    (Player.health (player w) <= Player.health (player (itemPhase w))
     <= MAX_HEALTH)%Z.
Proof.
  intros w. unfold itemPhase.
  pose proof (items_filter_rel
                (fun v v' =>
                   (Player.health (player v) <= MAX_HEALTH)%Z ->
                   (Player.health (player v) <= Player.health (player v')
                    <= MAX_HEALTH)%Z)) as Hrel.
  cbv beta in Hrel.
  specialize (Hrel ltac:(intros; lia) ltac:(intros; lia)).
  assert (Hstep : forall item v,
             (Player.health (player v) <= MAX_HEALTH)%Z ->
             (Player.health (player v)
              <= Player.health (player (snd (itemCallback item v)))
              <= MAX_HEALTH)%Z).
  { intros item v Hmax. unfold itemCallback. wsimpl.
    destruct (_ >? _)%Z; [wsimpl; lia|].
    destruct (playerTouches _ _); cbn [snd]; [|wsimpl; lia].
    unfold Player_applyUpgrade. split_ifs; wsimpl; unfold MAX_HEALTH in *; lia. }
  specialize (Hrel Hstep (items w) w).
  destruct (items_filter (items w) w) as [its w1]. cbn [snd] in Hrel.
  wsimpl. exact Hrel.
Qed.

Lemma checkGameOver_isGameOver :
  forall w,
    isGameOver (checkGameOver w)
    = (isGameOver w || (Player.health (player w) <=? 0)%Z).
Proof.
  intros w. unfold checkGameOver.
  destruct (_ <=? _)%Z.
  - rewrite gameOver_isGameOver, orb_true_r. reflexivity.
  - rewrite orb_false_r. reflexivity.
Qed.

Lemma updateEntities_health :
  forall w,
    let w' := updateEntities w in
    (Player.health (player w) - 10 * Z.of_nat (List.length (zombies w))
     <= Player.health (player w'))%Z
    /\ (Player.health (player w') <= Player.health (player w))%Z
    /\ (overIffDead w -> overIffDead w').
Proof.
  intros w w'. subst w'. unfold updateEntities.
  pose proof (Player_update_frame w) as Hm. unfold move_frame in Hm.
  assert (Hz : zombies (Player_update w) = zombies w)
    by exact (f_equal zombies Hm).
  assert (Hh : Player.health (player (Player_update w))
               = Player.health (player w))
    by exact (f_equal (fun v => Player.health (player v)) Hm).
  assert (Ho : isGameOver (Player_update w) = isGameOver w)
    by exact (f_equal isGameOver Hm).
  set (w1 := Player_update w) in *.
  set (w2 := set_bullets (map Bullet_update (bullets w1)) w1).
  pose proof (zombies_forEach_health_drop (zombies w2) w2) as Hdrop.
  pose proof (zombies_forEach_step (zombies w2) w2) as (_ & Hle & _).
  pose proof (zombies_forEach_overIffDead (zombies w2) w2) as Hinv.
  destruct (zombies_forEach (zombies w2) w2) as [zs w3].
  cbn [snd] in Hdrop, Hle, Hinv. wsimpl.
  change (zombies w2) with (zombies w1) in Hdrop.
  change (player w2) with (player w1) in Hdrop, Hle.
  rewrite Hz, Hh in Hdrop. rewrite Hh in Hle.
  split; [exact Hdrop|]. split; [exact Hle|].
  intros Hstart. apply Hinv. unfold overIffDead in *.
  change (isGameOver w2) with (isGameOver w1).
  change (player w2) with (player w1). rewrite Ho, Hh. exact Hstart.
Qed.

(** X6.  A tick that starts with a health of at most 100 lowers it by at
    most 10 for each zombie in the collection, a zombie spawned in this
    tick included. *)
Theorem health_drop_is_bounded :
  forall (w : World),
    isGameOver w = false ->
    (Player.health (player w) <= MAX_HEALTH)%Z ->
    (Player.health (player w)
     - 10 * (Z.of_nat (List.length (zombies w)) + 1)
     <= Player.health (player (updateGame w)))%Z.
Proof.
  intros w Hrun Hmax. unfold updateGame. rewrite Hrun.
  set (w1 := spawnPhase w).
  set (w2 := updateEntities w1).
  set (w3 := itemPhase w2).
  pose proof (spawnPhase_player w) as P1. fold w1 in P1.
  destruct (updateEntities_health w1) as (Hdrop & Hle & _).
  fold w2 in Hdrop, Hle. rewrite P1 in Hdrop, Hle.
  assert (Hmax2 : (Player.health (player w2) <= MAX_HEALTH)%Z) by lia.
  pose proof (itemPhase_health_rises w2 Hmax2) as Hrise. fold w3 in Hrise.
  destruct (collisionPhase_spec w3) as (_ & _ & P4 & _).
  rewrite checkGameOver_player, P4.
  assert (Hlen : (List.length (zombies w1) <= List.length (zombies w) + 1)%nat).
  { destruct (spawnPhase_zombies w) as [Hz|(x & y & Hz)]; fold w1 in Hz;
      rewrite Hz; [lia|]. rewrite length_app. cbn [List.length]. lia. }
  lia.
Qed.

(** X7.  While the health is between 1 and 100 and the game runs, a tick
    ends the game exactly when the attacks of the zombies in that tick
    bring the health to zero or below.  What a health pack collected later
    in the same tick restores does not undo that: the stored health after
    the tick is at least the health the attacks left. *)
Theorem game_ends_when_attacks_kill :
  forall (w : World),
    isGameOver w = false ->
    (0 < Player.health (player w) <= MAX_HEALTH)%Z ->
    let struck := Player.health (player (updateEntities (spawnPhase w))) in
    (isGameOver (updateGame w) = true <-> (struck <= 0)%Z)
    /\ (struck <= Player.health (player (updateGame w)))%Z.
Proof.
  intros w Hrun Hhealth struck. subst struck. unfold updateGame. rewrite Hrun.
  set (w1 := spawnPhase w).
  set (w2 := updateEntities w1).
  set (w3 := itemPhase w2).
  set (w4 := collisionPhase w3).
  pose proof (spawnPhase_player w) as P1. fold w1 in P1.
  destruct (spawnPhase_fixtures w) as (_ & _ & O1 & _). fold w1 in O1.
  destruct (updateEntities_health w1) as (_ & Hle & Hinv).
  fold w2 in Hle, Hinv. rewrite P1 in Hle.
  assert (Hinv2 : overIffDead w2).
  { apply Hinv. unfold overIffDead. rewrite O1, P1, Hrun.
    split; [discriminate|lia]. }
  assert (Hmax2 : (Player.health (player w2) <= MAX_HEALTH)%Z) by lia.
  pose proof (itemPhase_health_rises w2 Hmax2) as Hrise. fold w3 in Hrise.
  destruct (itemPhase_frame w2) as (_ & _ & O3 & _). fold w3 in O3.
  destruct (collisionPhase_spec w3) as (_ & _ & P4 & _ & O4).
  fold w4 in P4, O4.
  rewrite checkGameOver_isGameOver, checkGameOver_player, O4, O3, P4.
  unfold overIffDead in Hinv2. split; [|lia].
  rewrite orb_true_iff, Z.leb_le. split.
  - intros [Hover|Hdead]; [apply Hinv2; exact Hover|lia].
  - intros Hdead. left. apply Hinv2. exact Hdead.
Qed.


(** *** The bullets *)

Lemma Bullet_update_onwards :
  forall (k : nat) (bullet : Bullet.t),
    let b' := Nat.iter k Bullet_update bullet in
    Bullet.vx b' = Bullet.vx bullet
    /\ Bullet.vy b' = Bullet.vy bullet
    /\ Bullet.size b' = Bullet.size bullet
    /\ (0 <= Bullet.vx bullet -> Bullet.x bullet <= Bullet.x b')
    /\ (Bullet.vx bullet <= 0 -> Bullet.x b' <= Bullet.x bullet)
    /\ (0 <= Bullet.vy bullet -> Bullet.y bullet <= Bullet.y b')
    /\ (Bullet.vy bullet <= 0 -> Bullet.y b' <= Bullet.y bullet).
Proof.
  induction k as [|k IH]; intros bullet b'; subst b'.
  - unfold Nat.iter. cbn [nat_rect].
    repeat split; try reflexivity; intros _; apply Qle_refl.
  - change (Nat.iter (S k) Bullet_update bullet)
      with (Bullet_update (Nat.iter k Bullet_update bullet)).
    destruct (IH bullet) as (Hvx & Hvy & Hs & Hxu & Hxd & Hyu & Hyd).
    set (b := Nat.iter k Bullet_update bullet) in *.
    unfold Bullet_update. wsimpl. rewrite Hvx, Hvy.
    split; [reflexivity|]. split; [reflexivity|]. split; [exact Hs|].
    split; [intros H; specialize (Hxu H); lra|].
    split; [intros H; specialize (Hxd H); lra|].
    split; [intros H; specialize (Hyu H); lra|].
    intros H; specialize (Hyd H); lra.
Qed.

(** X8.  A bullet keeps its velocity and its size, and never turns back:
    from one update to any later one each of its coordinates moves, if at
    all, the way that component of its velocity points, so that a bullet
    at rest stays where it is. *)
Theorem bullet_never_turns_back :
  forall (n k : nat) (bullet : Bullet.t),
    let earlier := Nat.iter n Bullet_update bullet in
    let later := Nat.iter (k + n) Bullet_update bullet in
    Bullet.vx later = Bullet.vx bullet
    /\ Bullet.vy later = Bullet.vy bullet
    /\ Bullet.size later = Bullet.size bullet
    /\ (0 <= Bullet.vx bullet -> Bullet.x earlier <= Bullet.x later)
    /\ (Bullet.vx bullet <= 0 -> Bullet.x later <= Bullet.x earlier)
    /\ (0 <= Bullet.vy bullet -> Bullet.y earlier <= Bullet.y later)
    /\ (Bullet.vy bullet <= 0 -> Bullet.y later <= Bullet.y earlier).
Proof.
  intros n k bullet earlier later. subst later.
  rewrite Nat.iter_add. fold earlier.
  destruct (Bullet_update_onwards n bullet) as (Hvx & Hvy & Hs & _).
  fold earlier in Hvx, Hvy, Hs.
  destruct (Bullet_update_onwards k earlier)
    as (Kvx & Kvy & Ks & Kxu & Kxd & Kyu & Kyd).
  cbv zeta in Kvx, Kvy, Ks, Kxu, Kxd, Kyu, Kyd.
  rewrite Hvx in Kvx, Kxu, Kxd. rewrite Hvy in Kvy, Kyu, Kyd.
  rewrite Hs in Ks.
  repeat split; assumption.
Qed.

Lemma bullets_filter_onscreen :
  forall bs w,
    Forall (fun bullet => Bullet_isOffScreen bullet w = false)
      (fst (bullets_filter bs w))
    /\ (List.length (fst (bullets_filter bs w)) <= List.length bs)%nat.
Proof.
  induction bs as [|b rest IH]; intros w.
  - cbn [bullets_filter fst List.length]. split; [constructor|lia].
  - cbn [bullets_filter].
    pose proof (bulletCallback_spec b w) as Hb.
    destruct (bulletCallback b w) as [keep w1].
    cbv zeta in Hb. destruct Hb as (_ & Hkeep & _ & Hf).
    assert (Hoff : forall b0, Bullet_isOffScreen b0 w1 = Bullet_isOffScreen b0 w).
    { intros b0. unfold Bullet_isOffScreen.
      destruct (collision_frame_canvas _ _ Hf) as [-> ->]. reflexivity. }
    destruct (IH w1) as [IH1 IH2].
    destruct (bullets_filter rest w1) as [rest' w2]. cbn [fst] in *.
    assert (Hrest : Forall (fun bullet => Bullet_isOffScreen bullet w = false)
                      rest').
    { eapply Forall_impl; [|exact IH1]. intros b0 H0. cbv beta in H0.
      rewrite Hoff in H0. exact H0. }
    destruct keep; [|split; [exact Hrest|cbn [List.length]; lia]].
    split; [|cbn [List.length]; lia].
    constructor; [|exact Hrest].
    symmetry in Hkeep. apply andb_true_iff in Hkeep.
    destruct Hkeep as [_ Hon]. apply negb_true_iff in Hon. exact Hon.
Qed.

Lemma Player_shoot_bullets :
  forall w,
    exists shot,
      bullets (Player_shoot w) = bullets w ++ shot
      /\ (List.length shot <= 3)%nat.
Proof.
  intros w. unfold Player_shoot, Player__createBullet. wsimpl.
  destruct (_ >? _)%Z; [|exists []; rewrite app_nil_r; split;
                                  [reflexivity|cbn [List.length]; lia]].
  destruct (negb _); wsimpl.
  - eexists. split; [reflexivity|cbn [List.length]; lia].
  - eexists. rewrite <- !app_assoc. split; [reflexivity|cbn; lia].
Qed.

Lemma Player_update_bullets :
  forall w,
    exists shot,
      bullets (Player_update w) = bullets w ++ shot
      /\ (List.length shot <= 3)%nat
      /\ (Mouse.isFiring (mouse w) = false -> shot = []).
Proof.
  intros w. destruct (Player_update_shape w) as [p' ->].
  set (w1 := set_player p' (set_clockReads (S (clockReads w)) w)).
  assert (Hdisp : forall v, bullets (updateStatsDisplay v) = bullets v)
    by (intros v; unfold updateStatsDisplay; wsimpl; reflexivity).
  rewrite Hdisp. destruct (Mouse.isFiring (mouse w)).
  - destruct (Player_shoot_bullets w1) as (shot & Hs & Hl).
    exists shot. split; [exact Hs|]. split; [exact Hl|discriminate].
  - exists []. split; [rewrite app_nil_r; reflexivity|].
    split; [cbn [List.length]; lia|reflexivity].
Qed.

(** X9.  While the game runs, no bullet left in the collection by a tick
    is off-screen; and a tick adds at most three bullets to the
    collection, and none when the fire button is not held. *)
Theorem bullets_after_tick :
  forall (w : World),
    isGameOver w = false ->
    let w' := updateGame w in
    Forall (fun bullet => Bullet_isOffScreen bullet w' = false) (bullets w')
    /\ (List.length (bullets w') <= List.length (bullets w) + 3)%nat
    /\ (Mouse.isFiring (mouse w) = false ->
        (List.length (bullets w') <= List.length (bullets w))%nat).
Proof.
  intros w Hrun w'. subst w'.
  
  unfold updateGame in *. rewrite Hrun in *.
  set (w1 := spawnPhase w) in *.
  set (w2 := updateEntities w1) in *.
  set (w3 := itemPhase w2) in *.
  set (w4 := collisionPhase w3) in *.
  destruct (checkGameOver_frame w4) as (F5 & _ & _ & B5).
  destruct (collisionPhase_frame w3) as (F4 & _). fold w4 in F4.
  destruct (itemPhase_frame w2) as (_ & _ & _ & _ & B3 & _). fold w3 in B3.
  destruct (spawnPhase_fixtures w) as (F1 & _ & _ & _ & B1 & _).
  fold w1 in F1, B1.
  assert (B4 : bullets w4 = fst (bullets_filter (bullets w3) w3))
    by apply collisionPhase_bullets.
  destruct (bullets_filter_onscreen (bullets w3) w3) as [Hon Hlen].
  rewrite <- B4 in Hon, Hlen.
  assert (Hscreen : forall b v v',
             canvas_width v' = canvas_width v ->
             canvas_height v' = canvas_height v ->
             Bullet_isOffScreen b v' = Bullet_isOffScreen b v).
  { intros b v v' H1 H2. unfold Bullet_isOffScreen. rewrite H1, H2.
    reflexivity. }
  assert (C43 : canvas_width w4 = canvas_width w3
                /\ canvas_height w4 = canvas_height w3).
  { unfold fixtures in F4. injection F4 as -> -> _ _ _ _ _ _. auto. }
  assert (C54 : canvas_width (checkGameOver w4) = canvas_width w4
                /\ canvas_height (checkGameOver w4) = canvas_height w4).
  { unfold fixtures in F5. injection F5 as -> -> _ _ _ _ _ _. auto. }
  destruct C43 as [C43w C43h]. destruct C54 as [C54w C54h].
  assert (Hlen2 : exists shot : list Bullet.t,
             List.length (bullets w2) = (List.length (bullets w1)
                                         + List.length shot)%nat
             /\ (List.length shot <= 3)%nat
             /\ (Mouse.isFiring (mouse w1) = false -> shot = [])).
  { unfold w2, updateEntities.
    destruct (Player_update_bullets w1) as (shot & Hs & Hl & Hidle).
    set (v1 := Player_update w1) in *.
    set (v2 := set_bullets (map Bullet_update (bullets v1)) v1).
    pose proof (zombies_forEach_frame (zombies v2) v2) as Ha.
    destruct (zombies_forEach (zombies v2) v2) as [zs v3]. cbn [snd] in Ha.
    unfold attack_frame in Ha. apply (f_equal bullets) in Ha.
    change (bullets v3 = map Bullet_update (bullets v1)) in Ha.
    wsimpl. exists shot. rewrite Ha, length_map, Hs, length_app.
    repeat split; assumption. }
  destruct Hlen2 as (shot & Hl2 & Hl3 & Hidle).
  assert (M1 : mouse w1 = mouse w).
  { unfold fixtures in F1. injection F1 as _ _ _ _ _ -> _ _. reflexivity. }
  rewrite B5. split; [|split].
  - eapply Forall_impl; [|exact Hon]. intros b Hb. cbv beta in Hb.
    rewrite (Hscreen b w4 (checkGameOver w4) C54w C54h).
    rewrite (Hscreen b w3 w4 C43w C43h). exact Hb.
  - rewrite B3, Hl2, B1 in Hlen. lia.
  - intros Hquiet. rewrite M1 in Hidle. rewrite (Hidle Hquiet) in Hl2.
    rewrite B3, Hl2, B1 in Hlen. cbn [List.length] in Hlen. lia.
Qed.


(** *** The rate of fire *)

Lemma Player_shoot_waiting :
  forall w,
    (Date_now (clockReads w) - Player.lastShotTime (player w)
     <= Player.currentShotDelay (player w))%Z ->
    Player_shoot w = snd (readClock w).
Proof.
  intros w Hwait. unfold Player_shoot. wsimpl.
  destruct (Z.gtb_spec (Date_now (clockReads w) - Player.lastShotTime (player w))
              (Player.currentShotDelay (player w))); [lia|reflexivity].
Qed.

Lemma Player_shoot_fired :
  forall w,
    (Date_now (clockReads w) - Player.lastShotTime (player w)
     > Player.currentShotDelay (player w))%Z ->
    player (Player_shoot w)
    = Player.set_lastShotTime (Date_now (clockReads w)) (player w)
    /\ clockReads (Player_shoot w) = S (clockReads w).
Proof.
  intros w Hdue. unfold Player_shoot, Player__createBullet. wsimpl.
  destruct (Z.gtb_spec (Date_now (clockReads w) - Player.lastShotTime (player w))
              (Player.currentShotDelay (player w))); [|lia].
  destruct (negb _); wsimpl; split; reflexivity.
Qed.

(** X10.  A shot notes its time, and a further call of [shoot] within
    [currentShotDelay] ms of it fires nothing: the bullets are what the
    first call left.  In general a call of [shoot] before the delay has
    passed only reads the clock. *)
Theorem shots_are_spaced :
  forall (w : World),
    (Date_now (clockReads w) - Player.lastShotTime (player w)
     > Player.currentShotDelay (player w))%Z ->
    (Date_now (S (clockReads w)) - Date_now (clockReads w)
     <= Player.currentShotDelay (player w))%Z ->
    Player.lastShotTime (player (Player_shoot w)) = Date_now (clockReads w)
    /\ bullets (Player_shoot (Player_shoot w)) = bullets (Player_shoot w)
    /\ player (Player_shoot (Player_shoot w)) = player (Player_shoot w)
    /\ (forall v : World,
          (Date_now (clockReads v) - Player.lastShotTime (player v)
           <= Player.currentShotDelay (player v))%Z ->
          Player_shoot v = snd (readClock v)).
Proof.
  intros w Hdue Hsoon.
  destruct (Player_shoot_fired w Hdue) as [Hp Hc].
  assert (Hwait : Player_shoot (Player_shoot w)
                  = snd (readClock (Player_shoot w))).
  { apply Player_shoot_waiting. rewrite Hc, Hp. wsimpl. exact Hsoon. }
  split; [rewrite Hp; reflexivity|].
  split; [rewrite Hwait; reflexivity|].
  split; [rewrite Hwait; reflexivity|].
  apply Player_shoot_waiting.
Qed.

(** *** Where zombies enter *)

Lemma random_scaled :
  forall n side,
    0 < side ->
    0 <= Math_random n * side /\ Math_random n * side < side.
Proof.
  intros n side Hside. destruct (Math_random_range n) as [Hlo Hhi].
  split; nra.
Qed.

(** X11.  [spawnZombie] draws two random numbers and appends one zombie,
    fresh (health 30, size 25, no attack yet), 25 beyond one of the four
    edges of the canvas and within the span of that edge: it lies outside
    the canvas. *)
Theorem zombies_enter_from_outside :
  forall (w : World),
    0 < canvas_width w ->
    0 < canvas_height w ->
    exists zombie,
      zombies (spawnZombie w) = zombies w ++ [zombie]
      /\ randomDraws (spawnZombie w) = S (S (randomDraws w))
      /\ Zombie.health zombie = 30
      /\ Zombie.size zombie = ZOMBIE_SIZE
      /\ Zombie.lastAttackTime zombie = 0%Z
      /\ ((Zombie.y zombie = - ZOMBIE_SIZE
           /\ 0 <= Zombie.x zombie /\ Zombie.x zombie < canvas_width w)
          \/ (Zombie.x zombie = canvas_width w + ZOMBIE_SIZE
              /\ 0 <= Zombie.y zombie /\ Zombie.y zombie < canvas_height w)
          \/ (Zombie.y zombie = canvas_height w + ZOMBIE_SIZE
              /\ 0 <= Zombie.x zombie /\ Zombie.x zombie < canvas_width w)
          \/ (Zombie.x zombie = - ZOMBIE_SIZE
              /\ 0 <= Zombie.y zombie /\ Zombie.y zombie < canvas_height w))
      /\ (Zombie.x zombie < 0 \/ canvas_width w < Zombie.x zombie
          \/ Zombie.y zombie < 0 \/ canvas_height w < Zombie.y zombie).
Proof.
  intros w Hcw Hch. unfold spawnZombie. wsimpl.
  destruct (random_scaled (S (randomDraws w)) (canvas_width w) Hcw)
    as [Hx0 Hx1].
  destruct (random_scaled (S (randomDraws w)) (canvas_height w) Hch)
    as [Hy0 Hy1].
  assert (Hneg : - ZOMBIE_SIZE < 0) by reflexivity.
  assert (Hpos : forall side, side < side + ZOMBIE_SIZE)
    by (intros side; unfold ZOMBIE_SIZE; lra).
  destruct (_ =? 0)%Z; [|destruct (_ =? 1)%Z; [|destruct (_ =? 2)%Z]];
    eexists; (split; [reflexivity|]); wsimpl; unfold Zombie_new; wsimpl;
    (split; [reflexivity|]); (split; [reflexivity|]);
    (split; [reflexivity|]); (split; [reflexivity|]); split.
  - left. auto.
  - right. right. left. exact Hneg.
  - right. left. auto.
  - right. left. apply Hpos.
  - right. right. left. auto.
  - right. right. right. apply Hpos.
  - right. right. right. auto.
  - left. exact Hneg.
Qed.

(** *** Upgrades *)

Lemma applyUpgrade_triple_shot :
  forall w,
    Player_applyUpgrade "triple_shot" w
    = set_player
        (Player.set_currentShotDelay 300%Z
           (Player.set_tripleShotEndTime
              (Date_now (clockReads w) + UPGRADE_DURATION)%Z (player w)))
        (set_clockReads (S (clockReads w)) w).
Proof.
  intros w. unfold Player_applyUpgrade.
  change (String.eqb "triple_shot" "health_pack") with false.
  change (String.eqb "triple_shot" "triple_shot") with true.
  wsimpl. reflexivity.
Qed.

Lemma applyUpgrade_damage_boost_eq :
  forall w,
    Player_applyUpgrade "damage_boost" w
    = set_player
        (Player.set_damageBoostEndTime
           (Date_now (clockReads w) + UPGRADE_DURATION)%Z (player w))
        (set_clockReads (S (clockReads w)) w).
Proof.
  intros w. unfold Player_applyUpgrade.
  change (String.eqb "damage_boost" "health_pack") with false.
  change (String.eqb "damage_boost" "triple_shot") with false.
  change (String.eqb "damage_boost" "damage_boost") with true.
  wsimpl. reflexivity.
Qed.

Lemma applyUpgrade_health_pack :
  forall w,
    Player_applyUpgrade "health_pack" w
    = set_player
        (Player.set_health (Z.min MAX_HEALTH (Player.health (player w) + 30))
           (player w))
        w.
Proof.
  intros w. unfold Player_applyUpgrade.
  change (String.eqb "health_pack" "health_pack") with true.
  reflexivity.
Qed.

(** X12.  The two timed upgrades keep separate timers.  Triple shot sets
    its own end-timestamp (and the shot delay of 300 ms) and leaves the
    damage boost's alone, and the other way round; neither touches the
    health or the damage multiplier.  Collecting an upgrade again sets its
    end-timestamp to that moment plus [UPGRADE_DURATION]: the time left
    from before is not added. *)
Theorem timed_upgrades_are_independent :
  forall (w : World),
    let n := clockReads w in
    let w1 := Player_applyUpgrade "triple_shot" w in
    let w2 := Player_applyUpgrade "damage_boost" w1 in
    let w3 := Player_applyUpgrade "triple_shot" w2 in
    Player.tripleShotEndTime (player w1) = (Date_now n + UPGRADE_DURATION)%Z
    /\ Player.currentShotDelay (player w1) = 300%Z
    /\ Player.damageBoostEndTime (player w1)
       = Player.damageBoostEndTime (player w)
    /\ Player.damageBoostEndTime (player w2)
       = (Date_now (S n) + UPGRADE_DURATION)%Z
    /\ Player.tripleShotEndTime (player w2)
       = Player.tripleShotEndTime (player w1)
    /\ Player.tripleShotEndTime (player w3)
       = (Date_now (S (S n)) + UPGRADE_DURATION)%Z
    /\ Player.damageBoostEndTime (player w3)
       = Player.damageBoostEndTime (player w2)
    /\ Player.health (player w3) = Player.health (player w)
    /\ Player.bulletDamageMultiplier (player w3)
       = Player.bulletDamageMultiplier (player w).
Proof.
  intros w n w1 w2 w3. subst w3 w2 w1 n.
  rewrite !applyUpgrade_triple_shot, !applyUpgrade_damage_boost_eq. wsimpl.
  rewrite ?applyUpgrade_triple_shot. wsimpl.
  repeat split; reflexivity.
Qed.

(** X13.  A health pack that the player touches before it expires is
    taken off the collection whatever the health.  It restores 30, up to
    the maximum of 100, reads no clock of its own and changes no timer; at
    full health it changes nothing at all. *)
Theorem health_pack_is_always_consumed :
  forall (w : World) (item : Item.t),
    Item.type item = "health_pack"%string ->
    (Date_now (clockReads w) - Item.creationTime item <= ITEM_LIFETIME)%Z ->
    playerTouches (player w) item = true ->
    let w' := snd (itemCallback item w) in
    let h := Player.health (player w) in
    fst (itemCallback item w) = false
    /\ player w' = Player.set_health (Z.min 100 (h + 30)) (player w)
    /\ clockReads w' = S (clockReads w)
    /\ ((h <= 70)%Z -> Player.health (player w') = (h + 30)%Z)
    /\ ((70 <= h <= 100)%Z -> Player.health (player w') = 100%Z)
    /\ (h = 100%Z -> w' = snd (readClock w)).
Proof.
  intros w item Hty Hfresh Hnear w' h. subst w' h.
  rewrite (itemCallback_collected item w Hfresh Hnear), Hty,
    applyUpgrade_health_pack.
  cbn [fst snd]. wsimpl. unfold MAX_HEALTH.
  split; [reflexivity|]. split; [reflexivity|]. split; [reflexivity|].
  split; [intros Hlow; lia|]. split; [intros Hhigh; lia|].
  intros Hfull. rewrite Hfull. change (Z.min 100 (100 + 30)) with 100%Z.
  destruct w as [cw ch id pend next over p bs zs its sc last
                   ks ms js touch d reads draws].
  cbn in Hfull. destruct p. cbn in Hfull. subst. reflexivity.
Qed.


(** *** The items in the collection *)

Lemma known_drops_refl :
  forall w w', items w' = items w -> known_drops w w'.
Proof.
  intros w w' Hi. exists []. rewrite app_nil_r. split; [exact Hi|constructor].
Qed.

Lemma known_drops_trans :
  forall w1 w2 w3, known_drops w1 w2 -> known_drops w2 w3 -> known_drops w1 w3.
Proof.
  intros w1 w2 w3 (d12 & Hi12 & Hf12) (d23 & Hi23 & Hf23).
  exists (d12 ++ d23). split.
  - rewrite Hi23, Hi12, app_assoc. reflexivity.
  - apply Forall_app. split; assumption.
Qed.

Lemma dropItem_known : forall zombie w, known_drops w (dropItem zombie w).
Proof.
  intros zombie w.
  destruct (dropItem_items zombie w) as [Hsame|(type & Hin & Hdrop)].
  - apply known_drops_refl. exact Hsame.
  - eexists. split; [exact Hdrop|]. constructor; [|constructor].
    split; [exact Hin|reflexivity].
Qed.

Lemma zombies_filter_known :
  forall bullet zs hit w,
    known_drops w (snd (zombies_filter bullet zs hit w)).
Proof.
  intros bullet zs. induction zs as [|zombie rest IH]; intros hit w.
  - apply known_drops_refl. reflexivity.
  - cbn [zombies_filter].
    assert (Hz : known_drops w (snd (zombieCallback bullet zombie hit w))).
    { unfold zombieCallback.
      destruct (bulletTouches bullet zombie);
        [|apply known_drops_refl; reflexivity].
      destruct (Qle_bool _ _); [|apply known_drops_refl; reflexivity].
      cbn [snd]. eapply known_drops_trans; [|apply dropItem_known].
      apply known_drops_refl. reflexivity. }
    destruct (zombieCallback bullet zombie hit w) as [[kept hit1] w1].
    specialize (IH hit1 w1).
    destruct (zombies_filter bullet rest hit1 w1) as [[rest' hit2] w2].
    cbn [snd] in *. eapply known_drops_trans; eassumption.
Qed.

Lemma bullets_filter_known :
  forall bs w, known_drops w (snd (bullets_filter bs w)).
Proof.
  induction bs as [|bullet rest IH]; intros w.
  - apply known_drops_refl. reflexivity.
  - cbn [bullets_filter].
    assert (Hb : known_drops w (snd (bulletCallback bullet w))).
    { unfold bulletCallback.
      pose proof (zombies_filter_known bullet (zombies w) false w) as Hz.
      destruct (zombies_filter bullet (zombies w) false w) as [[zs hit] w1].
      cbn [snd] in *. eapply known_drops_trans; [exact Hz|].
      apply known_drops_refl. reflexivity. }
    destruct (bulletCallback bullet w) as [keep w1].
    specialize (IH w1).
    destruct (bullets_filter rest w1) as [rest' w2].
    cbn [snd] in *. eapply known_drops_trans; eassumption.
Qed.

Lemma items_filter_subset :
  forall (P : Item.t -> Prop) its w,
    Forall P its -> Forall P (fst (items_filter its w)).
Proof.
  intros P. induction its as [|item rest IH]; intros w Hall;
    cbn [items_filter]; [constructor|].
  inversion Hall as [|? ? Hitem Hrest]; subst.
  destruct (itemCallback item w) as [keep w1].
  specialize (IH w1 Hrest).
  destruct (items_filter rest w1) as [rest' w2]. cbn [fst] in *.
  destruct keep; [constructor|]; assumption.
Qed.

(** X14.  While the game runs, a tick keeps the item collection to items
    of the three known types and of the size of items: every item a dying
    zombie drops is one, and the item phase adds none.  Every later
    collection therefore applies one of the three upgrades. *)
Theorem items_stay_known :
  forall (w : World),
    isGameOver w = false ->
    Forall knownItem (items w) ->
    Forall knownItem (items (updateGame w)).
Proof.
  intros w Hrun Hall. unfold updateGame. rewrite Hrun.
  set (w1 := spawnPhase w).
  set (w2 := updateEntities w1).
  set (w3 := itemPhase w2).
  rewrite checkGameOver_items.
  assert (H2 : items w2 = items w).
  { destruct (updateEntities_items w1) as [Hi _]. fold w2 in Hi.
    rewrite Hi. apply spawnPhase_items. }
  assert (H3 : Forall knownItem (items w3)).
  { unfold w3. rewrite itemPhase_items. apply items_filter_subset.
    rewrite H2. exact Hall. }
  unfold collisionPhase.
  pose proof (bullets_filter_known (bullets w3) w3) as (drops & Hd & Hf).
  destruct (bullets_filter (bullets w3) w3) as [bs w4]. cbn [snd] in Hd.
  wsimpl. rewrite Hd. apply Forall_app. split; assumption.
Qed.

(** *** Painting the items *)

Lemma even_tenth_alternates :
  forall now : Z,
    (Z.rem ((now + 100) / 100) 2 =? 0)%Z = negb (Z.rem (now / 100) 2 =? 0)%Z.
Proof.
  intros now.
  replace ((now + 100) / 100)%Z with (now / 100 + 1)%Z
    by (rewrite <- (Z.div_add now 1 100) by lia; f_equal; lia).
  set (q := (now / 100)%Z).
  destruct (Z.eqb_spec (Z.rem q 2) 0) as [Heven|Hodd];
    destruct (Z.eqb_spec (Z.rem (q + 1) 2) 0) as [Heven'|Hodd'];
    try reflexivity; exfalso.
  - apply Z.rem_divide in Heven; [|lia]. apply Z.rem_divide in Heven'; [|lia].
    destruct Heven as [a Ha]. destruct Heven' as [b Hb]. lia.
  - pose proof (Z.rem_bound_abs (q + 1) 2 ltac:(lia)) as Hb1.
    pose proof (Z.rem_bound_abs q 2 ltac:(lia)) as Hb2.
    pose proof (Z.quot_rem' q 2) as Hq.
    pose proof (Z.quot_rem' (q + 1) 2) as Hq1.
    lia.
Qed.

(** X15.  An item with at least [WARNING_TIME] of its lifetime left is
    painted in every frame.  With less left it flickers: it is painted
    exactly while the tenth of a second of the clock is odd, so that a
    frame 100 ms later shows it if and only if this one does not.  The
    clock is read once for it and nothing else is written. *)
Theorem item_flickers_before_expiry :
  forall (item : Item.t) (w : World),
    let now := Date_now (clockReads w) in
    let remaining := (ITEM_LIFETIME - (now - Item.creationTime item))%Z in
    snd (Item_draw item w) = snd (readClock w)
    /\ ((WARNING_TIME <= remaining)%Z -> fst (Item_draw item w) = true)
    /\ ((remaining < WARNING_TIME)%Z ->
        fst (Item_draw item w) = negb (Z.rem (now / 100) 2 =? 0)%Z
        /\ forall w' : World,
             Date_now (clockReads w') = (now + 100)%Z ->
             (ITEM_LIFETIME - (now + 100 - Item.creationTime item)
              < WARNING_TIME)%Z ->
             fst (Item_draw item w') = negb (fst (Item_draw item w))).
Proof.
  intros item w now remaining.
  assert (Hdraw : forall v,
             fst (Item_draw item v)
             = if (ITEM_LIFETIME - (Date_now (clockReads v)
                                    - Item.creationTime item)
                   <? WARNING_TIME)%Z
               then negb (Z.rem (Date_now (clockReads v) / 100) 2 =? 0)%Z
               else true).
  { intros v. unfold Item_draw. wsimpl.
    destruct (_ <? _)%Z; [|reflexivity].
    destruct (_ =? _)%Z; reflexivity. }
  split; [reflexivity|]. split.
  - intros Hlong. rewrite Hdraw. fold now. fold remaining.
    destruct (Z.ltb_spec remaining WARNING_TIME); [lia|reflexivity].
  - intros Hshort.
    assert (Hnow : fst (Item_draw item w) = negb (Z.rem (now / 100) 2 =? 0)%Z).
    { rewrite Hdraw. fold now. fold remaining.
      destruct (Z.ltb_spec remaining WARNING_TIME); [reflexivity|lia]. }
    split; [exact Hnow|].
    intros w' Hlater Hshort'. rewrite Hnow, Hdraw, Hlater.
    destruct (Z.ltb_spec (ITEM_LIFETIME - (now + 100 - Item.creationTime item))
                WARNING_TIME); [|lia].
    rewrite even_tenth_alternates. reflexivity.
Qed.


(** *** The frame loop *)

Lemma items_draw_frame :
  forall its w,
    set_clockReads 0 (snd (items_draw its w)) = set_clockReads 0 w.
Proof.
  induction its as [|item rest IH]; intros w; cbn [items_draw].
  - reflexivity.
  - assert (Hi : set_clockReads 0 (snd (Item_draw item w)) = set_clockReads 0 w)
      by reflexivity.
    destruct (Item_draw item w) as [shown w1]. cbn [snd] in Hi.
    specialize (IH w1).
    destruct (items_draw rest w1) as [rest' w2]. cbn [snd] in IH |- *.
    congruence.
Qed.

Lemma drawGame_frame :
  forall w, set_clockReads 0 (snd (drawGame w)) = set_clockReads 0 w.
Proof.
  intros w. unfold drawGame.
  pose proof (items_draw_frame (items w) w) as Hd.
  destruct (items_draw (items w) w) as [shown w1]. exact Hd.
Qed.

Lemma remove_single :
  forall h : nat, remove Nat.eq_dec h [h] = [].
Proof.
  intros h. cbn [remove]. destruct (Nat.eq_dec h h); [reflexivity|congruence].
Qed.

Lemma gameLoop_scheduler :
  forall w,
    let w' := gameLoop w in
    let w1 := updateGame w in
    isGameOver w' = isGameOver w1
    /\ (isGameOver w1 = true ->
        pendingFrames w' = pendingFrames w1 /\ gameLoopId w' = gameLoopId w1)
    /\ (isGameOver w1 = false ->
        pendingFrames w' = pendingFrames w1 ++ [nextFrameHandle w1]
        /\ gameLoopId w' = Some (nextFrameHandle w1)).
Proof.
  intros w w' w1. subst w'. unfold gameLoop. fold w1.
  pose proof (drawGame_frame w1) as Hd.
  destruct (drawGame w1) as [frame w2]. cbn [snd] in Hd.
  assert (Ho : isGameOver w2 = isGameOver w1)
    by exact (f_equal isGameOver Hd).
  assert (Hp : pendingFrames w2 = pendingFrames w1)
    by exact (f_equal pendingFrames Hd).
  assert (Hi : gameLoopId w2 = gameLoopId w1)
    by exact (f_equal gameLoopId Hd).
  assert (Hn : nextFrameHandle w2 = nextFrameHandle w1)
    by exact (f_equal nextFrameHandle Hd).
  rewrite Ho. destruct (isGameOver w1) eqn:Hover; cbn [negb]; wsimpl.
  - split; [exact Ho|]. split; [auto|discriminate].
  - split; [exact Ho|]. split; [discriminate|].
    intros _. unfold requestAnimationFrame. wsimpl.
    rewrite Hp, Hn. split; reflexivity.
Qed.

Lemma initGame_scheduler :
  forall w,
    pendingFrames (initGame w)
    = (if truthy (gameLoopId w)
       then pendingFrames (cancelAnimationFrame (gameLoopId w) w)
       else pendingFrames w) ++ [nextFrameHandle w]
    /\ gameLoopId (initGame w) = Some (nextFrameHandle w)
    /\ nextFrameHandle (initGame w) = S (nextFrameHandle w)
    /\ isGameOver (initGame w) = false.
Proof.
  intros w.
  destruct w as [cw ch id pend next over p bs zs its sc last
                   ks ms js touch d reads draws].
  destruct id as [[|h]|];
    cbv -[Qdiv Date_now Z.gtb Z.sub Z.div Z.max remove app];
    repeat split; reflexivity.
Qed.

(** X16.  The script keeps a single frame loop, for frame handles that
    are positive, as the ones [requestAnimationFrame] returns are.  If at
    most one frame is pending and [gameLoopId] records it, then
    [initGame] cancels it and leaves exactly one pending frame, the newly
    requested one, recorded in [gameLoopId], and the handles are positive
    again; and [gameOver] leaves none pending.  A run of [gameLoop], whose
    own frame is off the queue, leaves exactly one pending frame, recorded
    in [gameLoopId], if the game goes on, and none if it is over.  A
    handle of zero would fail the test [if (gameLoopId)] of [initGame]:
    its frame would stay pending beside the new one. *)
Theorem one_frame_loop :
  forall (w : World),
    (oneLoop w ->
     (positiveHandles w ->
      pendingFrames (initGame w) = [nextFrameHandle w]
      /\ gameLoopId (initGame w) = Some (nextFrameHandle w)
      /\ isGameOver (initGame w) = false
      /\ oneLoop (initGame w)
      /\ positiveHandles (initGame w))
     /\ pendingFrames (gameOver w) = []
     /\ (pendingFrames w = [] ->
         (isGameOver (gameLoop w) = false ->
          pendingFrames (gameLoop w) = [nextFrameHandle w]
          /\ gameLoopId (gameLoop w) = Some (nextFrameHandle w))
         /\ (isGameOver (gameLoop w) = true ->
             pendingFrames (gameLoop w) = [])))
    /\ (pendingFrames w = [0%nat] ->
        gameLoopId w = Some 0%nat ->
        pendingFrames (initGame w) = [0%nat; nextFrameHandle w]).
Proof.
  intros w. destruct (initGame_scheduler w) as (Hpend & Hid & Hnext & Hrun).
  split.
  - intros Hone. split; [|split].
    + intros [Hnz Hpos].
      assert (Hp : pendingFrames (initGame w) = [nextFrameHandle w]).
      { rewrite Hpend. destruct Hone as [Hp|(h & Hp & Hh)].
        - unfold cancelAnimationFrame.
          destruct (gameLoopId w) as [[|h]|]; cbn [truthy]; wsimpl;
            rewrite Hp; reflexivity.
        - rewrite Hh. destruct h as [|h].
          + exfalso. apply Hnz. rewrite Hp. left. reflexivity.
          + cbn [truthy cancelAnimationFrame]. wsimpl. rewrite Hp.
            rewrite remove_single. reflexivity. }
      split; [exact Hp|]. split; [exact Hid|]. split; [exact Hrun|].
      split.
      * right. exists (nextFrameHandle w). split; [exact Hp|exact Hid].
      * split.
        -- rewrite Hp. intros [H0|[]]. lia.
        -- rewrite Hnext. lia.
    + unfold gameOver, cancelAnimationFrame. wsimpl.
      destruct Hone as [Hp|(h & Hp & Hh)].
      * destruct (gameLoopId w); wsimpl; rewrite Hp; reflexivity.
      * rewrite Hh. wsimpl. rewrite Hp. apply remove_single.
    + intros Hnone.
      destruct (updateGame_fixtures w) as [Hfix Hincl].
      assert (Hp1 : pendingFrames (updateGame w) = []).
      { rewrite Hnone in Hincl.
        destruct (pendingFrames (updateGame w)) as [|h rest]; [reflexivity|].
        destruct (Hincl h). left. reflexivity. }
      assert (Hn1 : nextFrameHandle (updateGame w) = nextFrameHandle w).
      { unfold fixtures in Hfix. injection Hfix as _ _ _ -> _ _ _ _.
        reflexivity. }
      destruct (gameLoop_scheduler w) as (Ho & Hover & Hgoes).
      cbv zeta in Ho, Hover, Hgoes. rewrite Ho. split.
      * intros Hgo. destruct (Hgoes Hgo) as [-> ->].
        rewrite Hp1, Hn1. split; reflexivity.
      * intros Hend. destruct (Hover Hend) as [-> _]. exact Hp1.
  - intros Hp Hzero. rewrite Hpend, Hzero. cbn [truthy]. rewrite Hp.
    reflexivity.
Qed.


(** *** What the page shows after a tick *)

Lemma Player_update_scoreText :
  forall w,
    Display.scoreText (display (Player_update w)) = score w
    /\ score (Player_update w) = score w.
Proof.
  intros w. destruct (Player_update_shape w) as [p' ->].
  unfold updateStatsDisplay. wsimpl.
  destruct (Mouse.isFiring (mouse w)).
  - unfold Player_shoot, Player__createBullet. wsimpl.
    split_ifs; wsimpl; split; reflexivity.
  - wsimpl. split; reflexivity.
Qed.

Lemma updateEntities_scoreText :
  forall w, Display.scoreText (display (updateEntities w)) = score w.
Proof.
  intros w. unfold updateEntities.
  destruct (Player_update_scoreText w) as [Hs _].
  set (w1 := Player_update w) in *.
  set (w2 := set_bullets (map Bullet_update (bullets w1)) w1).
  pose proof (zombies_forEach_frame (zombies w2) w2) as Ha.
  destruct (zombies_forEach (zombies w2) w2) as [zs w3]. cbn [snd] in Ha.
  unfold attack_frame in Ha.
  apply (f_equal (fun v => Display.scoreText (display v))) in Ha.
  wsimpl. rewrite <- Hs. exact Ha.
Qed.

Lemma gameOver_message :
  forall w,
    Display.messagesVisible (display (gameOver w)) = true
    /\ Display.messageScore (display (gameOver w)) = score w
    /\ Display.scoreText (display (gameOver w))
       = Display.scoreText (display w)
    /\ score (gameOver w) = score w.
Proof.
  intros w. unfold gameOver, cancelAnimationFrame. wsimpl.
  destruct (gameLoopId w); wsimpl; repeat split; reflexivity.
Qed.

(** X17.  While the game runs, the score on the page after a tick is the
    score the tick started with: the page is refreshed by [Player.update],
    before the collisions of the tick are resolved, so the kills of a tick
    show a frame later.  When the tick ends with the health at zero or below,
    the game-over message is visible and carries the score after the
    tick, the kills of the tick included. *)
Theorem page_shows_score_of_tick_start :
  forall (w : World),
    isGameOver w = false ->
    let w' := updateGame w in
    Display.scoreText (display w') = score w
    /\ ((Player.health (player w') <= 0)%Z ->
        Display.messagesVisible (display w') = true
        /\ Display.messageScore (display w') = score w').
Proof.
  intros w Hrun w'. subst w'. unfold updateGame. rewrite Hrun.
  set (w1 := spawnPhase w).
  set (w2 := updateEntities w1).
  set (w3 := itemPhase w2).
  set (w4 := collisionPhase w3).
  destruct (spawnPhase_fixtures w) as (_ & _ & _ & S1 & _). fold w1 in S1.
  pose proof (updateEntities_scoreText w1) as T2. fold w2 in T2.
  destruct (itemPhase_frame w2) as (_ & _ & _ & _ & _ & _ & D3).
  fold w3 in D3.
  destruct (collisionPhase_spec w3) as (_ & _ & _ & D4 & _). fold w4 in D4.
  assert (T4 : Display.scoreText (display w4) = score w) by congruence.
  unfold checkGameOver.
  destruct (Z.leb_spec (Player.health (player w4)) 0) as [Hdead|Halive].
  - destruct (gameOver_message w4) as (Hv & Hm & Ht & Hs).
    rewrite Ht, Hv, Hm, Hs. split; [exact T4|]. intros _. split; reflexivity.
  - split; [exact T4|]. intros Hdead. lia.
Qed.


(** *** How the player moves *)

Lemma Player_update_steps :
  forall w,
    let p := player w in
    let step := Player_step (Player_input w) in
    Player.x (player (Player_update w))
    = clamp (Player.size p / 2) (canvas_width w - Player.size p / 2)
        (Player.x p + fst step)
    /\ Player.y (player (Player_update w))
       = clamp (Player.size p / 2) (canvas_height w - Player.size p / 2)
           (Player.y p + snd step).
Proof.
  intros w p step. subst p.
  assert (Hstep : step = Player_step (Player_input w)) by reflexivity.
  clearbody step. unfold clamp, Player_update. wsimpl.
  match goal with
  | |- context [let '(_, _) := ?e in _] => destruct e as [rx ry] eqn:Hin
  end.
  assert (Hin' : Player_input w = (rx, ry)) by exact Hin.
  rewrite Hin' in Hstep.
  match goal with
  | |- context [let '(_, _) := ?e in _] => destruct e as [sx sy] eqn:Hout
  end.
  assert (Hout' : Player_step (rx, ry) = (sx, sy)) by exact Hout.
  rewrite Hout' in Hstep. subst step. cbn [fst snd].
  rewrite updateStatsDisplay_player.
  destruct (Mouse.isFiring (mouse w)).
  - rewrite Player_shoot_player. wsimpl. split; reflexivity.
  - wsimpl. split; reflexivity.
Qed.


Lemma clamp_inside :
  forall lo hi v, lo <= v -> v <= hi -> clamp lo hi v == v.
Proof.
  intros lo hi v Hlo Hhi. unfold clamp.
  rewrite (Q.min_r hi v Hhi). apply Q.max_r. exact Hlo.
Qed.

(** X19.  With every key released and the joystick idle, [Player.update]
    leaves a player that is within the canvas where it is. *)
Theorem idle_player_stays_put :
  forall (w : World),
    keys w = Keys.mk false false false false false false false false ->
    Joystick.active (joystickState w) = false ->
    inArena w (player w) ->
    Player.x (player (Player_update w)) == Player.x (player w)
    /\ Player.y (player (Player_update w)) == Player.y (player w).
Proof.
  intros w Hkeys Hjoy (Hx0 & Hx1 & Hy0 & Hy1).
  destruct (Player_update_steps w) as [Hx Hy]. cbv zeta in Hx, Hy.
  assert (Hin : Player_input w = (0, 0)).
  { unfold Player_input. rewrite Hkeys, Hjoy. reflexivity. }
  rewrite Hin in Hx, Hy. cbn [Player_step fst snd] in Hx, Hy.
  change (Qeq_bool 0 0) with true in Hx, Hy. cbn [negb andb fst snd] in Hx, Hy.
  rewrite Hx, Hy. split.
  - rewrite clamp_inside; lra.
  - rewrite clamp_inside; lra.
Qed.

(** *** Pointer and canvas *)

Lemma getMousePos_some :
  forall rect clientX clientY w,
    ~ Rect.width rect == 0 ->
    ~ Rect.height rect == 0 ->
    getMousePos rect clientX clientY w
    = Some
        (set_mouse
           (Mouse.mk
              ((clientX - Rect.left rect)
               * (canvas_width w / Rect.width rect))
              ((clientY - Rect.top rect)
               * (canvas_height w / Rect.height rect))
              (Mouse.isFiring (mouse w)))
           w).
Proof.
  intros rect clientX clientY w Hw Hh. unfold getMousePos.
  assert (Hbw : Qeq_bool (Rect.width rect) 0 = false).
  { apply not_true_is_false. intros H. apply Qeq_bool_iff in H. tauto. }
  assert (Hbh : Qeq_bool (Rect.height rect) 0 = false).
  { apply not_true_is_false. intros H. apply Qeq_bool_iff in H. tauto. }
  rewrite Hbw, Hbh. reflexivity.
Qed.

(** X20.  For a canvas shown at least one pixel wide and high,
    [getMousePos] writes the mouse position and nothing else, and keeps
    the fire button.  It takes the top left corner of the rectangle the
    canvas occupies on the page to the origin of the canvas and every
    point right of or below that corner to a non-negative coordinate; it
    keeps the order of the pointers: one further right or further down on
    the page is not further left or further up on the canvas; and where
    the rectangle is the canvas itself, at the origin of the page and of
    its size, the client coordinates are taken as they are. *)
Theorem getMousePos_keeps_origin_and_order :
  forall (rect : Rect.t) (w : World) (clientX clientY : Q),
    1 <= Rect.width rect ->
    1 <= Rect.height rect ->
    0 <= canvas_width w ->
    0 <= canvas_height w ->
    exists w',
      getMousePos rect clientX clientY w = Some w'
      /\ set_mouse (mouse w) w' = w
      /\ Mouse.isFiring (mouse w') = Mouse.isFiring (mouse w)
      /\ (clientX == Rect.left rect -> Mouse.x (mouse w') == 0)
      /\ (clientY == Rect.top rect -> Mouse.y (mouse w') == 0)
      /\ (Rect.left rect <= clientX -> 0 <= Mouse.x (mouse w'))
      /\ (Rect.top rect <= clientY -> 0 <= Mouse.y (mouse w'))
      /\ (forall furtherX furtherY w'',
            getMousePos rect furtherX furtherY w = Some w'' ->
            (clientX <= furtherX -> Mouse.x (mouse w') <= Mouse.x (mouse w''))
            /\ (clientY <= furtherY ->
                Mouse.y (mouse w') <= Mouse.y (mouse w'')))
      /\ (Rect.left rect == 0 -> Rect.width rect == canvas_width w ->
          Mouse.x (mouse w') == clientX)
      /\ (Rect.top rect == 0 -> Rect.height rect == canvas_height w ->
          Mouse.y (mouse w') == clientY).
Proof.
  intros rect w clientX clientY Hw Hh Hcw Hch.
  assert (Hwn : ~ Rect.width rect == 0) by lra.
  assert (Hhn : ~ Rect.height rect == 0) by lra.
  assert (Hsx : 0 <= canvas_width w / Rect.width rect).
  { unfold Qdiv. apply Qmult_le_0_compat; [exact Hcw|].
    apply Qinv_le_0_compat. lra. }
  assert (Hsy : 0 <= canvas_height w / Rect.height rect).
  { unfold Qdiv. apply Qmult_le_0_compat; [exact Hch|].
    apply Qinv_le_0_compat. lra. }
  eexists. split; [apply getMousePos_some; assumption|].
  wsimpl. split; [destruct w; reflexivity|]. split; [reflexivity|].
  set (scaleX := canvas_width w / Rect.width rect) in *.
  set (scaleY := canvas_height w / Rect.height rect) in *.
  split; [intros ->; ring|]. split; [intros ->; ring|].
  split; [intros H; nra|]. split; [intros H; nra|].
  split; [|split].
  - intros furtherX furtherY w'' Hsome.
    rewrite (getMousePos_some rect furtherX furtherY w Hwn Hhn) in Hsome.
    injection Hsome as <-. wsimpl. fold scaleX. fold scaleY.
    split; intros H; nra.
  - intros Hl Hwc. subst scaleX. rewrite Hl, <- Hwc. field. exact Hwn.
  - intros Ht Hhc. subst scaleY. rewrite Ht, <- Hhc. field. exact Hhn.
Qed.

Lemma canvasDimension_size :
  forall (default innerWidth : Z),
    (0 <= innerWidth)%Z ->
    canvasDimension default (Qmin (inject_Z innerWidth * 0.9) 800)
    = inject_Z (Z.min (9 * innerWidth / 10) 800).
Proof.
  intros default innerWidth Hpos.
  unfold canvasDimension, toUnsignedLong, Qmin, GenericMinMax.gmin.
  assert (Hcmp : Qcompare (inject_Z innerWidth * 0.9) 800
                 = (innerWidth * 9 ?= 8000)%Z).
  { unfold Qcompare. cbn [Qnum Qden Qmult inject_Z].
    f_equal. cbn. lia. }
  rewrite Hcmp.
  assert (Hq : forall n : Z,
             (0 <= n <= 800)%Z ->
             (if (n mod 2 ^ 32 <=? 2147483647)%Z then (n mod 2 ^ 32)%Z
              else default) = n).
  { intros n Hn. rewrite Z.mod_small by lia.
    destruct (Z.leb_spec n 2147483647); [reflexivity|lia]. }
  replace (9 * innerWidth)%Z with (innerWidth * 9)%Z by lia.
  pose proof (Z.mul_div_le (innerWidth * 9) 10 eq_refl) as Hlow.
  pose proof (Z.mul_succ_div_gt (innerWidth * 9) 10 eq_refl) as Hupp.
  destruct (Z.compare_spec (innerWidth * 9) 8000) as [Hc|Hc|Hc].
  - cbn [Qnum Qden Qmult inject_Z]. change (Z.pos (1 * 10)) with 10%Z.
    rewrite Z.quot_div_nonneg by lia. f_equal.
    rewrite Hq by lia. rewrite Z.min_l by lia. reflexivity.
  - cbn [Qnum Qden Qmult inject_Z]. change (Z.pos (1 * 10)) with 10%Z.
    rewrite Z.quot_div_nonneg by lia. f_equal.
    rewrite Hq by lia. rewrite Z.min_l by lia. reflexivity.
  - cbn [Qnum Qden]. change (Z.quot 800 (Z.pos 1)) with 800%Z.
    f_equal. rewrite Hq by lia.
    rewrite Z.min_r by lia. reflexivity.
Qed.

(** X21.  [resizeCanvas] makes the canvas a square of whole pixels: its
    side is nine tenths of the window's inner width rounded down, at most
    800, so that an inner width of 501 gives a side of 450.  It puts the
    player at the centre of that square, which is within the canvas if
    the player is no larger than the side; the collections, the score
    and the game-over flag are left as they are. *)
Theorem resizeCanvas_square_and_centred :
  forall (innerWidth : Z) (rect : Rect.t) (w : World),
    (0 <= innerWidth)%Z ->
    ~ Rect.width rect == 0 ->
    ~ Rect.height rect == 0 ->
    let side := inject_Z (Z.min (9 * innerWidth / 10) 800) in
    exists w',
      resizeCanvas innerWidth rect w = Some w'
      /\ canvas_width w' = side
      /\ canvas_height w' = side
      /\ Player.x (player w') = side / 2
      /\ Player.y (player w') = side / 2
      /\ Player.size (player w') = Player.size (player w)
      /\ (Player.size (player w) <= side -> inArena w' (player w'))
      /\ (isGameOver w', bullets w', zombies w', items w', score w')
         = (isGameOver w, bullets w, zombies w, items w, score w).
Proof.
  intros innerWidth rect w Hpos Hwn Hhn side.
  unfold resizeCanvas. rewrite getMousePos_some by assumption.
  eexists. split; [reflexivity|].
  wsimpl. cbn [set_canvas canvas_width canvas_height player isGameOver
               bullets zombies items score].
  wsimpl.
  rewrite !(canvasDimension_size _ innerWidth Hpos). fold side.
  split; [reflexivity|]. split; [reflexivity|].
  split; [reflexivity|]. split; [reflexivity|].
  split; [reflexivity|]. split; [|reflexivity].
  intros Hfit. unfold inArena. wsimpl.
  cbn [set_canvas canvas_width canvas_height player] in *. wsimpl.
  rewrite ?(canvasDimension_size _ innerWidth Hpos). fold side.
  unfold Qdiv in *. change (/ 2) with (1 # 2) in *.
  split; [|split; [|split]]; lra.
Qed.

(** X22.  [updateJoystick] keeps both components of the joystick's
    movement between -1 and 1, however far the touch is from the centre
    of the joystick, for a host whose square root is not negative and
    whose cosine and sine are between -1 and 1. *)
Theorem joystick_movement_is_normalised :
  forall (currentX currentY : Q) (w : World),
    let j := joystickState w in
    let dxRaw := currentX - Joystick.startX j in
    let dyRaw := currentY - Joystick.startY j in
    let angle := Math_atan2 dyRaw dxRaw in
    0 <= dist 0 0 dxRaw dyRaw ->
    -1 <= Math_cos angle /\ Math_cos angle <= 1 ->
    -1 <= Math_sin angle /\ Math_sin angle <= 1 ->
    let j' := joystickState (updateJoystick currentX currentY w) in
    (-1 <= Joystick.dx j' /\ Joystick.dx j' <= 1)
    /\ (-1 <= Joystick.dy j' /\ Joystick.dy j' <= 1)
    /\ Joystick.active j' = Joystick.active j
    /\ Joystick.startX j' = Joystick.startX j
    /\ Joystick.startY j' = Joystick.startY j.
Proof.
  intros currentX currentY w j dxRaw dyRaw angle Hdist [Hc0 Hc1] [Hs0 Hs1] j'.
  subst j'. unfold updateJoystick. cbn [set_joystick joystickState].
  fold j. fold dxRaw. fold dyRaw. fold angle.
  cbn [Joystick.dx Joystick.dy Joystick.active Joystick.startX
       Joystick.startY].
  set (distance := Qmin (dist 0 0 dxRaw dyRaw) joystickRadius).
  assert (Hd0 : 0 <= distance).
  { unfold distance. apply Q.min_glb; [exact Hdist|].
    unfold joystickRadius. lra. }
  assert (Hd1 : distance <= 50) by apply Q.le_min_r.
  unfold joystickRadius, Qdiv. change (/ 50) with (1 # 50).
  set (c := Math_cos angle) in *. set (s := Math_sin angle) in *.
  repeat split; try reflexivity; nra.
Qed.

(** *** Painting *)

Lemma Item_draw_eq :
  forall item w,
    Item_draw item w
    = (paintedAt (Date_now (clockReads w)) item,
       set_clockReads (S (clockReads w)) w).
Proof.
  intros item w. unfold Item_draw, paintedAt. wsimpl.
  destruct (_ <? _)%Z; [|reflexivity].
  destruct (_ =? _)%Z; reflexivity.
Qed.

Lemma items_draw_at :
  forall its w now,
    (forall n, (clockReads w <= n)%nat -> Date_now n = now) ->
    fst (items_draw its w) = filter (paintedAt now) its.
Proof.
  induction its as [|item rest IH]; intros w now Hclock.
  - reflexivity.
  - cbn [items_draw filter]. rewrite Item_draw_eq.
    rewrite (Hclock (clockReads w) (le_n _)).
    specialize (IH (set_clockReads (S (clockReads w)) w) now).
    destruct (items_draw rest (set_clockReads (S (clockReads w)) w))
      as [rest' w2].
    cbn [fst] in *. rewrite IH; [reflexivity|].
    intros n Hn. apply Hclock. cbn [clockReads set_clockReads] in Hn. lia.
Qed.

Lemma items_draw_shown :
  forall its w,
    clockReads (snd (items_draw its w))
    = (clockReads w + List.length its)%nat
    /\ (forall item, In item (fst (items_draw its w)) -> In item its)
    /\ (forall item,
          In item its ->
          (forall n,
             (clockReads w <= n < clockReads w + List.length its)%nat ->
             (WARNING_TIME
              <= ITEM_LIFETIME - (Date_now n - Item.creationTime item))%Z) ->
          In item (fst (items_draw its w))).
Proof.
  induction its as [|item rest IH]; intros w.
  - cbn [items_draw fst snd List.length In].
    split; [lia|]. split; [tauto|tauto].
  - cbn [items_draw List.length]. rewrite Item_draw_eq.
    specialize (IH (set_clockReads (S (clockReads w)) w)).
    destruct (items_draw rest (set_clockReads (S (clockReads w)) w))
      as [rest' w2].
    cbn [fst snd clockReads set_clockReads] in *.
    destruct IH as (Hreads & Hsub & Hlong).
    split; [lia|]. split.
    + intros it Hin.
      destruct (paintedAt _ item); [destruct Hin as [<-|Hin]|].
      * left. reflexivity.
      * right. exact (Hsub _ Hin).
      * right. exact (Hsub _ Hin).
    + intros it [<-|Hin] Hall.
      * assert (Hp : paintedAt (Date_now (clockReads w)) item = true).
        { unfold paintedAt.
          assert (Hw := Hall (clockReads w)).
          destruct (Z.ltb_spec
                      (ITEM_LIFETIME
                       - (Date_now (clockReads w) - Item.creationTime item))
                      WARNING_TIME); [lia|reflexivity]. }
        rewrite Hp. left. reflexivity.
      * assert (Hin' : In it rest').
        { apply Hlong; [exact Hin|]. intros n Hn. apply Hall. lia. }
        destruct (paintedAt _ item); [right|]; exact Hin'.
Qed.

(** X23.  [drawGame] paints the background, the player, every bullet,
    every zombie with its health bar, the items that show, and the player
    once more on top, in this order.  It writes nothing but the count of
    clock reads, which it raises by one for each item.  Of the items only
    items of the collection show, and every item with [WARNING_TIME] or
    more of its lifetime left throughout the frame is among them; in a
    frame painted at one time they are the items not hidden by the
    flicker, in the order of the collection. *)
Theorem drawGame_only_reads :
  forall (w : World),
    exists shown : list Item.t,
      fst (drawGame w)
      = PaintBackground (canvas_width w) (canvas_height w)
        :: Player_draw w
        :: map PaintBullet (bullets w)
           ++ map Zombie_draw (zombies w)
           ++ map PaintItem shown
           ++ [Player_draw w]
      /\ set_clockReads (clockReads w) (snd (drawGame w)) = w
      /\ clockReads (snd (drawGame w))
         = (clockReads w + List.length (items w))%nat
      /\ (forall item, In item shown -> In item (items w))
      /\ (forall item,
            In item (items w) ->
            (forall n,
               (clockReads w <= n < clockReads w + List.length (items w))%nat ->
               (WARNING_TIME
                <= ITEM_LIFETIME - (Date_now n - Item.creationTime item))%Z) ->
            In item shown)
      /\ (forall now,
            (forall n, (clockReads w <= n)%nat -> Date_now n = now) ->
            shown = filter (paintedAt now) (items w)).
Proof.
  intros w. exists (fst (items_draw (items w) w)).
  pose proof (items_draw_frame (items w) w) as Hf.
  destruct (items_draw_shown (items w) w) as (Hreads & Hsub & Hlong).
  pose proof (items_draw_at (items w) w) as Hat.
  unfold drawGame.
  destruct (items_draw (items w) w) as [shown w1]. cbn [fst snd] in *.
  assert (Hp : Player_draw w1 = Player_draw w).
  { unfold Player_draw.
    rewrite (f_equal player Hf : player w1 = player w).
    rewrite (f_equal mouse Hf : mouse w1 = mouse w). reflexivity. }
  split.
  { rewrite Hp. cbn [app]. rewrite <- !app_assoc. reflexivity. }
  split.
  { apply (f_equal (set_clockReads (clockReads w))) in Hf.
    destruct w; exact Hf. }
  split; [exact Hreads|]. split; [exact Hsub|]. split; [exact Hlong|].
  exact Hat.
Qed.

End Properties.

(** ** The properties at work on the sample worlds *)

(** C1, counterexample.  With a bullet within reach of two zombies, the
    collision phase damages both (each is left at 20) and the bullet is
    removed, whereas "the first hit only" would leave the second zombie at
    30. *)
Lemma bullet_damages_every_zombie_it_touches :
  map Zombie.health (zombies (@collisionPhase quietHost crossfireWorld))
  = [20; 20]
  /\ map Zombie.health
       (@afterBullet_firstHitOnly quietHost 1 (sampleBullet 100 100)
          (zombies crossfireWorld))
     = [20; 30]
  /\ bullets (@collisionPhase quietHost crossfireWorld) = [].
Proof. vm_compute. repeat split; reflexivity. Qed.

(** A bullet whose only hit kills is still in the collection after the
    phase: the callback returns before it raises [hit]. *)
Example killing_bullet_is_kept :
  zombies (@collisionPhase quietHost lastHitWorld) = []
  /\ score (@collisionPhase quietHost lastHitWorld) = 10%Z
  /\ bullets (@collisionPhase quietHost lastHitWorld)
     = [sampleBullet 100 100].
Proof. vm_compute. repeat split; reflexivity. Qed.

(** C1 at work: of three bullets, the second wounds the only zombie when
    its turn comes and is gone after the phase, which leaves two bullets;
    the first, which touches no zombie and is on screen, is kept. *)
Lemma bullet_zombie_collision_witness :
  In (sampleBullet 100 100) (bullets salvoWorld)
  /\ bullets salvoWorld
     = [sampleBullet 403 504] ++ sampleBullet 100 100 :: [sampleBullet 103 604]
  /\ existsb
       (@woundedBy quietHost
          (Player.bulletDamageMultiplier (player salvoWorld))
          (sampleBullet 100 100))
       (@afterBullets quietHost
          (Player.bulletDamageMultiplier (player salvoWorld))
          [sampleBullet 403 504] (zombies salvoWorld))
     = true
  /\ ~ In (sampleBullet 100 100)
        (bullets (@collisionPhase quietHost salvoWorld))
  /\ (List.length (bullets (@collisionPhase quietHost salvoWorld))
      < List.length (bullets salvoWorld))%nat
  /\ In (sampleBullet 403 504)
        (bullets (@collisionPhase quietHost salvoWorld)).
Proof.
  assert (Hin : In (sampleBullet 100 100) (bullets salvoWorld))
    by (right; left; reflexivity).
  assert (Hsplit : bullets salvoWorld
                   = [sampleBullet 403 504]
                     ++ sampleBullet 100 100 :: [sampleBullet 103 604])
    by reflexivity.
  assert (Hwound : existsb
                     (@woundedBy quietHost
                        (Player.bulletDamageMultiplier (player salvoWorld))
                        (sampleBullet 100 100))
                     (@afterBullets quietHost
                        (Player.bulletDamageMultiplier (player salvoWorld))
                        [sampleBullet 403 504] (zombies salvoWorld))
                   = true)
    by (vm_compute; reflexivity).
  split; [exact Hin|]. split; [exact Hsplit|]. split; [exact Hwound|].
  destruct (@bullet_zombie_collision quietHost salvoWorld
              (sampleBullet 100 100) Hin) as (_ & _ & _ & _ & Hgone).
  destruct (Hgone [sampleBullet 403 504] [sampleBullet 103 604]
              Hsplit Hwound) as (_ & Hless & Hout).
  split.
  { apply Hout.
    - intros [H|[]]. discriminate H.
    - intros [H|[]]. discriminate H. }
  split; [exact Hless|].
  assert (Hin' : In (sampleBullet 403 504) (bullets salvoWorld))
    by (left; reflexivity).
  destruct (@bullet_zombie_collision quietHost salvoWorld
              (sampleBullet 403 504) Hin') as (_ & Hkept & _).
  apply Hkept; [repeat constructor|]. vm_compute. reflexivity.
Defined.

(** C2, counterexample.  A player at health 10 attacked by two zombies in
    one tick is stored with health -10 after the update. *)
Lemma health_goes_negative :
  (Player.health (player corneredWorld) <= MAX_HEALTH)%Z
  /\ Player.health (player (@updateGame quietHost corneredWorld))
     = (-10)%Z
  /\ isGameOver (@updateGame quietHost corneredWorld) = true.
Proof. vm_compute. split; [discriminate|split; reflexivity]. Qed.

Lemma player_health_after_tick_witness :
  (Player.health (player corneredWorld) <= MAX_HEALTH)%Z
  /\ (Player.health (player (@updateGame quietHost corneredWorld))
      <= MAX_HEALTH)%Z.
Proof.
  assert (Hmax : (Player.health (player corneredWorld) <= MAX_HEALTH)%Z)
    by (vm_compute; discriminate).
  split; [exact Hmax|].
  exact (proj1 (@player_health_after_tick quietHost corneredWorld Hmax)).
Defined.

(** C3, counterexample.  At time [t0 + 15000] an item created at [t0] has
    a remaining lifetime of zero, and it is still in the collection after
    the item phase, and after the whole tick. *)
Lemma item_alive_at_zero_remaining :
  (ITEM_LIFETIME - ((t0 + 15000) - Item.creationTime relic) <= 0)%Z
  /\ In relic (items (@itemPhase (hostAt (t0 + 15000)) relicWorld))
  /\ In relic (items (@updateGame (hostAt (t0 + 15000)) relicWorld)).
Proof.
  split; [vm_compute; discriminate|].
  split; vm_compute; left; reflexivity.
Qed.

Lemma item_expiry_witness :
  (forall n, (clockReads relicWorld <= n)%nat
             -> @Date_now (hostAt (t0 + 15001)) n = (t0 + 15001)%Z)
  /\ ~ In relic (items (@itemPhase (hostAt (t0 + 15001)) relicWorld))
  /\ ~ In relic (items (@updateGame (hostAt (t0 + 15001)) relicWorld)).
Proof.
  assert (Hclock : forall n, (clockReads relicWorld <= n)%nat
                             -> @Date_now (hostAt (t0 + 15001)) n
                                = (t0 + 15001)%Z)
    by (intros n _; reflexivity).
  split; [exact Hclock|].
  destruct (@item_expiry (hostAt (t0 + 15001)) relicWorld (t0 + 15001)%Z
              Hclock)
    as (_ & _ & Hphase & Htick).
  split.
  - destruct (Hphase relic t0) as (_ & Hgone);
      [left; reflexivity|reflexivity|].
    apply Hgone. reflexivity.
  - destruct (Htick eq_refl relic t0) as (_ & Hgone);
      [left; reflexivity|reflexivity|].
    apply Hgone. reflexivity.
Defined.

(** Two ticks on [boostWorld], the clock advancing.  In the first the
    boost is collected and the first bullet hits the zombie for 10; in the
    second the other bullet hits it for 15. *)
Example boost_collected_then_applied :
  let t1 := @updateGame (hostFrom (t0 + 1200)) boostWorld in
  let t2 := @updateGame (hostFrom (t0 + 1200)) t1 in
  items t1 = []
  /\ Player.damageBoostEndTime (player t1) = (t0 + 1204 + 10000)%Z
  /\ Player.bulletDamageMultiplier (player t1) = 1
  /\ map Zombie.health (zombies t1) = [20]
  /\ Player.bulletDamageMultiplier (player t2) = 1.5
  /\ map (fun z => Qred (Zombie.health z)) (zombies t2) = [5].
Proof. vm_compute. repeat split; reflexivity. Qed.

Lemma damage_boost_applies_from_next_tick_witness :
  isGameOver boostWorld = false
  /\ Player.bulletDamageMultiplier
       (player (@updateGame quietHost boostWorld)) = 1.
Proof.
  split; [reflexivity|].
  destruct (@damage_boost_applies_from_next_tick quietHost boostWorld
              eq_refl) as (_ & _ & _ & Hm & _).
  exact Hm.
Defined.

Lemma three_hits_kill_a_zombie_witness :
  Player.bulletDamageMultiplier (player volleyWorld) = 1
  /\ @bulletTouches quietHost (sampleBullet 100 100) (sampleZombie 103 104)
     = true
  /\ zombies (@collisionPhase quietHost volleyWorld) = []
  /\ score (@collisionPhase quietHost volleyWorld) = 10%Z.
Proof.
  assert (Hm : Player.bulletDamageMultiplier (player volleyWorld) = 1)
    by reflexivity.
  assert (H1 : @bulletTouches quietHost (sampleBullet 100 100)
                 (sampleZombie 103 104) = true)
    by (vm_compute; reflexivity).
  assert (H2 : @bulletTouches quietHost (sampleBullet 103 100)
                 (sampleZombie 103 104) = true)
    by (vm_compute; reflexivity).
  assert (H3 : @bulletTouches quietHost (sampleBullet 100 104)
                 (sampleZombie 103 104) = true)
    by (vm_compute; reflexivity).
  split; [exact Hm|]. split; [exact H1|].
  destruct (@three_hits_kill_a_zombie quietHost volleyWorld
              (sampleBullet 100 100) (sampleZombie 103 104) false Hm H1)
    as (_ & _ & _ & _ & Hphase).
  destruct (Hphase (sampleBullet 103 100) (sampleBullet 100 104) H2 H3
              eq_refl eq_refl) as (_ & _ & Hthree).
  exact (Hthree eq_refl).
Defined.

Lemma damage_boost_round_trip_witness :
  Item.type boost = "damage_boost"%string
  /\ (@Date_now quietHost (clockReads boostWorld)
      - Item.creationTime boost <= ITEM_LIFETIME)%Z
  /\ @playerTouches quietHost (player boostWorld) boost = true
  /\ Player.damageBoostEndTime
       (player (snd (@itemCallback quietHost boost boostWorld)))
     = (t0 + 1200 + 10000)%Z.
Proof.
  assert (Hfresh : (@Date_now quietHost (clockReads boostWorld)
                    - Item.creationTime boost <= ITEM_LIFETIME)%Z)
    by (vm_compute; discriminate).
  assert (Hnear : @playerTouches quietHost (player boostWorld) boost
                  = true)
    by (vm_compute; reflexivity).
  split; [reflexivity|]. split; [exact Hfresh|]. split; [exact Hnear|].
  destruct (@damage_boost_round_trip quietHost boostWorld boost
              eq_refl Hfresh Hnear) as (_ & Hend & _).
  exact Hend.
Defined.

Lemma shoot_bullets_witness :
  (@Date_now quietHost (clockReads tripleWorld)
   - Player.lastShotTime (player tripleWorld)
   > Player.currentShotDelay (player tripleWorld))%Z
  /\ bullets (@Player_shoot quietHost tripleWorld)
     = [@bulletAlong quietHost (player tripleWorld) (-0.35);
        @bulletAlong quietHost (player tripleWorld) 0;
        @bulletAlong quietHost (player tripleWorld) 0.35].
Proof.
  assert (Hcool : (@Date_now quietHost (clockReads tripleWorld)
                   - Player.lastShotTime (player tripleWorld)
                   > Player.currentShotDelay (player tripleWorld))%Z)
    by reflexivity.
  split; [exact Hcool|].
  destruct (@shoot_bullets quietHost tripleWorld Hcool)
    as (_ & Hzero & _).
  apply Hzero; reflexivity.
Defined.

Lemma spawn_interval_and_policy_witness :
  (0 <= score missWorld)%Z
  /\ currentSpawnInterval (score missWorld) = 1500%Z
  /\ zombies (@spawnPhase quietHost missWorld) = zombies missWorld.
Proof.
  assert (Hscore : (0 <= score missWorld)%Z) by (vm_compute; discriminate).
  split; [exact Hscore|].
  destruct (@spawn_interval_and_policy quietHost missWorld Hscore)
    as (Hdef & _ & _ & _ & _ & _ & Hidle).
  split; [exact Hdef|].
  apply Hidle. vm_compute. discriminate.
Defined.

Lemma applyUpgrade_unknown_type_is_noop_witness :
  "speed_boost"%string <> "health_pack"%string
  /\ "speed_boost"%string <> "triple_shot"%string
  /\ "speed_boost"%string <> "damage_boost"%string
  /\ @Player_applyUpgrade quietHost "speed_boost" missWorld = missWorld.
Proof.
  assert (Hh : "speed_boost"%string <> "health_pack"%string) by discriminate.
  assert (Ht : "speed_boost"%string <> "triple_shot"%string) by discriminate.
  assert (Hd : "speed_boost"%string <> "damage_boost"%string) by discriminate.
  split; [exact Hh|]. split; [exact Ht|]. split; [exact Hd|].
  exact (@applyUpgrade_unknown_type_is_noop quietHost "speed_boost"
           missWorld Hh Ht Hd).
Defined.

(** ** The further properties at work on the sample worlds *)

Lemma player_stays_in_arena_witness :
  isGameOver corneredWorld = false
  /\ Player.size (player corneredWorld) <= canvas_width corneredWorld
  /\ Player.size (player corneredWorld) <= canvas_height corneredWorld
  /\ inArena (@updateGame quietHost corneredWorld)
       (player (@updateGame quietHost corneredWorld)).
Proof.
  assert (Hrun : isGameOver corneredWorld = false) by reflexivity.
  assert (Hw : Player.size (player corneredWorld)
               <= canvas_width corneredWorld)
    by (vm_compute; discriminate).
  assert (Hh : Player.size (player corneredWorld)
               <= canvas_height corneredWorld)
    by (vm_compute; discriminate).
  split; [exact Hrun|]. split; [exact Hw|]. split; [exact Hh|].
  exact (proj1 (@player_stays_in_arena quietHost corneredWorld Hrun Hw Hh)).
Defined.

Lemma zombies_stay_sound_witness :
  isGameOver crossfireWorld = false
  /\ Forall zombieSound (zombies crossfireWorld)
  /\ map Zombie.health
       (zombies (@updateGame (hostAt (t0 + 2000)) crossfireWorld))
     = [20; 20; 30]
  /\ Forall zombieSound
       (zombies (@updateGame (hostAt (t0 + 2000)) crossfireWorld)).
Proof.
  assert (Hrun : isGameOver crossfireWorld = false) by reflexivity.
  assert (Hsound : Forall zombieSound (zombies crossfireWorld)).
  { constructor; [|constructor; [|constructor]].
    - split; [vm_compute; reflexivity|].
      split; [vm_compute; discriminate|].
      split; [reflexivity|vm_compute; reflexivity].
    - split; [vm_compute; reflexivity|].
      split; [vm_compute; discriminate|].
      split; [reflexivity|vm_compute; reflexivity]. }
  split; [exact Hrun|]. split; [exact Hsound|].
  split; [vm_compute; reflexivity|].
  exact (proj1 (@zombies_stay_sound (hostAt (t0 + 2000)) crossfireWorld
                  Hrun Hsound)).
Defined.

Lemma score_counts_kills_witness :
  isGameOver lastHitWorld = false
  /\ exists kills : nat,
       score (@updateGame quietHost lastHitWorld)
       = (score lastHitWorld + 10 * Z.of_nat kills)%Z
       /\ (List.length (zombies (@updateGame quietHost lastHitWorld)) + kills
           = List.length (zombies (@spawnPhase quietHost lastHitWorld)))%nat
       /\ (List.length (zombies (@spawnPhase quietHost lastHitWorld))
           <= List.length (zombies lastHitWorld) + 1)%nat.
Proof.
  assert (Hrun : isGameOver lastHitWorld = false) by reflexivity.
  split; [exact Hrun|].
  exact (@score_counts_kills quietHost lastHitWorld Hrun).
Defined.

Lemma zombie_attack_cooldown_witness :
  (@Date_now quietHost (clockReads corneredWorld)
   - Zombie.lastAttackTime (sampleZombie 390 400)
   > Zombie.ATTACK_DELAY (sampleZombie 390 400))%Z
  /\ Player.health
       (player (snd (@Zombie_attackPlayer quietHost (sampleZombie 390 400)
                       corneredWorld)))
     = (Player.health (player corneredWorld) - 10)%Z.
Proof.
  assert (Hdue : (@Date_now quietHost (clockReads corneredWorld)
                  - Zombie.lastAttackTime (sampleZombie 390 400)
                  > Zombie.ATTACK_DELAY (sampleZombie 390 400))%Z)
    by (vm_compute; reflexivity).
  split; [exact Hdue|].
  exact (proj1 (@zombie_attack_cooldown quietHost (sampleZombie 390 400)
                  corneredWorld Hdue)).
Defined.

Lemma health_drop_is_bounded_witness :
  isGameOver corneredWorld = false
  /\ (Player.health (player corneredWorld) <= MAX_HEALTH)%Z
  /\ (Player.health (player corneredWorld)
      - 10 * (Z.of_nat (List.length (zombies corneredWorld)) + 1)
      <= Player.health (player (@updateGame quietHost corneredWorld)))%Z.
Proof.
  assert (Hrun : isGameOver corneredWorld = false) by reflexivity.
  assert (Hmax : (Player.health (player corneredWorld) <= MAX_HEALTH)%Z)
    by (vm_compute; discriminate).
  split; [exact Hrun|]. split; [exact Hmax|].
  exact (@health_drop_is_bounded quietHost corneredWorld Hrun Hmax).
Defined.

Lemma game_ends_when_attacks_kill_witness :
  isGameOver corneredWorld = false
  /\ (0 < Player.health (player corneredWorld) <= MAX_HEALTH)%Z
  /\ isGameOver (@updateGame quietHost corneredWorld) = true.
Proof.
  assert (Hrun : isGameOver corneredWorld = false) by reflexivity.
  assert (Hhealth : (0 < Player.health (player corneredWorld)
                     <= MAX_HEALTH)%Z)
    by (split; vm_compute; [reflexivity|discriminate]).
  split; [exact Hrun|]. split; [exact Hhealth|].
  apply (proj1 (@game_ends_when_attacks_kill quietHost corneredWorld
                  Hrun Hhealth)).
  vm_compute. discriminate.
Defined.

Lemma bullets_after_tick_witness :
  isGameOver missWorld = false
  /\ (List.length (bullets (@updateGame quietHost missWorld))
      <= List.length (bullets missWorld))%nat.
Proof.
  assert (Hrun : isGameOver missWorld = false) by reflexivity.
  split; [exact Hrun|].
  destruct (@bullets_after_tick quietHost missWorld Hrun) as (_ & _ & Hidle).
  apply Hidle. reflexivity.
Defined.

Lemma shots_are_spaced_witness :
  (@Date_now quietHost (clockReads tripleWorld)
   - Player.lastShotTime (player tripleWorld)
   > Player.currentShotDelay (player tripleWorld))%Z
  /\ (@Date_now quietHost (S (clockReads tripleWorld))
      - @Date_now quietHost (clockReads tripleWorld)
      <= Player.currentShotDelay (player tripleWorld))%Z
  /\ bullets (@Player_shoot quietHost (@Player_shoot quietHost tripleWorld))
     = bullets (@Player_shoot quietHost tripleWorld).
Proof.
  assert (Hdue : (@Date_now quietHost (clockReads tripleWorld)
                  - Player.lastShotTime (player tripleWorld)
                  > Player.currentShotDelay (player tripleWorld))%Z)
    by (vm_compute; reflexivity).
  assert (Hsoon : (@Date_now quietHost (S (clockReads tripleWorld))
                   - @Date_now quietHost (clockReads tripleWorld)
                   <= Player.currentShotDelay (player tripleWorld))%Z)
    by (vm_compute; discriminate).
  split; [exact Hdue|]. split; [exact Hsoon|].
  destruct (@shots_are_spaced quietHost tripleWorld Hdue Hsoon)
    as (_ & Hsame & _).
  exact Hsame.
Defined.

Lemma zombies_enter_from_outside_witness :
  0 < canvas_width missWorld
  /\ 0 < canvas_height missWorld
  /\ exists zombie,
       zombies (@spawnZombie quietHost missWorld)
       = zombies missWorld ++ [zombie]
       /\ (Zombie.x zombie < 0 \/ canvas_width missWorld < Zombie.x zombie
           \/ Zombie.y zombie < 0
           \/ canvas_height missWorld < Zombie.y zombie).
Proof.
  assert (Hw : 0 < canvas_width missWorld) by (vm_compute; reflexivity).
  assert (Hh : 0 < canvas_height missWorld) by (vm_compute; reflexivity).
  split; [exact Hw|]. split; [exact Hh|].
  destruct (@zombies_enter_from_outside quietHost missWorld Hw Hh)
    as (zombie & Hnew & _ & _ & _ & _ & _ & Hout).
  exists zombie. split; [exact Hnew|exact Hout].
Defined.

Lemma health_pack_is_always_consumed_witness :
  Item.type medkit = "health_pack"%string
  /\ (@Date_now quietHost (clockReads woundedWorld)
      - Item.creationTime medkit <= ITEM_LIFETIME)%Z
  /\ @playerTouches quietHost (player woundedWorld) medkit = true
  /\ fst (@itemCallback quietHost medkit woundedWorld) = false
  /\ Player.health
       (player (snd (@itemCallback quietHost medkit woundedWorld)))
     = 80%Z.
Proof.
  assert (Htype : Item.type medkit = "health_pack"%string) by reflexivity.
  assert (Hfresh : (@Date_now quietHost (clockReads woundedWorld)
                    - Item.creationTime medkit <= ITEM_LIFETIME)%Z)
    by (vm_compute; discriminate).
  assert (Htouch : @playerTouches quietHost (player woundedWorld) medkit
                   = true)
    by (vm_compute; reflexivity).
  split; [exact Htype|]. split; [exact Hfresh|]. split; [exact Htouch|].
  destruct (@health_pack_is_always_consumed quietHost woundedWorld medkit
              Htype Hfresh Htouch) as (Hgone & _ & _ & Hlow & _).
  split; [exact Hgone|].
  apply Hlow. vm_compute. discriminate.
Defined.

Lemma items_stay_known_witness :
  isGameOver dropWorld = false
  /\ Forall knownItem (items dropWorld)
  /\ map Item.type (items (@updateGame luckyHost dropWorld))
     = ["health_pack"; "triple_shot"]%string
  /\ Forall knownItem (items (@updateGame luckyHost dropWorld)).
Proof.
  assert (Hrun : isGameOver dropWorld = false) by reflexivity.
  assert (Hknown : Forall knownItem (items dropWorld)).
  { constructor; [|constructor].
    split; [right; left; reflexivity|reflexivity]. }
  split; [exact Hrun|]. split; [exact Hknown|].
  split; [vm_compute; reflexivity|].
  exact (@items_stay_known luckyHost dropWorld Hrun Hknown).
Defined.

Lemma item_flickers_before_expiry_witness :
  (ITEM_LIFETIME - (t0 + 14050 - Item.creationTime relic) < WARNING_TIME)%Z
  /\ fst (@Item_draw (hostAt (t0 + 14050)) relic relicWorld) = false.
Proof.
  assert (Hlate : (ITEM_LIFETIME - (t0 + 14050 - Item.creationTime relic)
                   < WARNING_TIME)%Z)
    by (vm_compute; reflexivity).
  split; [exact Hlate|].
  destruct (@item_flickers_before_expiry (hostAt (t0 + 14050)) relic
              relicWorld) as (_ & _ & Hflicker).
  exact (proj1 (Hflicker Hlate)).
Defined.

Lemma one_frame_loop_witness :
  oneLoop missWorld
  /\ positiveHandles missWorld
  /\ pendingFrames (@initGame quietHost missWorld)
     = [nextFrameHandle missWorld]
  /\ pendingFrames (gameOver missWorld) = [].
Proof.
  assert (Hone : oneLoop missWorld).
  { right. exists 1%nat. split; reflexivity. }
  assert (Hpos : positiveHandles missWorld).
  { split.
    - intros [H|[]]. discriminate H.
    - repeat constructor. }
  split; [exact Hone|]. split; [exact Hpos|].
  destruct (proj1 (@one_frame_loop quietHost missWorld) Hone)
    as (Hinit & Hover & _).
  split; [exact (proj1 (Hinit Hpos))|exact Hover].
Defined.

Lemma page_shows_score_of_tick_start_witness :
  isGameOver lastHitWorld = false
  /\ Display.scoreText (display (@updateGame quietHost lastHitWorld))
     = score lastHitWorld.
Proof.
  assert (Hrun : isGameOver lastHitWorld = false) by reflexivity.
  split; [exact Hrun|].
  exact (proj1 (@page_shows_score_of_tick_start quietHost lastHitWorld Hrun)).
Defined.


Lemma idle_player_stays_put_witness :
  keys missWorld = Keys.mk false false false false false false false false
  /\ Joystick.active (joystickState missWorld) = false
  /\ inArena missWorld (player missWorld)
  /\ Player.x (player (@Player_update quietHost missWorld))
     == Player.x (player missWorld)
  /\ Player.y (player (@Player_update quietHost missWorld))
     == Player.y (player missWorld).
Proof.
  assert (Hkeys : keys missWorld
                  = Keys.mk false false false false false false false false)
    by reflexivity.
  assert (Hjoy : Joystick.active (joystickState missWorld) = false)
    by reflexivity.
  assert (Hin : inArena missWorld (player missWorld))
    by (split; [|split; [|split]]; vm_compute; discriminate).
  split; [exact Hkeys|]. split; [exact Hjoy|]. split; [exact Hin|].
  exact (@idle_player_stays_put quietHost missWorld Hkeys Hjoy Hin).
Defined.

Lemma getMousePos_keeps_origin_and_order_witness :
  1 <= Rect.width pageRect
  /\ 1 <= Rect.height pageRect
  /\ 0 <= canvas_width missWorld
  /\ 0 <= canvas_height missWorld
  /\ exists w',
       getMousePos pageRect 40 60 missWorld = Some w'
       /\ Mouse.x (mouse w') == 0
       /\ Mouse.y (mouse w') == 0.
Proof.
  assert (Hw : 1 <= Rect.width pageRect) by (vm_compute; discriminate).
  assert (Hh : 1 <= Rect.height pageRect) by (vm_compute; discriminate).
  assert (Hcw : 0 <= canvas_width missWorld) by (vm_compute; discriminate).
  assert (Hch : 0 <= canvas_height missWorld) by (vm_compute; discriminate).
  split; [exact Hw|]. split; [exact Hh|]. split; [exact Hcw|].
  split; [exact Hch|].
  destruct (getMousePos_keeps_origin_and_order pageRect missWorld 40 60
              Hw Hh Hcw Hch) as (w' & Hsome & _ & _ & Hx & Hy & _).
  exists w'. split; [exact Hsome|].
  split; [apply Hx|apply Hy]; reflexivity.
Defined.

Lemma resizeCanvas_square_and_centred_witness :
  (0 <= 501)%Z
  /\ ~ Rect.width pageRect == 0
  /\ ~ Rect.height pageRect == 0
  /\ exists w',
       resizeCanvas 501 pageRect missWorld = Some w'
       /\ canvas_width w' = 450
       /\ canvas_height w' = 450
       /\ Player.x (player w') = 450 / 2
       /\ Player.y (player w') = 450 / 2
       /\ inArena w' (player w').
Proof.
  assert (Hpos : (0 <= 501)%Z) by discriminate.
  assert (Hw : ~ Rect.width pageRect == 0) by (vm_compute; discriminate).
  assert (Hh : ~ Rect.height pageRect == 0) by (vm_compute; discriminate).
  split; [exact Hpos|]. split; [exact Hw|]. split; [exact Hh|].
  destruct (resizeCanvas_square_and_centred 501 pageRect missWorld
              Hpos Hw Hh)
    as (w' & Hsome & Hcw & Hch & Hx & Hy & _ & Harena & _).
  exists w'. split; [exact Hsome|]. split; [exact Hcw|].
  split; [exact Hch|]. split; [exact Hx|]. split; [exact Hy|].
  apply Harena. vm_compute. discriminate.
Defined.

Lemma joystick_movement_is_normalised_witness :
  0 <= @dist quietHost 0 0 (130 - Joystick.startX (joystickState joystickWorld))
         (700 - Joystick.startY (joystickState joystickWorld))
  /\ (-1 <= Joystick.dx (joystickState
                           (@updateJoystick quietHost 130 700 joystickWorld))
      /\ Joystick.dx (joystickState
                        (@updateJoystick quietHost 130 700 joystickWorld))
         <= 1).
Proof.
  assert (Hdist : 0 <= @dist quietHost 0 0
                         (130 - Joystick.startX (joystickState joystickWorld))
                         (700 - Joystick.startY (joystickState joystickWorld)))
    by (vm_compute; discriminate).
  split; [exact Hdist|].
  refine (proj1 (@joystick_movement_is_normalised quietHost 130 700
                   joystickWorld Hdist _ _)).
  - split; vm_compute; discriminate.
  - split; vm_compute; discriminate.
Defined.

Lemma drawGame_only_reads_witness :
  (forall n, (clockReads relicWorld <= n)%nat
             -> @Date_now quietHost n = (t0 + 1200)%Z)
  /\ exists shown : list Item.t,
       fst (@drawGame quietHost relicWorld)
       = PaintBackground 800 800
         :: @Player_draw quietHost relicWorld
         :: map PaintItem shown ++ [@Player_draw quietHost relicWorld]
       /\ shown = [relic]
       /\ clockReads (snd (@drawGame quietHost relicWorld)) = 1%nat.
Proof.
  assert (Hclock : forall n, (clockReads relicWorld <= n)%nat
                             -> @Date_now quietHost n = (t0 + 1200)%Z)
    by (intros n _; reflexivity).
  split; [exact Hclock|].
  destruct (@drawGame_only_reads quietHost relicWorld)
    as (shown & Hframe & _ & Hreads & _ & _ & Hat).
  exists shown. split; [exact Hframe|].
  split; [exact (Hat (t0 + 1200)%Z Hclock)|exact Hreads].
Defined.

Lemma bullet_never_turns_back_witness :
  0 <= Bullet.vx tracer
  /\ Bullet.x (Nat.iter 2 Bullet_update tracer)
     <= Bullet.x (Nat.iter (3 + 2) Bullet_update tracer).
Proof.
  assert (Hvx : 0 <= Bullet.vx tracer) by (vm_compute; discriminate).
  split; [exact Hvx|].
  destruct (bullet_never_turns_back 2 3 tracer) as (_ & _ & _ & Hx & _).
  exact (Hx Hvx).
Defined.
